(** * frontend-agent: the test orchestrator, its HTTP intake and its state store

    A shallow embedding of the TypeScript sources
    ([src/orchestrator/index.ts], [src/services/automation.ts],
    [src/index.ts], [src/types/index.ts]) and of the compiled JavaScript
    copies that the repository ships beside them (orchestrator, automation
    and visual services), followed by the properties of the specification
    that were checked against them.

    Conventions.
    - JavaScript numbers that only ever hold integers (clock readings,
      durations, counters, array lengths) are [Z] or [nat]; below 2^53 a
      double represents them exactly.  Numbers that are measured or
      computed by a division are IEEE-754 doubles ([float]).
    - Asynchronous methods are written in a state-and-exception monad [M]
      over the orchestrator's fields, the disk and the outside world.  The
      outside world (clock, uuid generator, Playwright, file-system faults)
      is an oracle indexed by the number of observations made so far.
    - [console.log] and [console.error] have no effect on any value and are
      left out. *)

From Stdlib Require Import PrimFloat Uint63 ZArith List String Bool Lia Permutation.
From Stdlib Require Import DecimalString.
Import ListNotations.

Set Warnings "-register-all".

Local Open Scope string_scope.
Local Open Scope list_scope.

(** ** JavaScript numbers *)

Definition num_of_Z (z : Z) : float :=
  match z with
  | Z0 => PrimFloat.zero
  | Zpos _ => PrimFloat.of_uint63 (Uint63.of_Z z)
  | Zneg _ => PrimFloat.opp (PrimFloat.of_uint63 (Uint63.of_Z (Z.opp z)))
  end.

Definition num_of_nat (n : nat) : float := num_of_Z (Z.of_nat n).

(** [!x] on a number: zero (of either sign) and NaN are falsy. *)
Definition num_falsy (f : float) : bool :=
  PrimFloat.is_zero f || PrimFloat.is_nan f.

(** ** JSON values

    What [JSON.parse] returns and what [JSON.stringify] prints, as a tree.
    [JNum] carries a double, [JInt] a number that the program treats as an
    integer; a number of a request body may come as either. *)

Inductive json : Type :=
| JNull
| JBool (b : bool)
| JInt (z : Z)
| JNum (f : float)
| JStr (s : string)
| JArr (items : list json)
| JObj (fields : list (string * json)).

(** A JavaScript value read from a property: [None] is [undefined]. *)
Definition jsval := option json.

Fixpoint assoc (k : string) (fields : list (string * json)) : jsval :=
  match fields with
  | [] => None
  | (k', v) :: rest => if String.eqb k k' then Some v else assoc k rest
  end.

(** [v.k] for a value that is neither [null] nor [undefined]. *)
Definition prop (k : string) (v : json) : jsval :=
  match v with
  | JObj fields => assoc k fields
  | _ => None
  end.

(** [v?.k] *)
Definition prop_opt (k : string) (v : jsval) : jsval :=
  match v with
  | None | Some JNull => None
  | Some o => prop k o
  end.

Definition truthy (v : jsval) : bool :=
  match v with
  | None | Some JNull => false
  | Some (JBool b) => b
  | Some (JInt z) => negb (Z.eqb z 0)
  | Some (JNum f) => negb (num_falsy f)
  | Some (JStr s) => negb (String.eqb s "")
  | Some (JArr _) | Some (JObj _) => true
  end.

Inductive jstype := TUndefined | TObject | TBoolean | TNumber | TString.

Definition typeof (v : jsval) : jstype :=
  match v with
  | None => TUndefined
  | Some JNull | Some (JArr _) | Some (JObj _) => TObject
  | Some (JBool _) => TBoolean
  | Some (JInt _) | Some (JNum _) => TNumber
  | Some (JStr _) => TString
  end.

Definition is_string (v : jsval) : bool :=
  match typeof v with TString => true | _ => false end.

Definition is_object (v : jsval) : bool :=
  match typeof v with TObject => true | _ => false end.

(** [Array.isArray] *)
Definition isArray (v : jsval) : bool :=
  match v with Some (JArr _) => true | _ => false end.

(** ** Data model ([src/types/index.ts]) *)

Inductive Action := Click | TypeText | Hover | Scroll | Wait.

Definition action_name (a : Action) : string :=
  match a with
  | Click => "click" | TypeText => "type" | Hover => "hover"
  | Scroll => "scroll" | Wait => "wait"
  end.

Record AutomationStep := mkStep {
  step_action : Action;
  step_target : option string;
  step_value : option string;
  step_timeout : option float
}.

Record Test := mkTest {
  test_id : string;
  test_name : string;
  test_description : string;
  target_url : string;
  target_baseUrl : option string;
  visual_instructions : string;
  expect_layout : list string;
  expect_design : list string;
  expect_accessibility : list string;
  screenshots_baseline : string;
  screenshots_tolerance : float;
  automation_steps : list AutomationStep;
  assert_visual : bool;
  assert_functional : bool;
  assert_performance : bool
}.

(** A screenshot is held as the object the client posted, with the
    properties the intake added: no code reads a property of it, except
    for its [id] when the request is answered, and nothing checks it
    against the [Screenshot] interface.  [mkScreenshot] builds an object of
    the declared shape. *)
Definition Screenshot := json.

Definition mkScreenshot (id testId data : string) (timestamp : Z)
  (width height : float) (browser : string) : Screenshot :=
  JObj [("id", JStr id);
        ("testId", JStr testId);
        ("data", JStr data);
        ("timestamp", JInt timestamp);
        ("metadata", JObj [
           ("viewport", JObj [("width", JNum width); ("height", JNum height)]);
           ("browser", JStr browser)])].

Inductive Severity := Critical | Major | Minor.

Record VisualIssue := mkIssue {
  issue_severity : Severity;
  issue_description : string;
  location_selector : string;
  location_screenshot : string;
  location_x : float;
  location_y : float;
  issue_recommendation : string
}.

Inductive StepStatus := StepPass | StepFail.

Record StepResult := mkStepResult {
  sr_status : StepStatus;
  sr_action : string;
  sr_duration : Z;
  sr_error : option string
}.

Record PerformanceMetrics := mkMetrics {
  perf_fcp : float;
  perf_lcp : float;
  perf_cls : float;
  console_errors : list string;
  console_warnings : list string;
  network_requests : Z;
  network_failures : Z;
  timing_dns : float;
  timing_tcp : float;
  timing_ttfb : float
}.

Record VisualAnalysisResult := mkAnalysis {
  va_observations : list string;
  va_issues : list VisualIssue;
  va_accessibility : float;
  va_designConsistency : float;
  va_layoutAccuracy : float
}.

(** The compiled copy starts a result with the status ["running"], which
    is outside the declared union; it is kept as a fourth value. *)
Inductive Status := Pass | Fail | Error | RunningStatus.

Record TestResult := mkResult {
  tr_id : string;
  tr_testId : string;
  tr_timestamp : Z;
  tr_duration : Z;
  tr_status : Status;
  tr_visualAnalysis : VisualAnalysisResult;
  tr_steps : list StepResult;
  tr_metrics : PerformanceMetrics
}.

Record TestHistory := mkHistory {
  hist_testId : string;
  hist_runs : list (Z * TestResult)
}.

Record TestAnalytics := mkAnalytics {
  totalRuns : nat;
  passRate : float;
  averageDuration : float;
  commonIssues : list (string * nat)
}.

Inductive Phase := SetupPhase | RunningPhase | AnalysisPhase | CleanupPhase.

Inductive Backoff := Linear | Exponential.

Record Queue := mkQueue {
  pending : list Test;
  running : list Test;
  completed : list Test;
  failed : list Test
}.

Record Config := mkConfig {
  maxParallel : Z;
  perBrowser : Z;
  timeout_visual : Z;
  timeout_automation : Z;
  timeout_total : Z;
  retries_count : Z;
  retries_backoff : Backoff
}.

Record Current := mkCurrent {
  phase : Phase;
  current_test : option Test;
  screenshots : list Screenshot;
  results : list TestResult
}.

(** [TestingSystem]: [queue] is [orchestrator.testRunner.queue], [config]
    gathers [orchestrator.testRunner.concurrency] and [.execution],
    [current] is [orchestrator.state.current], and the last two fields are
    [orchestrator.state.history]. *)
Record TestingSystem := mkSystem {
  queue : Queue;
  config : Config;
  current : Current;
  history_tests : list TestHistory;
  analytics : TestAnalytics
}.

(** ** The JSON image of a snapshot

    [JSON.stringify] drops the properties whose value is [undefined], prints
    NaN and the infinities as [null] and negative zero as [0]. *)

Definition num_ok (f : float) : bool :=
  negb (PrimFloat.is_nan f || PrimFloat.is_infinity f)
  && negb (PrimFloat.is_zero f && PrimFloat.get_sign f).

Definition enc_num (f : float) : json :=
  if PrimFloat.is_nan f || PrimFloat.is_infinity f then JNull
  else if PrimFloat.is_zero f && PrimFloat.get_sign f then JNum PrimFloat.zero
  else JNum f.

Definition enc_strings (l : list string) : json := JArr (map JStr l).

Definition enc_opt {A} (k : string) (e : A -> json) (o : option A)
  : list (string * json) :=
  match o with
  | Some a => [(k, e a)]
  | None => []
  end.

Definition enc_step (s : AutomationStep) : json :=
  JObj ([("action", JStr (action_name (step_action s)))]
        ++ enc_opt "target" JStr (step_target s)
        ++ enc_opt "value" JStr (step_value s)
        ++ enc_opt "timeout" enc_num (step_timeout s)).

Definition enc_test (t : Test) : json :=
  JObj [("id", JStr (test_id t));
        ("name", JStr (test_name t));
        ("description", JStr (test_description t));
        ("target", JObj ([("url", JStr (target_url t))]
                         ++ enc_opt "baseUrl" JStr (target_baseUrl t)));
        ("visual", JObj [
           ("instructions", JStr (visual_instructions t));
           ("expectations", JObj [
              ("layout", enc_strings (expect_layout t));
              ("design", enc_strings (expect_design t));
              ("accessibility", enc_strings (expect_accessibility t))]);
           ("screenshots", JObj [
              ("baseline", JStr (screenshots_baseline t));
              ("tolerance", enc_num (screenshots_tolerance t))])]);
        ("automation", JObj [
           ("steps", JArr (map enc_step (automation_steps t)));
           ("assertions", JObj [
              ("visual", JBool (assert_visual t));
              ("functional", JBool (assert_functional t));
              ("performance", JBool (assert_performance t))])])].

(** [JSON.stringify] on a value that is itself a tree. *)
Fixpoint enc_json (j : json) : json :=
  match j with
  | JNum f => enc_num f
  | JArr items => JArr (map enc_json items)
  | JObj fields => JObj (map (fun kv => (fst kv, enc_json (snd kv))) fields)
  | other => other
  end.

Definition enc_screenshot (s : Screenshot) : json := enc_json s.

Definition severity_name (s : Severity) : string :=
  match s with Critical => "critical" | Major => "major" | Minor => "minor" end.

Definition enc_issue (i : VisualIssue) : json :=
  JObj [("severity", JStr (severity_name (issue_severity i)));
        ("description", JStr (issue_description i));
        ("location", JObj [
           ("selector", JStr (location_selector i));
           ("screenshot", JStr (location_screenshot i));
           ("coordinates", JObj [("x", enc_num (location_x i));
                                 ("y", enc_num (location_y i))])]);
        ("recommendation", JStr (issue_recommendation i))].

Definition step_status_name (s : StepStatus) : string :=
  match s with StepPass => "pass" | StepFail => "fail" end.

Definition enc_step_result (r : StepResult) : json :=
  JObj ([("status", JStr (step_status_name (sr_status r)));
         ("action", JStr (sr_action r));
         ("duration", JInt (sr_duration r))]
        ++ enc_opt "error" JStr (sr_error r)).

Definition enc_metrics (m : PerformanceMetrics) : json :=
  JObj [("performance", JObj [("fcp", enc_num (perf_fcp m));
                              ("lcp", enc_num (perf_lcp m));
                              ("cls", enc_num (perf_cls m))]);
        ("console", JObj [("errors", enc_strings (console_errors m));
                          ("warnings", enc_strings (console_warnings m))]);
        ("network", JObj [
           ("requests", JInt (network_requests m));
           ("failures", JInt (network_failures m));
           ("timing", JObj [("dns", enc_num (timing_dns m));
                            ("tcp", enc_num (timing_tcp m));
                            ("ttfb", enc_num (timing_ttfb m))])])].

Definition enc_analysis (a : VisualAnalysisResult) : json :=
  JObj [("observations", enc_strings (va_observations a));
        ("issues", JArr (map enc_issue (va_issues a)));
        ("metrics", JObj [
           ("accessibility", enc_num (va_accessibility a));
           ("designConsistency", enc_num (va_designConsistency a));
           ("layoutAccuracy", enc_num (va_layoutAccuracy a))])].

Definition status_name (s : Status) : string :=
  match s with
  | Pass => "pass" | Fail => "fail" | Error => "error"
  | RunningStatus => "running"
  end.

Definition enc_result (r : TestResult) : json :=
  JObj [("id", JStr (tr_id r));
        ("testId", JStr (tr_testId r));
        ("timestamp", JInt (tr_timestamp r));
        ("duration", JInt (tr_duration r));
        ("status", JStr (status_name (tr_status r)));
        ("visualAnalysis", enc_analysis (tr_visualAnalysis r));
        ("automationResults", JObj [
           ("steps", JArr (map enc_step_result (tr_steps r)));
           ("metrics", enc_metrics (tr_metrics r))])].

Definition enc_run (run : Z * TestResult) : json :=
  JObj [("timestamp", JInt (fst run)); ("result", enc_result (snd run))].

Definition enc_history (h : TestHistory) : json :=
  JObj [("testId", JStr (hist_testId h));
        ("runs", JArr (map enc_run (hist_runs h)))].

Definition enc_common_issue (c : string * nat) : json :=
  JObj [("type", JStr (fst c)); ("count", JInt (Z.of_nat (snd c)))].

Definition enc_analytics (a : TestAnalytics) : json :=
  JObj [("totalRuns", JInt (Z.of_nat (totalRuns a)));
        ("passRate", enc_num (passRate a));
        ("averageDuration", enc_num (averageDuration a));
        ("commonIssues", JArr (map enc_common_issue (commonIssues a)))].

Definition phase_name (p : Phase) : string :=
  match p with
  | SetupPhase => "setup" | RunningPhase => "running"
  | AnalysisPhase => "analysis" | CleanupPhase => "cleanup"
  end.

Definition backoff_name (b : Backoff) : string :=
  match b with Linear => "linear" | Exponential => "exponential" end.

Definition enc_tests (l : list Test) : json := JArr (map enc_test l).

Definition enc_system (s : TestingSystem) : json :=
  JObj [("orchestrator", JObj [
    ("testRunner", JObj [
       ("queue", JObj [("pending", enc_tests (pending (queue s)));
                       ("running", enc_tests (running (queue s)));
                       ("completed", enc_tests (completed (queue s)));
                       ("failed", enc_tests (failed (queue s)))]);
       ("concurrency", JObj [
          ("maxParallel", JInt (maxParallel (config s)));
          ("perBrowser", JInt (perBrowser (config s)))]);
       ("execution", JObj [
          ("timeouts", JObj [
             ("visual", JInt (timeout_visual (config s)));
             ("automation", JInt (timeout_automation (config s)));
             ("total", JInt (timeout_total (config s)))]);
          ("retries", JObj [
             ("count", JInt (retries_count (config s)));
             ("backoff", JStr (backoff_name (retries_backoff (config s))))])])]);
    ("state", JObj [
       ("current", JObj [
          ("phase", JStr (phase_name (phase (current s))));
          ("test", match current_test (current s) with
                   | Some t => enc_test t
                   | None => JNull
                   end);
          ("screenshots", JArr (map enc_screenshot (screenshots (current s))));
          ("results", JArr (map enc_result (results (current s))))]);
       ("history", JObj [
          ("tests", JArr (map enc_history (history_tests s)));
          ("analytics", enc_analytics (analytics s))])])])].

(** ** Reading a snapshot back

    [JSON.parse] returns an untyped tree; the decoders below give the view
    of that tree through the interfaces of [src/types/index.ts].  They
    answer [None] on a tree that does not inhabit the interface. *)

Definition obind {A B} (o : option A) (f : A -> option B) : option B :=
  match o with
  | Some a => f a
  | None => None
  end.

Notation "'let?' x ':=' o 'in' k" := (obind o (fun x => k))
  (at level 10, x pattern, o at level 100, k at level 200).

Definition dec_string (v : jsval) : option string :=
  match v with Some (JStr s) => Some s | _ => None end.

Definition dec_bool (v : jsval) : option bool :=
  match v with Some (JBool b) => Some b | _ => None end.

Definition dec_Z (v : jsval) : option Z :=
  match v with Some (JInt z) => Some z | _ => None end.

Definition dec_nat (v : jsval) : option nat :=
  match v with
  | Some (JInt z) => if (z <? 0)%Z then None else Some (Z.to_nat z)
  | _ => None
  end.

Definition dec_num (v : jsval) : option float :=
  match v with
  | Some (JNum f) => Some f
  | Some (JInt z) => Some (num_of_Z z)
  | _ => None
  end.

Fixpoint traverse {A} (d : json -> option A) (l : list json) : option (list A) :=
  match l with
  | [] => Some []
  | j :: rest =>
      let? a := d j in
      let? r := traverse d rest in
      Some (a :: r)
  end.

Definition dec_list {A} (d : json -> option A) (v : jsval) : option (list A) :=
  match v with
  | Some (JArr l) => traverse d l
  | _ => None
  end.

(** An optional property: absent, or present with a value of its type. *)
Definition dec_opt {A} (d : jsval -> option A) (v : jsval) : option (option A) :=
  match v with
  | None => Some None
  | Some _ => option_map Some (d v)
  end.

Definition dec_strings (v : jsval) : option (list string) :=
  dec_list (fun j => dec_string (Some j)) v.

Definition action_of_name (s : string) : option Action :=
  if String.eqb s "click" then Some Click
  else if String.eqb s "type" then Some TypeText
  else if String.eqb s "hover" then Some Hover
  else if String.eqb s "scroll" then Some Scroll
  else if String.eqb s "wait" then Some Wait
  else None.

Definition dec_step (j : json) : option AutomationStep :=
  let? name := dec_string (prop "action" j) in
  let? a := action_of_name name in
  let? tg := dec_opt dec_string (prop "target" j) in
  let? vl := dec_opt dec_string (prop "value" j) in
  let? tm := dec_opt dec_num (prop "timeout" j) in
  Some (mkStep a tg vl tm).

Definition dec_test (j : json) : option Test :=
  let? id := dec_string (prop "id" j) in
  let? name := dec_string (prop "name" j) in
  let? description := dec_string (prop "description" j) in
  let? target := prop "target" j in
  let? url := dec_string (prop "url" target) in
  let? baseUrl := dec_opt dec_string (prop "baseUrl" target) in
  let? visual := prop "visual" j in
  let? instructions := dec_string (prop "instructions" visual) in
  let? expectations := prop "expectations" visual in
  let? layout := dec_strings (prop "layout" expectations) in
  let? design := dec_strings (prop "design" expectations) in
  let? accessibility := dec_strings (prop "accessibility" expectations) in
  let? shots := prop "screenshots" visual in
  let? baseline := dec_string (prop "baseline" shots) in
  let? tolerance := dec_num (prop "tolerance" shots) in
  let? automation := prop "automation" j in
  let? steps := dec_list dec_step (prop "steps" automation) in
  let? assertions := prop "assertions" automation in
  let? av := dec_bool (prop "visual" assertions) in
  let? af := dec_bool (prop "functional" assertions) in
  let? ap := dec_bool (prop "performance" assertions) in
  Some (mkTest id name description url baseUrl instructions layout design
               accessibility baseline tolerance steps av af ap).

(** Every tree is a screenshot. *)
Definition dec_screenshot (j : json) : option Screenshot := Some j.

Definition severity_of_name (s : string) : option Severity :=
  if String.eqb s "critical" then Some Critical
  else if String.eqb s "major" then Some Major
  else if String.eqb s "minor" then Some Minor
  else None.

Definition dec_issue (j : json) : option VisualIssue :=
  let? sname := dec_string (prop "severity" j) in
  let? severity := severity_of_name sname in
  let? description := dec_string (prop "description" j) in
  let? location := prop "location" j in
  let? selector := dec_string (prop "selector" location) in
  let? screenshot := dec_string (prop "screenshot" location) in
  let? coordinates := prop "coordinates" location in
  let? x := dec_num (prop "x" coordinates) in
  let? y := dec_num (prop "y" coordinates) in
  let? recommendation := dec_string (prop "recommendation" j) in
  Some (mkIssue severity description selector screenshot x y recommendation).

Definition step_status_of_name (s : string) : option StepStatus :=
  if String.eqb s "pass" then Some StepPass
  else if String.eqb s "fail" then Some StepFail
  else None.

Definition dec_step_result (j : json) : option StepResult :=
  let? sname := dec_string (prop "status" j) in
  let? status := step_status_of_name sname in
  let? action := dec_string (prop "action" j) in
  let? duration := dec_Z (prop "duration" j) in
  let? error := dec_opt dec_string (prop "error" j) in
  Some (mkStepResult status action duration error).

Definition dec_metrics (j : json) : option PerformanceMetrics :=
  let? performance := prop "performance" j in
  let? fcp := dec_num (prop "fcp" performance) in
  let? lcp := dec_num (prop "lcp" performance) in
  let? cls := dec_num (prop "cls" performance) in
  let? console := prop "console" j in
  let? errors := dec_strings (prop "errors" console) in
  let? warnings := dec_strings (prop "warnings" console) in
  let? network := prop "network" j in
  let? requests := dec_Z (prop "requests" network) in
  let? failures := dec_Z (prop "failures" network) in
  let? timing := prop "timing" network in
  let? dns := dec_num (prop "dns" timing) in
  let? tcp := dec_num (prop "tcp" timing) in
  let? ttfb := dec_num (prop "ttfb" timing) in
  Some (mkMetrics fcp lcp cls errors warnings requests failures dns tcp ttfb).

Definition dec_analysis (j : json) : option VisualAnalysisResult :=
  let? observations := dec_strings (prop "observations" j) in
  let? issues := dec_list dec_issue (prop "issues" j) in
  let? metrics := prop "metrics" j in
  let? accessibility := dec_num (prop "accessibility" metrics) in
  let? designConsistency := dec_num (prop "designConsistency" metrics) in
  let? layoutAccuracy := dec_num (prop "layoutAccuracy" metrics) in
  Some (mkAnalysis observations issues accessibility designConsistency
                   layoutAccuracy).

Definition status_of_name (s : string) : option Status :=
  if String.eqb s "pass" then Some Pass
  else if String.eqb s "fail" then Some Fail
  else if String.eqb s "error" then Some Error
  else if String.eqb s "running" then Some RunningStatus
  else None.

Definition dec_result (j : json) : option TestResult :=
  let? id := dec_string (prop "id" j) in
  let? testId := dec_string (prop "testId" j) in
  let? timestamp := dec_Z (prop "timestamp" j) in
  let? duration := dec_Z (prop "duration" j) in
  let? sname := dec_string (prop "status" j) in
  let? status := status_of_name sname in
  let? va := prop "visualAnalysis" j in
  let? analysis := dec_analysis va in
  let? automation := prop "automationResults" j in
  let? steps := dec_list dec_step_result (prop "steps" automation) in
  let? mj := prop "metrics" automation in
  let? metrics := dec_metrics mj in
  Some (mkResult id testId timestamp duration status analysis steps metrics).

Definition dec_run (j : json) : option (Z * TestResult) :=
  let? timestamp := dec_Z (prop "timestamp" j) in
  let? rj := prop "result" j in
  let? result := dec_result rj in
  Some (timestamp, result).

Definition dec_history (j : json) : option TestHistory :=
  let? testId := dec_string (prop "testId" j) in
  let? runs := dec_list dec_run (prop "runs" j) in
  Some (mkHistory testId runs).

Definition dec_common_issue (j : json) : option (string * nat) :=
  let? type := dec_string (prop "type" j) in
  let? count := dec_nat (prop "count" j) in
  Some (type, count).

Definition dec_analytics (j : json) : option TestAnalytics :=
  let? runs := dec_nat (prop "totalRuns" j) in
  let? rate := dec_num (prop "passRate" j) in
  let? avg := dec_num (prop "averageDuration" j) in
  let? issues := dec_list dec_common_issue (prop "commonIssues" j) in
  Some (mkAnalytics runs rate avg issues).

Definition phase_of_name (s : string) : option Phase :=
  if String.eqb s "setup" then Some SetupPhase
  else if String.eqb s "running" then Some RunningPhase
  else if String.eqb s "analysis" then Some AnalysisPhase
  else if String.eqb s "cleanup" then Some CleanupPhase
  else None.

Definition backoff_of_name (s : string) : option Backoff :=
  if String.eqb s "linear" then Some Linear
  else if String.eqb s "exponential" then Some Exponential
  else None.

Definition dec_current_test (v : jsval) : option (option Test) :=
  match v with
  | Some JNull => Some None
  | Some j => option_map Some (dec_test j)
  | None => None
  end.

Definition dec_system (j : json) : option TestingSystem :=
  let? orchestrator := prop "orchestrator" j in
  let? testRunner := prop "testRunner" orchestrator in
  let? q := prop "queue" testRunner in
  let? pending := dec_list dec_test (prop "pending" q) in
  let? running := dec_list dec_test (prop "running" q) in
  let? completed := dec_list dec_test (prop "completed" q) in
  let? failed := dec_list dec_test (prop "failed" q) in
  let? concurrency := prop "concurrency" testRunner in
  let? maxParallel := dec_Z (prop "maxParallel" concurrency) in
  let? perBrowser := dec_Z (prop "perBrowser" concurrency) in
  let? execution := prop "execution" testRunner in
  let? timeouts := prop "timeouts" execution in
  let? tvis := dec_Z (prop "visual" timeouts) in
  let? taut := dec_Z (prop "automation" timeouts) in
  let? ttot := dec_Z (prop "total" timeouts) in
  let? retries := prop "retries" execution in
  let? count := dec_Z (prop "count" retries) in
  let? bname := dec_string (prop "backoff" retries) in
  let? backoff := backoff_of_name bname in
  let? state := prop "state" orchestrator in
  let? cur := prop "current" state in
  let? pname := dec_string (prop "phase" cur) in
  let? phase := phase_of_name pname in
  let? test := dec_current_test (prop "test" cur) in
  let? shots := dec_list dec_screenshot (prop "screenshots" cur) in
  let? results := dec_list dec_result (prop "results" cur) in
  let? hist := prop "history" state in
  let? tests := dec_list dec_history (prop "tests" hist) in
  let? aj := prop "analytics" hist in
  let? analytics := dec_analytics aj in
  Some (mkSystem (mkQueue pending running completed failed)
                 (mkConfig maxParallel perBrowser tvis taut ttot count backoff)
                 (mkCurrent phase test shots results)
                 tests analytics).

(** ** The outside world *)

(** A thrown JavaScript value: an [Error] with its message, or anything
    else ([error instanceof Error] is false). *)
Inductive exn := JsError (message : string) | JsThrown.

(** [error instanceof Error ? error.message : 'Unknown error'] *)
Definition exn_message (e : exn) : string :=
  match e with
  | JsError m => m
  | JsThrown => "Unknown error"
  end.

Inductive BrowserType := Chromium | Firefox | Webkit.

(** The Playwright calls the two automation services make.  Page and
    context handles are not tracked: every call is an observation of the
    one browser. *)
Inductive PwCall :=
| Launch (b : BrowserType)
| BrowserClose
| NewContext
| NewPage
| NewCDPSession
| CDPSend (method : string)
| Goto (url : string)
| WaitForTimeout (ms : float)
| WaitForSelector (selector : string)
| PageClick (selector : string)
| PageTripleClick (selector : string)
| KeyboardPress (key : string)
| PageType (selector : string) (text : string)
| PageFill (selector : string) (text : string)
| PageHover (selector : string)
| ScrollIntoView (selector : string)
| TakeScreenshot (selector : option string)
| EvaluateLCP
| EvaluateCLS
| MeasureWithTimeout
| PageClose
| ContextClose.

Inductive FsCall :=
| Mkdir (dir : string)
| ReadFile (path : string)
| WriteFile (path : string).

(** What the page's event handlers of the compiled [collectMetrics] saw. *)
Record PageEvents := mkEvents {
  seen_errors : list string;
  seen_warnings : list string;
  seen_requests : Z;
  seen_failures : Z
}.

(** The oracle.  Every field that depends on the moment is indexed by the
    number of observations made before it.  [playwright n c = None] says
    that the call [c], made as observation [n], resolves; [Some e] that it
    rejects with [e].  The [pw_*] fields give the value of a call that
    resolves.  The last three are Node library functions. *)
Record Env := mkEnv {
  date_now : nat -> Z;
  uuidv4 : nat -> string;
  playwright : nat -> PwCall -> option exn;
  pw_string : nat -> string;
  pw_number : nat -> float;
  pw_fcp : nat -> option float;
  pw_metrics : nat -> PerformanceMetrics;
  pw_events : nat -> PageEvents;
  fs_fault : nat -> FsCall -> option exn;
  path_dirname : string -> string;
  path_join : string -> string -> string;
  md5_hex : string -> string
}.

(** A file holds either the text [JSON.stringify] printed for a tree, or
    something [JSON.parse] rejects. *)
Inductive filedata := FJson (j : json) | FRaw (bytes : string).

(** The fields of [TestOrchestrator], [BrowserAutomation] ([browser] is
    [None] for [null]) and [VisualAnalysis], with the disk and the number
    of observations made. *)
Record State := mkState {
  env : Env;
  ticks : nat;
  disk : list (string * filedata);
  system : TestingSystem;
  stateFilePath : string;
  browser : option BrowserType;
  browserType : BrowserType;
  screenshotDir : string
}.

Definition set_ticks (n : nat) (s : State) : State :=
  mkState (env s) n (disk s) (system s) (stateFilePath s) (browser s)
          (browserType s) (screenshotDir s).

Definition set_disk (d : list (string * filedata)) (s : State) : State :=
  mkState (env s) (ticks s) d (system s) (stateFilePath s) (browser s)
          (browserType s) (screenshotDir s).

Definition set_system (sys : TestingSystem) (s : State) : State :=
  mkState (env s) (ticks s) (disk s) sys (stateFilePath s) (browser s)
          (browserType s) (screenshotDir s).

Definition set_browser (b : option BrowserType) (s : State) : State :=
  mkState (env s) (ticks s) (disk s) (system s) (stateFilePath s) b
          (browserType s) (screenshotDir s).

Definition set_browserType (b : BrowserType) (s : State) : State :=
  mkState (env s) (ticks s) (disk s) (system s) (stateFilePath s) (browser s)
          b (screenshotDir s).

(** ** The monad of asynchronous methods *)

(** [Abort] is not a JavaScript outcome: [OutOfFuel] says the bound given
    to a recursion was too small, [IllTyped] that an untyped value (a
    request body, a parsed file) does not inhabit the interface the code
    casts it to.  No handler catches it. *)
Inductive abort := OutOfFuel | IllTyped.

Inductive outcome (A : Type) :=
| Ok (a : A)
| Throw (e : exn)
| Abort (why : abort).

Arguments Ok {A} a.
Arguments Throw {A} e.
Arguments Abort {A} why.

Definition M (A : Type) := State -> outcome A * State.

Definition ret {A} (a : A) : M A := fun s => (Ok a, s).

Definition bind {A B} (m : M A) (k : A -> M B) : M B := fun s =>
  match m s with
  | (Ok a, s') => k a s'
  | (Throw e, s') => (Throw e, s')
  | (Abort w, s') => (Abort w, s')
  end.

Definition throw {A} (e : exn) : M A := fun s => (Throw e, s).

Definition stop {A} (w : abort) : M A := fun s => (Abort w, s).

Declare Scope async_scope.
Delimit Scope async_scope with async.

Notation "x <- m ;; k" := (bind m (fun x => k))
  (at level 61, m at next level, right associativity) : async_scope.
Notation "m ;; k" := (bind m (fun _ => k))
  (at level 61, right associativity) : async_scope.

Local Open Scope async_scope.

(** [try { m } catch (e) { h e }] *)
Definition try_catch {A} (m : M A) (h : exn -> M A) : M A := fun s =>
  match m s with
  | (Throw e, s') => h e s'
  | r => r
  end.

(** [try { m } finally { f }] *)
Definition try_finally {A} (m : M A) (f : M unit) : M A := fun s =>
  match m s with
  | (Abort w, s') => (Abort w, s')
  | (r, s') =>
      match f s' with
      | (Ok _, s'') => (r, s'')
      | (Throw e, s'') => (Throw e, s'')
      | (Abort w, s'') => (Abort w, s'')
      end
  end.

(** Runs [m] and hands its completion to the caller, for a [try] whose
    handler goes on with the local variables of the enclosing function. *)
Definition attempt {A} (m : M A) : M (exn + A) := fun s =>
  match m s with
  | (Ok a, s') => (Ok (inr a), s')
  | (Throw e, s') => (Ok (inl e), s')
  | (Abort w, s') => (Abort w, s')
  end.

(** Reading a field of [this]. *)
Definition this {A} (field : State -> A) : M A := fun s => (Ok (field s), s).

Definition get_system : M TestingSystem := this system.

Definition modify_system (f : TestingSystem -> TestingSystem) : M unit :=
  fun s => (Ok tt, set_system (f (system s)) s).

Definition observe {A} (read : Env -> nat -> A) : M A := fun s =>
  (Ok (read (env s) (ticks s)), set_ticks (S (ticks s)) s).

(** [Date.now()] *)
Definition now : M Z := observe date_now.

(** [uuidv4()] *)
Definition uuid : M string := observe uuidv4.

(** A Playwright call awaited for its effect. *)
Definition pw (c : PwCall) : M unit :=
  r <- observe (fun e n => playwright e n c) ;;
  match r with
  | None => ret tt
  | Some e => throw e
  end.

(** A Playwright call awaited for its value. *)
Definition pw_value {A} (c : PwCall) (read : Env -> nat -> A) : M A := fun s =>
  match playwright (env s) (ticks s) c with
  | None => (Ok (read (env s) (ticks s)), set_ticks (S (ticks s)) s)
  | Some e => (Throw e, set_ticks (S (ticks s)) s)
  end.

Fixpoint lookup_file (p : string) (d : list (string * filedata)) : option filedata :=
  match d with
  | [] => None
  | (p', c) :: rest => if String.eqb p p' then Some c else lookup_file p rest
  end.

Definition fs_call (c : FsCall) : M unit :=
  r <- observe (fun e n => fs_fault e n c) ;;
  match r with
  | None => ret tt
  | Some e => throw e
  end.

(** [fs.mkdir(dir, { recursive: true })]: directories are not tracked. *)
Definition fs_mkdir (dir : string) : M unit := fs_call (Mkdir dir).

(** [fs.writeFile(path, data)] *)
Definition fs_writeFile (path : string) (data : filedata) : M unit :=
  fs_call (WriteFile path) ;;
  fun s => (Ok tt, set_disk ((path, data) :: disk s) s).

(** [fs.readFile(path, 'utf-8')] *)
Definition fs_readFile (path : string) : M filedata :=
  fs_call (ReadFile path) ;;
  fun s =>
    match lookup_file path (disk s) with
    | Some c => (Ok c, s)
    | None => (Throw (JsError "ENOENT: no such file or directory"), s)
    end.

Definition with_env {A} (f : Env -> A) : M A := fun s => (Ok (f (env s)), s).

(** ** The orchestrator: what the two copies share

    [createInitialSystem], [loadState], [saveState], [updateAnalytics],
    [getSystemState] and [addScreenshot] read the same in
    [src/orchestrator/index.ts] and in the compiled copy, and so do the
    bodies of [queueTest] and [processQueue]. *)

Definition with_queue (q : Queue) (sys : TestingSystem) : TestingSystem :=
  mkSystem q (config sys) (current sys) (history_tests sys) (analytics sys).

Definition with_current (c : Current) (sys : TestingSystem) : TestingSystem :=
  mkSystem (queue sys) (config sys) c (history_tests sys) (analytics sys).

Definition with_analytics (a : TestAnalytics) (sys : TestingSystem) : TestingSystem :=
  mkSystem (queue sys) (config sys) (current sys) (history_tests sys) a.

Definition createInitialSystem : TestingSystem :=
  mkSystem (mkQueue [] [] [] [])
           (mkConfig 1 1 30000 60000 300000 3 Exponential)
           (mkCurrent SetupPhase None [] [])
           []
           (mkAnalytics 0 0%float 0%float []).

(** [JSON.stringify(this.system, null, 2)] then [fs.writeFile]: the file
    holds the text of the tree [enc_system]. *)
Definition saveState : M unit :=
  path <- this stateFilePath ;;
  stateDir <- with_env (fun e => path_dirname e path) ;;
  fs_mkdir stateDir ;;
  sys <- get_system ;;
  fs_writeFile path (FJson (enc_system sys)).

(** [JSON.parse(data)] *)
Definition JSON_parse (data : filedata) : M json :=
  match data with
  | FJson j => ret j
  | FRaw _ => throw (JsError "Unexpected token in JSON")
  end.

(** [loadState].  [this.system = JSON.parse(data)] assigns the tree
    unchecked.  The model holds typed snapshots: a tree that does not
    inhabit [TestingSystem] leaves it ([Abort IllTyped]), and what the
    code does with such a tree is not modelled. *)
Definition loadState : M unit :=
  try_catch
    (path <- this stateFilePath ;;
     data <- fs_readFile path ;;
     j <- JSON_parse data ;;
     match dec_system j with
     | Some sys => modify_system (fun _ => sys)
     | None => stop IllTyped
     end)
    (fun _ => saveState).

(** [queueTest] up to its first [await]. *)
Definition queueTest_push (test : Test) (sys : TestingSystem) : TestingSystem :=
  let q := queue sys in
  with_queue (mkQueue (pending q ++ [test]) (running q) (completed q) (failed q)) sys.

Definition phase_eqb (p q : Phase) : bool :=
  match p, q with
  | SetupPhase, SetupPhase | RunningPhase, RunningPhase
  | AnalysisPhase, AnalysisPhase | CleanupPhase, CleanupPhase => true
  | _, _ => false
  end.

(** [processQueue] up to its first [await]: [None] when it returns early,
    otherwise the test taken from the head of [pending] and the snapshot
    in which it is running. *)
Definition processQueue_head (sys : TestingSystem) : option (Test * TestingSystem) :=
  if negb (phase_eqb (phase (current sys)) SetupPhase) then None
  else
    match pending (queue sys) with
    | [] => None
    | nextTest :: rest =>
        let q := queue sys in
        let c := current sys in
        Some (nextTest,
              with_queue (mkQueue rest (running q ++ [nextTest]) (completed q) (failed q))
                (with_current (mkCurrent RunningPhase (Some nextTest)
                                         (screenshots c) (results c)) sys))
    end.

(** [existingIssue ? existingIssue.count++ : commonIssues.push(...)] *)
Fixpoint count_issue (description : string) (l : list (string * nat))
  : list (string * nat) :=
  match l with
  | [] => [(description, 1)]
  | (type, count) :: rest =>
      if String.eqb type description then (type, S count) :: rest
      else (type, count) :: count_issue description rest
  end.

Definition sum_durations (l : list TestResult) : Z :=
  fold_left (fun sum r => (sum + tr_duration r)%Z) l 0%Z.

Definition updateAnalytics (result : TestResult) (sys : TestingSystem) : TestingSystem :=
  let a := analytics sys in
  let runs := S (totalRuns a) in
  let totalPassed := List.length (completed (queue sys)) in
  let rate := (num_of_nat totalPassed / num_of_nat runs * 100)%float in
  let totalDuration := sum_durations (results (current sys)) in
  let average := (num_of_Z totalDuration / num_of_nat runs)%float in
  let issues :=
    match va_issues (tr_visualAnalysis result) with
    | [] => commonIssues a
    | found =>
        fold_left (fun acc issue => count_issue (issue_description issue) acc)
                  found (commonIssues a)
    end in
  with_analytics (mkAnalytics runs rate average issues) sys.

Definition getSystemState : M TestingSystem := get_system.

Definition addScreenshot_push (screenshot : Screenshot) (sys : TestingSystem)
  : TestingSystem :=
  let c := current sys in
  with_current (mkCurrent (phase c) (current_test c)
                          (screenshots c ++ [screenshot]) (results c)) sys.

Definition addScreenshot (screenshot : Screenshot) : M unit :=
  modify_system (addScreenshot_push screenshot) ;;
  saveState.

Definition zero_metrics : PerformanceMetrics :=
  mkMetrics 0%float 0%float 0%float [] [] 0 0 0%float 0%float 0%float.

Definition get_browser : M (option BrowserType) := this browser.

(** [BrowserAutomation.initialize], the same in both copies. *)
Definition automation_initialize (b : BrowserType) : M unit :=
  (fun s => (Ok tt, set_browserType b s)) ;;
  pw (Launch b) ;;
  fun s => (Ok tt, set_browser (Some b) s).

(** [!x] on an optional string. *)
Definition blank (o : option string) : bool :=
  match o with
  | None => true
  | Some s => String.eqb s ""
  end.

Definition text_of (o : option string) : string :=
  match o with
  | Some s => s
  | None => ""
  end.

(** ** The visual service ([src/services/visual.ts] and its compiled copy) *)

Definition visual_initialize : M unit :=
  dir <- this screenshotDir ;;
  fs_mkdir dir.

Definition saveScreenshot (data : string) (testId : string) : M string :=
  hash <- with_env (fun e => md5_hex e data) ;;
  let filename := (testId ++ "_" ++ hash ++ ".png")%string in
  dir <- this screenshotDir ;;
  filepath <- with_env (fun e => path_join e dir filename) ;;
  fs_writeFile filepath (FRaw data) ;;
  ret filepath.

Definition placeholder_analysis : VisualAnalysisResult :=
  mkAnalysis
    ["Placeholder observation: Layout appears to follow design guidelines";
     "Placeholder observation: Text contrast meets WCAG standards"]
    [] 90%float 85%float 95%float.

Definition analyzeScreenshot (screenshot instructions : string)
  (layout design accessibility : list string) : M VisualAnalysisResult :=
  ret placeholder_analysis.

(** ** The TypeScript sources *)

Module Source.

(** *** [src/services/automation.ts] *)

(** The navigation loop of [executeStep]: at most three attempts, the
    third failure is rethrown. *)
Fixpoint navigate (url : string) (left : nat) (attempt : nat) : M unit :=
  match left with
  | 0 => ret tt
  | S left' =>
      try_catch
        (pw (Goto url) ;; pw (WaitForTimeout 3000%float))
        (fun err =>
           if Nat.eqb attempt 2 then throw err
           else navigate url left' (S attempt))
  end.

Fixpoint type_chars (selector : string) (value : string) : M unit :=
  match value with
  | EmptyString => ret tt
  | String char rest =>
      pw (PageType selector (String char EmptyString)) ;;
      type_chars selector rest
  end.

Definition perform (step : AutomationStep) : M unit :=
  match step_action step with
  | Click =>
      if blank (step_target step)
      then throw (JsError "Target selector is required for click action")
      else
        let selector := text_of (step_target step) in
        pw (WaitForSelector selector) ;;
        pw (WaitForTimeout 1000%float) ;;
        pw (PageClick selector) ;;
        pw (WaitForTimeout 2000%float)
  | TypeText =>
      if blank (step_target step)
      then throw (JsError "Target selector is required for type action")
      else if blank (step_value step)
      then throw (JsError "Value is required for type action")
      else
        let selector := text_of (step_target step) in
        pw (WaitForSelector selector) ;;
        pw (WaitForTimeout 1000%float) ;;
        pw (PageTripleClick selector) ;;
        pw (KeyboardPress "Backspace") ;;
        type_chars selector (text_of (step_value step)) ;;
        pw (WaitForTimeout 1000%float)
  | Wait =>
      let timeout :=
        match step_timeout step with
        | Some ms => ms
        | None => 1000%float
        end in
      pw (WaitForTimeout timeout)
  | Hover | Scroll => ret tt
  end.

Definition executeStep (step : AutomationStep) (url : string) : M unit :=
  b <- get_browser ;;
  match b with
  | None => automation_initialize Chromium
  | Some _ => ret tt
  end ;;
  pw NewPage ;;
  try_finally
    (try_catch
       (navigate url 3 0 ;; perform step)
       (fun error => throw error))
    (pw PageClose).

Definition failure_metrics (error : exn) : PerformanceMetrics :=
  mkMetrics 0%float 0%float 0%float
            [("Metrics collection failed: " ++ exn_message error)%string] []
            0 1 0%float 0%float 0%float.

Definition collectMetrics (url : string) : M PerformanceMetrics :=
  b <- get_browser ;;
  match b with
  | None => throw (JsError "Browser not initialized")
  | Some _ =>
      page <- attempt (pw NewPage) ;;
      match page with
      | inl error => ret (failure_metrics error)
      | inr _ =>
          try_finally
            (try_catch
               (pw (Goto url) ;; pw_value MeasureWithTimeout pw_metrics)
               (fun error => ret (failure_metrics error)))
            (pw PageClose)
      end
  end.

(** *** [src/orchestrator/index.ts] *)

Definition pass_result (step : AutomationStep) (duration : Z) : StepResult :=
  mkStepResult StepPass (action_name (step_action step)) duration None.

Definition fail_result (step : AutomationStep) (duration : Z) (error : exn)
  : StepResult :=
  mkStepResult StepFail (action_name (step_action step)) duration
               (Some (exn_message error)).

(** The [for] loop of [runTest], with [result.automationResults.steps] as
    an accumulator: it answers the step results and, when the loop was
    left by its [throw], the error thrown. *)
Fixpoint run_steps (url : string) (steps : list AutomationStep)
  (done : list StepResult) : M (list StepResult * option exn) :=
  match steps with
  | [] => ret (done, None)
  | step :: rest =>
      stepStartTime <- now ;;
      r <- attempt (executeStep step url) ;;
      finished <- now ;;
      match r with
      | inr _ =>
          run_steps url rest
                    (done ++ [pass_result step (finished - stepStartTime)])
      | inl error =>
          let stepResult := fail_result step (finished - stepStartTime) error in
          ret (done ++ [stepResult],
               Some (JsError ("Step failed: " ++ exn_message error)%string))
      end
  end.

Definition initial_result (id testId : string) (timestamp : Z) : TestResult :=
  mkResult id testId timestamp 0 Error placeholder_analysis [] zero_metrics.

Definition with_outcome (r : TestResult) (steps : list StepResult)
  (metrics : PerformanceMetrics) (status : Status) : TestResult :=
  mkResult (tr_id r) (tr_testId r) (tr_timestamp r) (tr_duration r) status
           (tr_visualAnalysis r) steps metrics.

Definition with_duration (r : TestResult) (duration : Z) : TestResult :=
  mkResult (tr_id r) (tr_testId r) (tr_timestamp r) duration (tr_status r)
           (tr_visualAnalysis r) (tr_steps r) (tr_metrics r).

(** The [try] block of [runTest] with its [catch]: the result as the
    [finally] block finds it, and the error caught, if any. *)
Definition run_body (test : Test) (result : TestResult)
  : M (TestResult * option exn) :=
  looped <- run_steps (target_url test) (automation_steps test) [] ;;
  match looped with
  | (steps, Some error) =>
      ret (with_outcome result steps (tr_metrics result) Fail, Some error)
  | (steps, None) =>
      if assert_performance test then
        m <- attempt (collectMetrics (target_url test)) ;;
        match m with
        | inr metrics => ret (with_outcome result steps metrics Pass, None)
        | inl error =>
            ret (with_outcome result steps (tr_metrics result) Fail, Some error)
        end
      else ret (with_outcome result steps (tr_metrics result) Pass, None)
  end.

(** [runTest] up to the first statement of its [finally] block: the
    result, its duration set, and the error the [catch] block caught. *)
Definition produce (test : Test) : M (TestResult * option exn) :=
  startTime <- now ;;
  id <- uuid ;;
  timestamp <- now ;;
  body <- run_body test (initial_result id (test_id test) timestamp) ;;
  finished <- now ;;
  ret (with_duration (fst body) (finished - startTime), snd body).

Definition runTest (test : Test) : M TestResult :=
  produced <- produce test ;;
  let result := fst produced in
  modify_system (updateAnalytics result) ;;
  ret result.

Definition processQueue : M unit :=
  sys <- get_system ;;
  match processQueue_head sys with
  | None => ret tt
  | Some (nextTest, sys') =>
      modify_system (fun _ => sys') ;;
      saveState ;;
      runTest nextTest ;;
      ret tt
  end.

Definition queueTest (test : Test) : M unit :=
  modify_system (queueTest_push test) ;;
  saveState ;;
  processQueue.

Definition initialize : M unit :=
  automation_initialize Chromium ;;
  visual_initialize ;;
  loadState.

End Source.

(** ** The compiled copies *)

Module Compiled.

(** *** the compiled automation service *)

Definition perform (step : AutomationStep) : M unit :=
  match step_action step with
  | Click =>
      if blank (step_target step)
      then throw (JsError "Target required for click action")
      else pw (PageClick (text_of (step_target step)))
  | TypeText =>
      if blank (step_target step) || blank (step_value step)
      then throw (JsError "Target and value required for type action")
      else pw (PageFill (text_of (step_target step)) (text_of (step_value step)))
  | Hover =>
      if blank (step_target step)
      then throw (JsError "Target required for hover action")
      else pw (PageHover (text_of (step_target step)))
  | Scroll =>
      if blank (step_target step)
      then throw (JsError "Target required for scroll action")
      else pw (ScrollIntoView (text_of (step_target step)))
  | Wait =>
      let timeout :=
        match step_timeout step with
        | Some ms => if num_falsy ms then 1000%float else ms
        | None => 1000%float
        end in
      pw (WaitForTimeout timeout)
  end.

Definition executeStep (step : AutomationStep) : M StepResult :=
  b <- get_browser ;;
  match b with
  | None => throw (JsError "Browser not initialized")
  | Some _ =>
      startTime <- now ;;
      r <- attempt (pw NewContext ;; pw NewPage ;; perform step ;; pw ContextClose) ;;
      finished <- now ;;
      match r with
      | inr _ =>
          ret (mkStepResult StepPass (action_name (step_action step))
                            (finished - startTime) None)
      | inl error =>
          ret (mkStepResult StepFail (action_name (step_action step))
                            (finished - startTime) (Some (exn_message error)))
      end
  end.

Definition captureScreenshot (url : string) (selector : option string) : M string :=
  b <- get_browser ;;
  match b with
  | None => throw (JsError "Browser not initialized")
  | Some _ =>
      pw NewContext ;;
      pw NewPage ;;
      pw (Goto url) ;;
      (if blank selector then ret tt else pw (WaitForSelector (text_of selector))) ;;
      screenshot <- pw_value (TakeScreenshot (if blank selector then None else selector))
                             pw_string ;;
      pw ContextClose ;;
      ret screenshot
  end.

Definition collectMetrics (url : string) : M PerformanceMetrics :=
  b <- get_browser ;;
  match b with
  | None => throw (JsError "Browser not initialized")
  | Some _ =>
      pw NewContext ;;
      pw NewPage ;;
      pw NewCDPSession ;;
      pw (CDPSend "Performance.enable") ;;
      pw (Goto url) ;;
      fcpMetric <- pw_value (CDPSend "Performance.getMetrics") pw_fcp ;;
      lcpMetric <- pw_value EvaluateLCP pw_number ;;
      clsMetric <- pw_value EvaluateCLS pw_number ;;
      events <- observe pw_events ;;
      let fcp :=
        match fcpMetric with
        | Some v => if num_falsy v then 0%float else v
        | None => 0%float
        end in
      pw ContextClose ;;
      ret (mkMetrics fcp lcpMetric clsMetric
                     (seen_errors events) (seen_warnings events)
                     (seen_requests events) (seen_failures events)
                     0%float 0%float 0%float)
  end.

(** *** the compiled orchestrator *)

Definition empty_analysis : VisualAnalysisResult :=
  mkAnalysis [] [] 0%float 0%float 0%float.

Definition initial_result (id testId : string) (timestamp : Z) : TestResult :=
  mkResult id testId timestamp 0 RunningStatus empty_analysis [] zero_metrics.

(** What the loop of [runTest] has written into [result] so far. *)
Record Progress := mkProgress {
  done_steps : list StepResult;
  last_analysis : VisualAnalysisResult
}.

(** The [for] loop of [runTest]: the progress made and, when the loop was
    left by an exception, the error. *)
Fixpoint run_steps (test : Test) (steps : list AutomationStep) (p : Progress)
  : M (Progress * option exn) :=
  match steps with
  | [] => ret (p, None)
  | step :: rest =>
      r <- attempt (executeStep step) ;;
      match r with
      | inl error => ret (p, Some error)
      | inr stepResult =>
          let p1 := mkProgress (done_steps p ++ [stepResult]) (last_analysis p) in
          match sr_status stepResult with
          | StepFail =>
              ret (p1, Some (JsError ("Step failed: "
                                      ++ match sr_error stepResult with
                                         | Some text => text
                                         | None => "undefined"
                                         end)%string))
          | StepPass =>
              if assert_visual test then
                a <- attempt
                       (screenshot <- captureScreenshot "http://example.com"
                                                        (step_target step) ;;
                        screenshotPath <- saveScreenshot screenshot (test_id test) ;;
                        analyzeScreenshot screenshotPath (visual_instructions test)
                                          (expect_layout test) (expect_design test)
                                          (expect_accessibility test)) ;;
                match a with
                | inl error => ret (p1, Some error)
                | inr analysis =>
                    run_steps test rest (mkProgress (done_steps p1) analysis)
                end
              else run_steps test rest p1
          end
      end
  end.

Definition with_outcome (r : TestResult) (p : Progress)
  (metrics : PerformanceMetrics) (status : Status) : TestResult :=
  mkResult (tr_id r) (tr_testId r) (tr_timestamp r) (tr_duration r) status
           (last_analysis p) (done_steps p) metrics.

(** The [try] block of [runTest] with its [catch]. *)
Definition run_body (test : Test) (result : TestResult)
  : M (TestResult * option exn) :=
  looped <- run_steps test (automation_steps test)
                      (mkProgress [] (tr_visualAnalysis result)) ;;
  match looped with
  | (p, Some error) =>
      ret (with_outcome result p (tr_metrics result) Fail, Some error)
  | (p, None) =>
      if assert_performance test then
        m <- attempt (collectMetrics "http://example.com") ;;
        match m with
        | inr metrics => ret (with_outcome result p metrics Pass, None)
        | inl error =>
            ret (with_outcome result p (tr_metrics result) Fail, Some error)
        end
      else ret (with_outcome result p (tr_metrics result) Pass, None)
  end.

(** [running.splice(running.findIndex(t => t.id === id), 1)] when the
    index is not [-1]. *)
Fixpoint remove_by_id (id : string) (l : list Test) : list Test :=
  match l with
  | [] => []
  | t :: rest =>
      if String.eqb (test_id t) id then rest
      else t :: remove_by_id id rest
  end.

Definition status_is_pass (s : Status) : bool :=
  match s with Pass => true | _ => false end.

(** The [finally] block of [runTest] up to its first [await]. *)
Definition runTest_finally (test : Test) (result : TestResult)
  (sys : TestingSystem) : TestingSystem :=
  let c := current sys in
  let sys1 :=
    with_current (mkCurrent (phase c) (current_test c) (screenshots c)
                            (results c ++ [result])) sys in
  let q := queue sys1 in
  let running' := remove_by_id (test_id test) (running q) in
  let sys2 :=
    if status_is_pass (tr_status result)
    then with_queue (mkQueue (pending q) running' (completed q ++ [test]) (failed q)) sys1
    else with_queue (mkQueue (pending q) running' (completed q) (failed q ++ [test])) sys1 in
  let sys3 := updateAnalytics result sys2 in
  let c3 := current sys3 in
  with_current (mkCurrent SetupPhase None (screenshots c3) (results c3)) sys3.

(** [runTest] up to the first statement of its [finally] block: the
    result, its duration set, and the error the [catch] block caught. *)
Definition produce (test : Test) : M (TestResult * option exn) :=
  startTime <- now ;;
  id <- uuid ;;
  body <- run_body test (initial_result id (test_id test) startTime) ;;
  finished <- now ;;
  ret (Source.with_duration (fst body) (finished - startTime), snd body).

(** [runTest], with [next] standing for the [processQueue()] it ends on.
    The compiled method has no [return]: it resolves to [undefined]. *)
Definition runTest_then (next : M unit) (test : Test) : M unit :=
  produced <- produce test ;;
  modify_system (runTest_finally test (fst produced)) ;;
  saveState ;;
  next.

(** [processQueue] and [runTest] call each other; [fuel] bounds the
    number of nested calls of [processQueue]. *)
Fixpoint processQueue_fuel (fuel : nat) : M unit :=
  match fuel with
  | 0 => stop OutOfFuel
  | S fuel' =>
      sys <- get_system ;;
      match processQueue_head sys with
      | None => ret tt
      | Some (nextTest, sys') =>
          modify_system (fun _ => sys') ;;
          saveState ;;
          runTest_then (processQueue_fuel fuel') nextTest
      end
  end.

(** Every nested call takes a test from [pending] and none adds one, so a
    call per pending test and one more is enough. *)
Definition processQueue : M unit :=
  sys <- get_system ;;
  processQueue_fuel (S (List.length (pending (queue sys)))).

Definition runTest (test : Test) : M unit :=
  sys <- get_system ;;
  runTest_then (processQueue_fuel (S (List.length (pending (queue sys))))) test.

Definition queueTest (test : Test) : M unit :=
  modify_system (queueTest_push test) ;;
  saveState ;;
  processQueue.

Definition initialize : M unit :=
  automation_initialize Chromium ;;
  visual_initialize ;;
  loadState.

End Compiled.

(** ** The HTTP intake ([src/index.ts] and its compiled copy) *)

Record Response := mkResponse {
  http_status : Z;
  http_body : json
}.

(** A cast of an untyped value to an interface of [src/types/index.ts]. *)
Definition cast {A} (o : option A) : M A :=
  match o with
  | Some a => ret a
  | None => stop IllTyped
  end.

(** [v.k] where the code has already found [v] truthy. *)
Definition get (k : string) (v : jsval) : jsval :=
  match v with
  | Some j => prop k j
  | None => None
  end.

Module Server.

(** [validateTest(data)] for a [data] that is not [null]. *)
Definition validateTest (data : json) : bool :=
  let name := prop "name" data in
  let description := prop "description" data in
  let url := prop_opt "url" (prop "target" data) in
  let visual := prop "visual" data in
  let instructions := get "instructions" visual in
  let expectations := get "expectations" visual in
  let automation := prop "automation" data in
  let assertions := get "assertions" automation in
  if negb (truthy name) || negb (is_string name) then false
  else if negb (truthy description) || negb (is_string description) then false
  else if negb (truthy url) || negb (is_string url) then false
  else if negb (truthy visual) || negb (is_object visual) then false
  else if negb (truthy instructions) || negb (is_string instructions) then false
  else if negb (truthy expectations) || negb (is_object expectations) then false
  else if negb (isArray (get "layout" expectations)) then false
  else if negb (isArray (get "design" expectations)) then false
  else if negb (isArray (get "accessibility" expectations)) then false
  else if negb (truthy automation) || negb (is_object automation) then false
  else if negb (isArray (get "steps" automation)) then false
  else if negb (truthy assertions) || negb (is_object assertions) then false
  else true.

(** [steps.map((step) => ({ action: step.action, ... }))]: reading a
    property of [null] throws. *)
Fixpoint build_steps (steps : list json) : M (list AutomationStep) :=
  match steps with
  | [] => ret []
  | JNull :: _ => throw (JsError "Cannot read properties of null (reading 'action')")
  | step :: rest =>
      s <- cast (dec_step step) ;;
      r <- build_steps rest ;;
      ret (s :: r)
  end.

(** The object literal [const test: Test = { id: uuidv4(), ... }] of the
    handler, for a body that [validateTest] accepted. *)
Definition build_test (body : json) : M Test :=
  id <- uuid ;;
  let target := prop "target" body in
  let visual := prop "visual" body in
  let expectations := get "expectations" visual in
  let shots := get "screenshots" visual in
  let automation := prop "automation" body in
  let assertions := get "assertions" automation in
  name <- cast (dec_string (prop "name" body)) ;;
  description <- cast (dec_string (prop "description" body)) ;;
  url <- cast (dec_string (get "url" target)) ;;
  baseUrl <- cast (dec_opt dec_string (get "baseUrl" target)) ;;
  instructions <- cast (dec_string (get "instructions" visual)) ;;
  layout <- cast (dec_strings (get "layout" expectations)) ;;
  design <- cast (dec_strings (get "design" expectations)) ;;
  accessibility <- cast (dec_strings (get "accessibility" expectations)) ;;
  baseline <- (if truthy (prop_opt "baseline" shots)
               then cast (dec_string (prop_opt "baseline" shots))
               else ret "") ;;
  tolerance <- (if truthy (prop_opt "tolerance" shots)
                then cast (dec_num (prop_opt "tolerance" shots))
                else ret 0x1.999999999999ap-4%float) ;;
  steps <- match get "steps" automation with
           | Some (JArr items) => build_steps items
           | _ => stop IllTyped
           end ;;
  ret (mkTest id name description url baseUrl instructions layout design
              accessibility baseline tolerance steps
              (truthy (get "visual" assertions))
              (truthy (get "functional" assertions))
              (truthy (get "performance" assertions))).

Definition invalid_format : Response :=
  mkResponse 400
    (JObj [("success", JBool false);
           ("error", JStr "Invalid test data format. Please check the specification.")]).

Definition queued (testId : string) : Response :=
  mkResponse 200 (JObj [("success", JBool true); ("testId", JStr testId)]).

Definition failed_to_queue : Response :=
  mkResponse 500
    (JObj [("success", JBool false); ("error", JStr "Failed to queue test")]).

(** [app.post('/test', ...)] *)
Definition post_test (body : json) : M Response :=
  try_catch
    (match body with
     | JNull => throw (JsError "Cannot read properties of null (reading 'name')")
     | _ =>
         if negb (validateTest body) then ret invalid_format
         else
           test <- build_test body ;;
           Source.queueTest test ;;
           ret (queued (test_id test))
     end)
    (fun error => ret failed_to_queue).

End Server.

Module CompiledServer.

(** [Object.assign({ id: uuid() }, req.body)]: an [id] of the body
    replaces the generated one. *)
Definition assign_id (id : string) (body : json) : json :=
  match body with
  | JObj fields => JObj (fields ++ [("id", JStr id)])
  | _ => JObj [("id", JStr id)]
  end.

(** [app.post('/test', ...)] of the compiled server: no validation. *)
Definition post_test (body : json) : M Response :=
  try_catch
    (id <- uuid ;;
     test <- cast (dec_test (assign_id id body)) ;;
     Compiled.queueTest test ;;
     ret (Server.queued (test_id test)))
    (fun error => ret Server.failed_to_queue).

End CompiledServer.

(** ** The event loop

    Node runs one handler at a time and switches only at an [await].  The
    snapshot is therefore changed in indivisible pieces: the part of
    [queueTest] before its first [await], the part of [processQueue]
    before its first [await], the [finally] block of [runTest] up to its
    first [await], and the first statement of [addScreenshot].  A
    schedule is a sequence of such pieces; every snapshot a [GET /state]
    can see lies between two of them. *)

Inductive Copy := SourceCopy | CompiledCopy.

(** What the [finally] block of [runTest] does to the snapshot. *)
Definition runTest_finally_of (c : Copy) (test : Test) (result : TestResult)
  (sys : TestingSystem) : TestingSystem :=
  match c with
  | SourceCopy => updateAnalytics result sys
  | CompiledCopy => Compiled.runTest_finally test result sys
  end.

Inductive Event :=
| Enqueue (test : Test)
| Dequeue
| Finish (run : nat) (result : TestResult)
| AddShot (screenshot : Screenshot).

(** The snapshot, with three lists the code does not keep: the runs whose
    [finally] block has not been reached, every test handed to
    [queueTest], and every test [processQueue] took from [pending] to
    hand it to [runTest], each in order. *)
Record Sched := mkSched {
  snapshot : TestingSystem;
  inflight : list Test;
  enqueued : list Test;
  started : list Test
}.

Fixpoint drop_nth {A} (n : nat) (l : list A) : list A :=
  match l, n with
  | [], _ => []
  | _ :: rest, 0 => rest
  | a :: rest, S n' => a :: drop_nth n' rest
  end.

(** [None]: the event cannot happen ([Finish] of a run that is not in
    flight). *)
Definition sched_step (c : Copy) (ev : Event) (sc : Sched) : option Sched :=
  match ev with
  | Enqueue test =>
      Some (mkSched (queueTest_push test (snapshot sc)) (inflight sc)
                    (enqueued sc ++ [test]) (started sc))
  | Dequeue =>
      match processQueue_head (snapshot sc) with
      | None => Some sc
      | Some (nextTest, sys') =>
          Some (mkSched sys' (inflight sc ++ [nextTest]) (enqueued sc)
                        (started sc ++ [nextTest]))
      end
  | Finish run result =>
      match nth_error (inflight sc) run with
      | None => None
      | Some test =>
          Some (mkSched (runTest_finally_of c test result (snapshot sc))
                        (drop_nth run (inflight sc)) (enqueued sc) (started sc))
      end
  | AddShot screenshot =>
      Some (mkSched (addScreenshot_push screenshot (snapshot sc)) (inflight sc)
                    (enqueued sc) (started sc))
  end.

Fixpoint sched_run (c : Copy) (evs : list Event) (sc : Sched) : option Sched :=
  match evs with
  | [] => Some sc
  | ev :: rest =>
      match sched_step c ev sc with
      | Some sc' => sched_run c rest sc'
      | None => None
      end
  end.

Definition sched_init : Sched := mkSched createInitialSystem [] [] [].

(** The four queue lists of a snapshot, one after the other. *)
Definition queued_tests (sys : TestingSystem) : list Test :=
  pending (queue sys) ++ running (queue sys)
  ++ completed (queue sys) ++ failed (queue sys).


(** ** Sample inputs *)

(** [new TestOrchestrator(stateFilePath)] in a world [e] with an empty disk. *)
Definition new_TestOrchestrator (e : Env) (stateFilePath : string) : State :=
  mkState e 0 [] createInitialSystem stateFilePath None Chromium "./screenshots".

Fixpoint tally (n : nat) : string :=
  match n with
  | 0 => ""
  | S k => ("i" ++ tally k)%string
  end.

(** A world in which every call resolves; the clock advances by one
    millisecond per observation. *)
Definition quiet_env : Env :=
  mkEnv (fun n => Z.of_nat n)
        (fun n => ("uuid-" ++ tally n)%string)
        (fun _ _ => None)
        (fun _ => "iVBORw0KGgo=")
        (fun _ => 0%float)
        (fun _ => None)
        (fun _ => zero_metrics)
        (fun _ => mkEvents [] [] 0 0)
        (fun _ _ => None)
        (fun _ => ".")
        (fun dir file => (dir ++ "/" ++ file)%string)
        (fun _ => "d41d8cd98f00b204e9800998ecf8427e").

(** The test of the README, with the given identity, steps and toggles. *)
Definition sample_test (id : string) (steps : list AutomationStep)
  (visual performance : bool) : Test :=
  mkTest id "Homepage Test" "Test homepage layout and functionality"
         "http://localhost:3000" None
         "Check layout consistency"
         ["Header should be fixed"; "Navigation should be responsive"]
         ["Brand colors should match style guide"]
         ["Text contrast should meet WCAG standards"]
         "" 0x1.999999999999ap-4%float
         steps visual true performance.

Definition click_login : AutomationStep :=
  mkStep Click (Some "#login-button") None None.

Definition sample_result (testId : string) (status : Status) : TestResult :=
  mkResult "result" testId 0 5 status placeholder_analysis [] zero_metrics.

(** Two tests are queued while nothing runs, the first is taken, fails,
    and the second is taken. *)
Definition two_tests_schedule : list Event :=
  [Enqueue (sample_test "a" [click_login] false false);
   Enqueue (sample_test "b" [] false false);
   Dequeue;
   AddShot (mkScreenshot "s1" "a" "iVBORw0KGgo=" 7 1920%float 1080%float "chromium");
   Finish 0 (sample_result "a" Fail);
   Dequeue].

Definition two_tests_final : Sched :=
  Eval vm_compute in
    match sched_run CompiledCopy two_tests_schedule sched_init with
    | Some sc => sc
    | None => sched_init
    end.

(** An orchestrator on which [initialize] has not launched a browser. *)
Definition fresh : State := new_TestOrchestrator quiet_env "./test-state.json".

(** The same after [BrowserAutomation.initialize] has resolved. *)
Definition launched (s : State) : State := set_browser (Some Chromium) s.

(** No steps, metrics requested. *)
Definition metrics_only_test : Test := sample_test "m" [] false true.

(** A world in which no selector ever shows up. *)
Definition no_selector_env : Env :=
  mkEnv (date_now quiet_env) (uuidv4 quiet_env)
        (fun _ c =>
           match c with
           | WaitForSelector _ => Some (JsError "Timeout 30000ms exceeded.")
           | _ => None
           end)
        (pw_string quiet_env) (pw_number quiet_env) (pw_fcp quiet_env)
        (pw_metrics quiet_env) (pw_events quiet_env) (fs_fault quiet_env)
        (path_dirname quiet_env) (path_join quiet_env) (md5_hex quiet_env).

(** One click, visual analysis requested. *)
Definition visual_click_test : Test := sample_test "v" [click_login] true false.

(** Two tests without steps or toggles, as two [POST /test] would queue
    them. *)
Definition first_test : Test := sample_test "a" [] false false.
Definition second_test : Test := sample_test "b" [] false false.

Definition source_after_two : TestingSystem :=
  Eval vm_compute in
    system (snd ((Source.queueTest first_test ;; Source.queueTest second_test)%async
                   (launched fresh))).

Definition compiled_after_two : TestingSystem :=
  Eval vm_compute in
    system (snd ((Compiled.queueTest first_test ;; Compiled.queueTest second_test)%async
                   (launched fresh))).

Definition source_after_one : TestingSystem :=
  Eval vm_compute in
    system (snd (Source.queueTest first_test (launched fresh))).

Definition compiled_after_one : TestingSystem :=
  Eval vm_compute in
    system (snd (Compiled.queueTest first_test (launched fresh))).

(** The number of results with the status ["pass"]. *)
Definition passes (l : list TestResult) : nat :=
  List.length (filter (fun r => Compiled.status_is_pass (tr_status r)) l).

(** ** The request shape of the specification

    Follows the specification, not the code: the row of [POST /test] in
    its table of external interfaces,
    [{name, description, target:{url, baseUrl?}, visual:{instructions,
    expectations:{layout[],design[],accessibility[]}, screenshots?:
    {baseline, tolerance}}, automation:{steps[], assertions:{visual,
    functional,performance}}}], with the types its data model gives the
    fields: free text is a string, the expectations are lists of strings,
    the tolerance is a number, a step has one of the five actions and
    optional target, value and timeout, the assertions are three boolean
    toggles. *)

Definition spec_text (v : jsval) : bool := is_string v.

Definition spec_number (v : jsval) : bool :=
  match typeof v with TNumber => true | _ => false end.

Definition spec_toggle (v : jsval) : bool :=
  match v with Some (JBool _) => true | _ => false end.

Definition spec_optional (check : jsval -> bool) (v : jsval) : bool :=
  match v with
  | None => true
  | Some _ => check v
  end.

Definition spec_texts (v : jsval) : bool :=
  match v with
  | Some (JArr items) => forallb (fun j => spec_text (Some j)) items
  | _ => false
  end.

Definition spec_step (j : json) : bool :=
  match prop "action" j with
  | Some (JStr a) =>
      match action_of_name a with Some _ => true | None => false end
  | _ => false
  end
  && spec_optional spec_text (prop "target" j)
  && spec_optional spec_text (prop "value" j)
  && spec_optional spec_number (prop "timeout" j).

Definition spec_steps (v : jsval) : bool :=
  match v with
  | Some (JArr items) => forallb spec_step items
  | _ => false
  end.

Definition spec_screenshots (v : jsval) : bool :=
  spec_text (get "baseline" v) && spec_number (get "tolerance" v).

Definition spec_request_shape (body : json) : bool :=
  spec_text (prop "name" body)
  && spec_text (prop "description" body)
  && spec_text (get "url" (prop "target" body))
  && spec_optional spec_text (get "baseUrl" (prop "target" body))
  && spec_text (get "instructions" (prop "visual" body))
  && spec_texts (get "layout" (get "expectations" (prop "visual" body)))
  && spec_texts (get "design" (get "expectations" (prop "visual" body)))
  && spec_texts (get "accessibility" (get "expectations" (prop "visual" body)))
  && spec_optional spec_screenshots (get "screenshots" (prop "visual" body))
  && spec_steps (get "steps" (prop "automation" body))
  && spec_toggle (get "visual" (get "assertions" (prop "automation" body)))
  && spec_toggle (get "functional" (get "assertions" (prop "automation" body)))
  && spec_toggle (get "performance" (get "assertions" (prop "automation" body))).

(** A request body with the given [automation.assertions] ([None]: the
    property is missing). *)
Definition request_body (assertions : jsval) : json :=
  JObj [("name", JStr "Homepage Test");
        ("description", JStr "Test homepage layout and functionality");
        ("target", JObj [("url", JStr "http://localhost:3000")]);
        ("visual", JObj [
           ("instructions", JStr "Check layout consistency");
           ("expectations", JObj [
              ("layout", JArr [JStr "Header should be fixed"]);
              ("design", JArr [JStr "Brand colors should match style guide"]);
              ("accessibility", JArr [JStr "Text contrast should meet WCAG standards"])])]);
        ("automation", JObj ([("steps", JArr [])]
                             ++ enc_opt "assertions" (fun j => j) assertions))].

(** The assertions are there, the three toggles are not. *)
Definition body_without_toggles : json := request_body (Some (JObj [])).

(** [automation.assertions] is missing entirely. *)
Definition body_without_assertions : json := request_body None.

(** ** Snapshots that JSON can carry

    Every double in the snapshot is finite and is not negative zero. *)

Definition opt_ok {A} (ok : A -> bool) (o : option A) : bool :=
  match o with
  | Some a => ok a
  | None => true
  end.

Definition step_ok (s : AutomationStep) : bool := opt_ok num_ok (step_timeout s).

Definition test_ok (t : Test) : bool :=
  num_ok (screenshots_tolerance t) && forallb step_ok (automation_steps t).

Fixpoint json_ok (j : json) : bool :=
  match j with
  | JNum f => num_ok f
  | JArr items => forallb json_ok items
  | JObj fields => forallb (fun kv => json_ok (snd kv)) fields
  | _ => true
  end.

Definition screenshot_ok (s : Screenshot) : bool := json_ok s.

Definition issue_ok (i : VisualIssue) : bool :=
  num_ok (location_x i) && num_ok (location_y i).

Definition metrics_ok (m : PerformanceMetrics) : bool :=
  num_ok (perf_fcp m) && num_ok (perf_lcp m) && num_ok (perf_cls m)
  && num_ok (timing_dns m) && num_ok (timing_tcp m) && num_ok (timing_ttfb m).

Definition analysis_ok (a : VisualAnalysisResult) : bool :=
  forallb issue_ok (va_issues a)
  && num_ok (va_accessibility a) && num_ok (va_designConsistency a)
  && num_ok (va_layoutAccuracy a).

Definition result_ok (r : TestResult) : bool :=
  analysis_ok (tr_visualAnalysis r) && metrics_ok (tr_metrics r).

Definition history_ok (h : TestHistory) : bool :=
  forallb (fun run => result_ok (snd run)) (hist_runs h).

Definition analytics_ok (a : TestAnalytics) : bool :=
  num_ok (passRate a) && num_ok (averageDuration a).

Definition system_ok (sys : TestingSystem) : bool :=
  forallb test_ok (pending (queue sys))
  && forallb test_ok (running (queue sys))
  && forallb test_ok (completed (queue sys))
  && forallb test_ok (failed (queue sys))
  && opt_ok test_ok (current_test (current sys))
  && forallb screenshot_ok (screenshots (current sys))
  && forallb result_ok (results (current sys))
  && forallb history_ok (history_tests sys)
  && analytics_ok (analytics sys).

(** The process is restarted: a new orchestrator over the same disk. *)
Definition restart (s : State) : State :=
  mkState (env s) (ticks s) (disk s) createInitialSystem (stateFilePath s)
          None Chromium (screenshotDir s).

(** [JSON.parse] reads [1e999] as [Infinity]. *)
Definition huge_tolerance_body : json :=
  JObj [("name", JStr "Homepage Test");
        ("description", JStr "Test homepage layout and functionality");
        ("target", JObj [("url", JStr "http://localhost:3000")]);
        ("visual", JObj [
           ("instructions", JStr "Check layout consistency");
           ("expectations", JObj [
              ("layout", JArr []); ("design", JArr []);
              ("accessibility", JArr [])]);
           ("screenshots", JObj [("baseline", JStr "");
                                 ("tolerance", JNum PrimFloat.infinity)])]);
        ("automation", JObj [
           ("steps", JArr []);
           ("assertions", JObj [("visual", JBool false);
                                ("functional", JBool true);
                                ("performance", JBool false)])])].

Definition after_huge_tolerance : State :=
  snd (Server.post_test huge_tolerance_body (launched fresh)).

(** [automation.steps] holds a number where a step is required. *)
Definition body_with_bad_step : json :=
  JObj [("name", JStr "Homepage Test");
        ("description", JStr "Test homepage layout and functionality");
        ("target", JObj [("url", JStr "http://localhost:3000")]);
        ("visual", JObj [
           ("instructions", JStr "Check layout consistency");
           ("expectations", JObj [
              ("layout", JArr []); ("design", JArr []);
              ("accessibility", JArr [])])]);
        ("automation", JObj [
           ("steps", JArr [JInt 42]);
           ("assertions", JObj [("visual", JBool false);
                                ("functional", JBool true);
                                ("performance", JBool false)])])].

(** ** Predicates of the statements *)

(** [quiet m]: whatever [m] does to the disk, the browser and the clock,
    it leaves the in-memory snapshot as it found it, and it completes as
    JavaScript does, by a value or by an exception. *)
Definition quiet {A} (m : M A) : Prop :=
  forall s, system (snd (m s)) = system s
            /\ forall w, fst (m s) <> Abort w.

(** [same_env m]: the outside world [m] leaves is the one it found. *)
Definition same_env {A} (m : M A) : Prop :=
  forall s, env (snd (m s)) = env s.

(** No file-system call ever fails. *)
Definition healthy_disk (e : Env) : Prop :=
  forall n c, fs_fault e n c = None.

Definition passed (r : StepResult) : Prop := sr_status r = StepPass.

(** What a loop over [n] steps can have appended to the step results,
    given how it ended: [n] passes when it ran through; otherwise some
    passes and one failure that carries the text the thrown error
    repeats. *)
Definition steps_shape (new : list StepResult) (thrown : option exn) (n : nat)
  : Prop :=
  match thrown with
  | None => Forall passed new /\ List.length new = n
  | Some e =>
      exists passes last text,
        new = passes ++ [last]
        /\ Forall passed passes
        /\ sr_status last = StepFail
        /\ sr_error last = Some text
        /\ e = JsError ("Step failed: " ++ text)%string
        /\ List.length new <= n
  end.

(** How a run over [n] steps can end.  Without a caught error the status
    is ["pass"] and every step passed.  With one the status is ["fail"],
    and either the last step failed and the error repeats its text, or
    every recorded step passed and the error came from a call outside the
    steps. *)
Definition run_outcome (n : nat) (r : TestResult) (caught : option exn) : Prop :=
  match caught with
  | None => tr_status r = Pass /\ steps_shape (tr_steps r) None n
  | Some e =>
      tr_status r = Fail
      /\ (steps_shape (tr_steps r) (Some e) n
          \/ (Forall passed (tr_steps r) /\ List.length (tr_steps r) <= n))
  end.

(** The same for the loop of the compiled copy, which an error can also
    leave without a failed step: [executeStep] on a browser that was
    never launched, or the screenshot taken after a step. *)
Definition compiled_shape (new : list StepResult) (thrown : option exn) (n : nat)
  : Prop :=
  match thrown with
  | None => steps_shape new None n
  | Some e =>
      steps_shape new (Some e) n
      \/ (Forall passed new /\ List.length new <= n)
  end.

(** What every reachable schedule state satisfies, in either copy. *)
Record sched_inv (c : Copy) (sc : Sched) : Prop := mkInv {
  inv_fifo : started sc ++ pending (queue (snapshot sc)) = enqueued sc;
  inv_single : List.length (inflight sc) <= 1;
  inv_idle : phase (current (snapshot sc)) = SetupPhase -> inflight sc = [];
  inv_running :
    c = CompiledCopy -> running (queue (snapshot sc)) = inflight sc;
  inv_started :
    Permutation (started sc)
                (running (queue (snapshot sc)) ++ completed (queue (snapshot sc))
                 ++ failed (queue (snapshot sc)))
}.

(** What the compiled copy keeps true along every schedule. *)
Record rate_inv (sys : TestingSystem) : Prop := mkRateInv {
  runs_counted :
    totalRuns (analytics sys) = List.length (results (current sys));
  passes_counted :
    List.length (completed (queue sys)) = passes (results (current sys));
  rate_current :
    results (current sys) <> [] ->
    passRate (analytics sys)
    = (num_of_nat (passes (results (current sys)))
       / num_of_nat (List.length (results (current sys))) * 100)%float
}.

(** ** The rest of the automation service *)

(** [BrowserAutomation.cleanup], the same in both copies. *)
Definition automation_cleanup : M unit :=
  b <- get_browser ;;
  match b with
  | Some _ =>
      pw BrowserClose ;;
      fun s => (Ok tt, set_browser None s)
  | None => ret tt
  end.

(** [keeps field m]: [m] leaves the field of [this] as it found it. *)
Definition keeps {A B} (field : State -> B) (m : M A) : Prop :=
  forall s, field (snd (m s)) = field s.

(** ** More sample worlds *)

Definition with_playwright (faults : nat -> PwCall -> option exn) (e : Env) : Env :=
  mkEnv (date_now e) (uuidv4 e) faults (pw_string e) (pw_number e) (pw_fcp e)
        (pw_metrics e) (pw_events e) (fs_fault e) (path_dirname e) (path_join e)
        (md5_hex e).

Definition with_fs_fault (faults : nat -> FsCall -> option exn) (e : Env) : Env :=
  mkEnv (date_now e) (uuidv4 e) (playwright e) (pw_string e) (pw_number e)
        (pw_fcp e) (pw_metrics e) (pw_events e) faults (path_dirname e)
        (path_join e) (md5_hex e).

(** No browser can be launched. *)
Definition no_launch_env : Env :=
  with_playwright
    (fun _ c =>
       match c with
       | Launch _ => Some (JsError "Executable doesn't exist")
       | _ => None
       end)
    quiet_env.

(** Nothing can be written. *)
Definition read_only_env : Env :=
  with_fs_fault
    (fun _ c =>
       match c with
       | WriteFile _ => Some (JsError "EROFS: read-only file system")
       | _ => None
       end)
    quiet_env.

(** An idle orchestrator that holds one pending test. *)
Definition one_pending (e : Env) : State :=
  set_system (queueTest_push first_test createInitialSystem)
             (new_TestOrchestrator e "./test-state.json").

(** The first two navigations are refused. *)
Definition flaky_network_env : Env :=
  with_playwright
    (fun n c =>
       match c with
       | Goto _ => if Nat.ltb n 2 then Some (JsError "net::ERR_CONNECTION_REFUSED")
                   else None
       | _ => None
       end)
    quiet_env.

(** ** Copying the properties of a request body *)

(** The decimal name of an index. *)
Definition index_name (n : nat) : string :=
  NilEmpty.string_of_uint (Nat.to_uint n).

Fixpoint indexed (n : nat) (items : list json) : list (string * json) :=
  match items with
  | [] => []
  | item :: rest => (index_name n, item) :: indexed (S n) rest
  end.

Fixpoint characters (s : string) : list json :=
  match s with
  | EmptyString => []
  | String c rest => JStr (String c EmptyString) :: characters rest
  end.

(** The own enumerable properties of a value, which object spread and
    [Object.assign] copy: those of an object, the indices of an array and
    of a string; [null], a boolean and a number have none. *)
Definition own_properties (v : json) : list (string * json) :=
  match v with
  | JObj fields => fields
  | JArr items => indexed 0 items
  | JStr s => indexed 0 (characters s)
  | JNull | JBool _ | JInt _ | JNum _ => []
  end.

Definition has_key (k : string) (fields : list (string * json)) : bool :=
  match assoc k fields with
  | Some _ => true
  | None => false
  end.

(** [Object.assign(target, source)] and [{ ...target, ...source }] on the
    properties: a property of the target keeps its place and takes the
    value the source has for it, the other properties of the source
    follow.  (JavaScript lists integer-like keys first; that reordering
    is not modelled.) *)
Definition assign (target source : list (string * json))
  : list (string * json) :=
  map (fun kv => (fst kv,
                  match assoc (fst kv) source with
                  | Some v => v
                  | None => snd kv
                  end)) target
  ++ filter (fun kv => negb (has_key (fst kv) target)) source.

(** ** The other routes ([src/index.ts] and its compiled copy) *)

Module Routes.

Definition failed (message : string) : Response :=
  mkResponse 500 (JObj [("success", JBool false); ("error", JStr message)]).

(** [app.get('/state', ...)], the same in both servers: [res.json]
    prints the snapshot as [saveState] does. *)
Definition get_state : M Response :=
  try_catch
    (state <- getSystemState ;;
     ret (mkResponse 200 (enc_system state)))
    (fun error => ret (failed "Failed to get state")).

(** [res.json({ success: true, screenshotId: screenshot.id })] *)
Definition added (screenshotId : jsval) : Response :=
  mkResponse 200 (JObj ([("success", JBool true)]
                        ++ enc_opt "screenshotId" enc_json screenshotId)).

(** [app.post('/screenshot', ...)] of [src/index.ts]:
    [{ id: uuidv4(), ...req.body }]. *)
Definition post_screenshot (body : json) : M Response :=
  try_catch
    (id <- uuid ;;
     let screenshot := JObj (assign [("id", JStr id)] (own_properties body)) in
     addScreenshot screenshot ;;
     ret (added (prop "id" screenshot)))
    (fun error => ret (failed "Failed to add screenshot")).

(** [TestOrchestrator.broadcastMessage], the same in both copies: it
    logs the message. *)
Definition broadcastMessage (message : json) : M unit := ret tt.

(** [app.post('/message', ...)], the same in both servers:
    [{ id: uuidv4(), timestamp: Date.now(), ...req.body }]. *)
Definition post_message (body : json) : M Response :=
  try_catch
    (id <- uuid ;;
     timestamp <- now ;;
     let defaults := [("id", JStr id); ("timestamp", JInt timestamp)] in
     let message :=
       match body with
       | JObj fields => JObj (fields ++ defaults)
       | _ => JObj defaults
       end in
     broadcastMessage message ;;
     ret (mkResponse 200
            (JObj ([("success", JBool true)]
                   ++ enc_opt "messageId" (fun v => v) (prop "id" message)))))
    (fun error => ret (failed "Failed to broadcast message")).

End Routes.

Module CompiledRoutes.

(** [app.post('/screenshot', ...)] of the compiled server:
    [Object.assign(Object.assign({ id }, req.body), { timestamp: Date.now() })]. *)
Definition post_screenshot (body : json) : M Response :=
  try_catch
    (id <- uuid ;;
     timestamp <- now ;;
     let screenshot :=
       JObj (assign (assign [("id", JStr id)] (own_properties body))
                    [("timestamp", JInt timestamp)]) in
     addScreenshot screenshot ;;
     ret (Routes.added (prop "id" screenshot)))
    (fun error => ret (Routes.failed "Failed to add screenshot")).

End CompiledRoutes.


Definition sample_shot : Screenshot :=
  mkScreenshot "shot-1" "a" "iVBORw0KGgo=" 1700000000000 1920%float 1080%float
               "chromium".

(** ** Reading the analytics *)

(** The count the analytics hold for an issue type: that of the first
    entry of the type, the one [find] returns. *)
Fixpoint issue_count (type : string) (l : list (string * nat)) : nat :=
  match l with
  | [] => 0
  | (k, count) :: rest =>
      if String.eqb k type then count else issue_count type rest
  end.

(** How many of the issues carry the description. *)
Definition described (description : string) (issues : list VisualIssue) : nat :=
  List.length
    (filter (fun i => String.eqb (issue_description i) description) issues).

(** [totalDuration / results.length], in double arithmetic. *)
Definition mean_duration (l : list TestResult) : float :=
  (num_of_Z (sum_durations l) / num_of_nat (List.length l))%float.

Definition average_inv (sys : TestingSystem) : Prop :=
  totalRuns (analytics sys) = List.length (results (current sys))
  /\ (results (current sys) <> [] ->
      averageDuration (analytics sys) = mean_duration (results (current sys))).

Definition layout_issue : VisualIssue :=
  mkIssue Major "Header overlaps the navigation" "header" "a_1.png"
          0%float 0%float "Make the header sticky".

Definition contrast_issue : VisualIssue :=
  mkIssue Minor "Low contrast" "p.hint" "a_1.png" 12%float 40%float
          "Darken the text".

(** A result in which two issues were found, one of them twice. *)
Definition result_with_issues : TestResult :=
  mkResult "r" "a" 0 5 Fail
           (mkAnalysis [] [layout_issue; contrast_issue; layout_issue]
                       50%float 50%float 50%float)
           [] zero_metrics.

(** ** The screenshot folder ([VisualAnalysis.cleanup]) *)

(** The folder as [fs.readdir] and [fs.stat] show it: the names of its
    entries, each with its [mtimeMs]. *)
Definition Folder := list (string * float).

Inductive FolderCall :=
| Readdir
| Stat (file : string)
| Unlink (file : string).

(** Which call on the folder fails, and with what, by the number of
    observations made before it. *)
Definition FolderFaults := nat -> FolderCall -> option exn.

Definition folder_call (faults : FolderFaults) (c : FolderCall) : M unit :=
  r <- observe (fun _ n => faults n c) ;;
  match r with
  | None => ret tt
  | Some e => throw e
  end.

Fixpoint mtimeMs (file : string) (folder : Folder) : option float :=
  match folder with
  | [] => None
  | (name, mtime) :: rest =>
      if String.eqb name file then Some mtime else mtimeMs file rest
  end.

Fixpoint unlink (file : string) (folder : Folder) : Folder :=
  match folder with
  | [] => []
  | (name, mtime) :: rest =>
      if String.eqb name file then rest else (name, mtime) :: unlink file rest
  end.

Fixpoint remove_file (p : string) (d : list (string * filedata))
  : list (string * filedata) :=
  match d with
  | [] => []
  | (p', c) :: rest =>
      if String.eqb p p' then remove_file p rest else (p', c) :: remove_file p rest
  end.

(** [now - stats.mtimeMs > 24 * 60 * 60 * 1000] *)
Definition expired (now : Z) (mtime : float) : bool :=
  PrimFloat.ltb 86400000%float (num_of_Z now - mtime)%float.

(** The loop of [cleanup].  It answers the folder as the loop leaves it
    and, when a call rejected, the error with which [cleanup] rejects. *)
Fixpoint cleanup_files (faults : FolderFaults) (now : Z) (files : list string)
  (folder : Folder) : M (Folder * option exn) :=
  match files with
  | [] => ret (folder, None)
  | file :: rest =>
      dir <- this screenshotDir ;;
      filepath <- with_env (fun e => path_join e dir file) ;;
      stats <- attempt (folder_call faults (Stat file)) ;;
      match stats with
      | inl error => ret (folder, Some error)
      | inr _ =>
          match mtimeMs file folder with
          | None =>
              ret (folder, Some (JsError "ENOENT: no such file or directory"))
          | Some mtime =>
              if expired now mtime then
                gone <- attempt (folder_call faults (Unlink file)) ;;
                match gone with
                | inl error => ret (folder, Some error)
                | inr _ =>
                    (fun s => (Ok tt, set_disk (remove_file filepath (disk s)) s)) ;;
                    cleanup_files faults now rest (unlink file folder)
                end
              else cleanup_files faults now rest folder
          end
      end
  end.

(** [VisualAnalysis.cleanup], the same in both copies. *)
Definition visual_cleanup (faults : FolderFaults) (folder : Folder)
  : M (Folder * option exn) :=
  files <- attempt (folder_call faults Readdir) ;;
  match files with
  | inl error => ret (folder, Some error)
  | inr _ =>
      now <- now ;;
      cleanup_files faults now (map fst folder) folder
  end.

(** [TestOrchestrator.cleanup], the same in both copies. *)
Definition cleanup (faults : FolderFaults) (folder : Folder)
  : M (Folder * option exn) :=
  automation_cleanup ;;
  visual_cleanup faults folder.

(** A world whose clock shows a date of 2023. *)
Definition late_env : Env :=
  mkEnv (fun n => (1700000000000 + Z.of_nat n)%Z) (uuidv4 quiet_env)
        (playwright quiet_env) (pw_string quiet_env) (pw_number quiet_env)
        (pw_fcp quiet_env) (pw_metrics quiet_env) (pw_events quiet_env)
        (fs_fault quiet_env) (path_dirname quiet_env) (path_join quiet_env)
        (md5_hex quiet_env).

(** One screenshot of 2020, one a second old. *)
Definition sample_folder : Folder :=
  [("a_0cc175b9c0f1b6a8.png", 1600000000000%float);
   ("b_92eb5ffee6ae2fec.png", 1699999999000%float)].

Definition no_faults : FolderFaults := fun _ _ => None.

(** ** What the source keeps true along every schedule *)

(** Nothing was ever finished, and either nothing was started, or one
    test was and the phase says so. *)
Definition one_shot (sc : Sched) : Prop :=
  completed (queue (snapshot sc)) = []
  /\ failed (queue (snapshot sc)) = []
  /\ results (current (snapshot sc)) = []
  /\ ((phase (current (snapshot sc)) = SetupPhase
       /\ started sc = [] /\ running (queue (snapshot sc)) = [])
      \/ (phase (current (snapshot sc)) = RunningPhase
          /\ List.length (started sc) = 1
          /\ running (queue (snapshot sc)) = started sc
          /\ option_map (fun t => [t]) (current_test (current (snapshot sc)))
             = Some (started sc))).

(** Three tests are queued, the first is taken and its run ends, and
    [processQueue] is called again. *)
Definition three_tests_schedule : list Event :=
  [Enqueue first_test; Dequeue; Enqueue second_test;
   Enqueue (sample_test "c" [] false false);
   Finish 0 (sample_result "a" Pass); Dequeue; Dequeue].

(** ** Time *)

(** [advances m]: [m] never takes an observation back. *)
Definition advances {A} (m : M A) : Prop :=
  forall s, ticks s <= ticks (snd (m s)).

(** The clock of the world never goes back. *)
Definition monotone_clock (e : Env) : Prop :=
  forall n m, n <= m -> (date_now e n <= date_now e m)%Z.

(** The durations of the steps, added up. *)
Definition step_time (l : list StepResult) : Z :=
  fold_right (fun sr total => (sr_duration sr + total)%Z) 0%Z l.

Definition wait_step : AutomationStep := mkStep Wait None None (Some 250%float).

(** ** The state file *)

(** The state file holds the snapshot that is in memory. *)
Definition file_current (s : State) : Prop :=
  lookup_file (stateFilePath s) (disk s)
  = Some (FJson (enc_system (system s))).

(** ** Worlds and tests for the error paths *)

(** A world in which the page never shows the element: waiting for a
    selector and clicking both time out. *)
Definition unresponsive_page_env : Env :=
  with_playwright
    (fun _ c =>
       match c with
       | WaitForSelector _ | PageClick _ =>
           Some (JsError "Timeout 30000ms exceeded.")
       | _ => None
       end)
    quiet_env.

(** A wait, then a click. *)
Definition wait_then_click : Test :=
  sample_test "w" [wait_step; click_login] false false.

(** A launched orchestrator in that world. *)
Definition unresponsive : State :=
  launched (new_TestOrchestrator unresponsive_page_env "./test-state.json").

(** The names of the actions of the steps, in order. *)
Definition step_actions (steps : list AutomationStep) : list string :=
  map (fun step => action_name (step_action step)) steps.

(** The step results name the actions of the first steps of the test, in
    order: one result for each step that the loop reached. *)
Definition records_a_prefix (t : Test) (r : TestResult) : Prop :=
  map sr_action (tr_steps r)
  = step_actions (firstn (List.length (tr_steps r)) (automation_steps t)).

(** A click without a target. *)
Definition aimless_click_test : Test :=
  sample_test "k" [mkStep Click None None None] false false.

(** A launched orchestrator, in the unresponsive world, that has run one
    test. *)
Definition after_one_run : State :=
  snd (Compiled.queueTest second_test unresponsive).

(** ** Reading a tree along a path *)

(** [v.k1.k2...], [undefined] as soon as a property is missing. *)
Definition path (keys : list string) (v : jsval) : jsval :=
  fold_left (fun value key => get key value) keys v.

(** An orchestrator with some history: a test with a click and visual
    analysis has run, a screenshot was added, and a test whose metrics
    were collected has run. *)
Definition seasoned : State :=
  snd ((Compiled.queueTest visual_click_test ;;
        addScreenshot sample_shot ;;
        Compiled.queueTest metrics_only_test)%async (launched fresh)).

(** ** Calls in a row *)

(** The tests are handed to [queueTest] one after the other, each call
    awaited. *)
Fixpoint enqueue_all (queueTest : Test -> M unit) (tests : list Test) : M unit :=
  match tests with
  | [] => ret tt
  | test :: rest => queueTest test ;; enqueue_all queueTest rest
  end.

(** The snapshot in which [processQueue] has taken the head of
    [pending]. *)
Definition taken (t : Test) (rest : list Test) (sys : TestingSystem)
  : TestingSystem :=
  mkSystem (mkQueue rest (running (queue sys) ++ [t])
                    (completed (queue sys)) (failed (queue sys)))
           (config sys)
           (mkCurrent RunningPhase (Some t) (screenshots (current sys))
                      (results (current sys)))
           (history_tests sys) (analytics sys).


(** Three tests with steps. *)
Definition three_tests : list Test :=
  [sample_test "a" [click_login] false false;
   sample_test "b" [wait_step] false false;
   sample_test "c" [] false true].




(** * Properties *)

(** ** Which methods leave the snapshot alone *)

Lemma quiet_ret {A} (a : A) : quiet (ret a).
Proof. intro s. split; [reflexivity | discriminate]. Qed.

Lemma quiet_throw {A} (e : exn) : quiet (@throw A e).
Proof. intro s. split; [reflexivity | discriminate]. Qed.

Lemma quiet_bind {A B} (m : M A) (k : A -> M B) :
  quiet m -> (forall a, quiet (k a)) -> quiet (bind m k).
Proof.
  intros Hm Hk s. unfold bind. destruct (Hm s) as [Hsys Hab].
  destruct (m s) as [[a | e | w] s1]; simpl in *.
  - destruct (Hk a s1) as [Hsys' Hab']. rewrite Hsys'. auto.
  - split; [assumption | discriminate].
  - exfalso. apply (Hab w). reflexivity.
Qed.

Lemma quiet_try_catch {A} (m : M A) (h : exn -> M A) :
  quiet m -> (forall e, quiet (h e)) -> quiet (try_catch m h).
Proof.
  intros Hm Hh s. unfold try_catch. destruct (Hm s) as [Hsys Hab].
  destruct (m s) as [[a | e | w] s1]; simpl in *.
  - split; [assumption | discriminate].
  - destruct (Hh e s1) as [Hsys' Hab']. rewrite Hsys'. auto.
  - exfalso. apply (Hab w). reflexivity.
Qed.

Lemma quiet_try_finally {A} (m : M A) (f : M unit) :
  quiet m -> quiet f -> quiet (try_finally m f).
Proof.
  intros Hm Hf s. unfold try_finally. destruct (Hm s) as [Hsys Hab].
  destruct (m s) as [[a | e | w] s1]; simpl in *;
    try (exfalso; apply (Hab w); reflexivity);
    destruct (Hf s1) as [Hsys' Hab'];
    destruct (f s1) as [[u | e' | w'] s2]; simpl in *;
    try (exfalso; apply (Hab' w'); reflexivity);
    (split; [congruence | discriminate]).
Qed.

Lemma quiet_attempt {A} (m : M A) : quiet m -> quiet (attempt m).
Proof.
  intros Hm s. unfold attempt. destruct (Hm s) as [Hsys Hab].
  destruct (m s) as [[a | e | w] s1]; simpl in *;
    try (split; [assumption | discriminate]).
  exfalso. apply (Hab w). reflexivity.
Qed.

Lemma quiet_observe {A} (read : Env -> nat -> A) : quiet (observe read).
Proof. intro s. split; [reflexivity | discriminate]. Qed.

Lemma quiet_with_env {A} (f : Env -> A) : quiet (with_env f).
Proof. intro s. split; [reflexivity | discriminate]. Qed.

Lemma quiet_this {A} (field : State -> A) : quiet (this field).
Proof. intro s. split; [reflexivity | discriminate]. Qed.

Lemma quiet_pw (c : PwCall) : quiet (pw c).
Proof.
  unfold pw. apply quiet_bind; [apply quiet_observe |].
  intros [e |]; [apply quiet_throw | apply quiet_ret].
Qed.

Lemma quiet_pw_value {A} (c : PwCall) (read : Env -> nat -> A) :
  quiet (pw_value c read).
Proof.
  intro s. unfold pw_value.
  destruct (playwright (env s) (ticks s) c);
    (split; [reflexivity | discriminate]).
Qed.

Lemma quiet_fs_call (c : FsCall) : quiet (fs_call c).
Proof.
  unfold fs_call. apply quiet_bind; [apply quiet_observe |].
  intros [e |]; [apply quiet_throw | apply quiet_ret].
Qed.

Lemma quiet_fs_writeFile (path : string) (data : filedata) :
  quiet (fs_writeFile path data).
Proof.
  unfold fs_writeFile. apply quiet_bind; [apply quiet_fs_call |].
  intros _ s. split; [reflexivity | discriminate].
Qed.

Lemma quiet_fs_readFile (path : string) : quiet (fs_readFile path).
Proof.
  unfold fs_readFile. apply quiet_bind; [apply quiet_fs_call |].
  intros _ s. destruct (lookup_file path (disk s));
    (split; [reflexivity | discriminate]).
Qed.

Lemma quiet_now : quiet now.
Proof. apply quiet_observe. Qed.

Lemma quiet_uuid : quiet uuid.
Proof. apply quiet_observe. Qed.

Create HintDb quiet.

#[local] Hint Resolve quiet_ret quiet_throw quiet_observe quiet_with_env
  quiet_this quiet_pw quiet_pw_value quiet_fs_call quiet_fs_writeFile
  quiet_fs_readFile quiet_now quiet_uuid : quiet.

(** Splits a goal [quiet m] along the shape of [m]. *)
Ltac quiet_step :=
  match goal with
  | |- quiet (bind _ _) => apply quiet_bind; [| intro]
  | |- quiet (try_catch _ _) => apply quiet_try_catch; [| intro]
  | |- quiet (try_finally _ _) => apply quiet_try_finally
  | |- quiet (attempt _) => apply quiet_attempt
  | |- quiet (if ?b then _ else _) => destruct b
  | |- quiet (match ?x with _ => _ end) => destruct x
  | |- quiet _ => solve [unfold get_system, get_browser; auto with quiet]
  end.

Ltac quiet_auto := repeat quiet_step.

Lemma quiet_saveState : quiet saveState.
Proof. unfold saveState, fs_mkdir. quiet_auto. Qed.

Lemma quiet_automation_initialize (b : BrowserType) :
  quiet (automation_initialize b).
Proof.
  unfold automation_initialize.
  apply quiet_bind; [intro s; split; [reflexivity | discriminate] | intros _].
  apply quiet_bind; [apply quiet_pw | intros _].
  intro s. split; [reflexivity | discriminate].
Qed.

#[local] Hint Resolve quiet_saveState quiet_automation_initialize : quiet.

(** A quiet method run under [attempt] always hands back a completion. *)
Lemma attempt_quiet {A} (m : M A) (s : State) :
  quiet m ->
  exists r s', attempt m s = (Ok r, s') /\ system s' = system s
               /\ match r with
                  | inr a => m s = (Ok a, s')
                  | inl e => m s = (Throw e, s')
                  end.
Proof.
  intro Hm. unfold attempt. destruct (Hm s) as [Hsys Hab].
  destruct (m s) as [[a | e | w] s1]; simpl in *.
  - exists (inr a), s1. auto.
  - exists (inl e), s1. auto.
  - exfalso. apply (Hab w). reflexivity.
Qed.

(** ** addScreenshot *)

Lemma addScreenshot_system (screenshot : Screenshot) (s : State) :
  system (snd (addScreenshot screenshot s))
  = addScreenshot_push screenshot (system s).
Proof.
  unfold addScreenshot, bind, modify_system.
  destruct (quiet_saveState
              (set_system (addScreenshot_push screenshot (system s)) s)) as [H _].
  destruct (saveState _) as [[u | e | w] s1]; simpl in *; exact H.
Qed.

(** C10. Frame property of [addScreenshot], in both copies (the method
    reads the same in each): whatever the state and whether or not the
    write to disk succeeds, afterwards [state.current.screenshots] is the
    former list with the screenshot appended, and the four queue lists,
    the phase, the current test, the session results, the history, the
    analytics and the configuration are what they were. *)
Theorem C10_addScreenshot_frame (screenshot : Screenshot) (s : State) :
  let before := system s in
  let after := system (snd (addScreenshot screenshot s)) in
  screenshots (current after) = screenshots (current before) ++ [screenshot]
  /\ pending (queue after) = pending (queue before)
  /\ running (queue after) = running (queue before)
  /\ completed (queue after) = completed (queue before)
  /\ failed (queue after) = failed (queue before)
  /\ phase (current after) = phase (current before)
  /\ current_test (current after) = current_test (current before)
  /\ results (current after) = results (current before)
  /\ history_tests after = history_tests before
  /\ analytics after = analytics before
  /\ config after = config before.
Proof.
  cbv zeta. rewrite addScreenshot_system.
  unfold addScreenshot_push, with_current. simpl.
  repeat split; reflexivity.
Qed.

(** ** The event loop: first in, first out, one at a time *)

Lemma processQueue_head_busy (sys : TestingSystem) :
  phase (current sys) <> SetupPhase -> processQueue_head sys = None.
Proof.
  intro H. unfold processQueue_head.
  destruct (phase (current sys)); simpl; try reflexivity. congruence.
Qed.

Lemma processQueue_head_empty (sys : TestingSystem) :
  pending (queue sys) = [] -> processQueue_head sys = None.
Proof.
  intro H. unfold processQueue_head. rewrite H.
  destruct (negb _); reflexivity.
Qed.

Lemma processQueue_head_takes (sys : TestingSystem) (t : Test) (rest : list Test) :
  phase (current sys) = SetupPhase ->
  pending (queue sys) = t :: rest ->
  processQueue_head sys
  = Some (t, mkSystem
               (mkQueue rest (running (queue sys) ++ [t])
                        (completed (queue sys)) (failed (queue sys)))
               (config sys)
               (mkCurrent RunningPhase (Some t) (screenshots (current sys))
                          (results (current sys)))
               (history_tests sys) (analytics sys)).
Proof.
  intros Hp Hq. unfold processQueue_head. rewrite Hp, Hq. reflexivity.
Qed.

Lemma processQueue_head_inv (sys sys' : TestingSystem) (t : Test) :
  processQueue_head sys = Some (t, sys') ->
  phase (current sys) = SetupPhase
  /\ pending (queue sys) = t :: pending (queue sys')
  /\ running (queue sys') = running (queue sys) ++ [t]
  /\ completed (queue sys') = completed (queue sys)
  /\ failed (queue sys') = failed (queue sys)
  /\ phase (current sys') = RunningPhase
  /\ current_test (current sys') = Some t.
Proof.
  unfold processQueue_head.
  destruct (phase (current sys)) eqn:Hp; simpl; try discriminate.
  destruct (pending (queue sys)) as [| t0 rest] eqn:Hq; try discriminate.
  intro H. injection H as <- <-. simpl. repeat split; reflexivity.
Qed.

Lemma sched_inv_init (c : Copy) : sched_inv c sched_init.
Proof.
  constructor; simpl; auto.
Qed.

Lemma remove_by_id_head (t : Test) (rest : list Test) :
  Compiled.remove_by_id (test_id t) (t :: rest) = rest.
Proof. simpl. rewrite String.eqb_refl. reflexivity. Qed.

Lemma inflight_single (sc : Sched) (run : nat) (t : Test) :
  List.length (inflight sc) <= 1 ->
  nth_error (inflight sc) run = Some t ->
  inflight sc = [t] /\ run = 0.
Proof.
  intros Hlen Hnth.
  destruct (inflight sc) as [| a [| b l]]; simpl in *.
  - destruct run; discriminate.
  - destruct run as [| run]; simpl in *.
    + injection Hnth as ->. auto.
    + destruct run; discriminate.
  - lia.
Qed.

Lemma sched_inv_step (c : Copy) (ev : Event) (sc sc' : Sched) :
  sched_inv c sc -> sched_step c ev sc = Some sc' -> sched_inv c sc'.
Proof.
  intros [Hfifo Hsingle Hidle Hrun Hstart] Hstep.
  destruct ev as [test | | run result | shot]; simpl in Hstep.
  - (* Enqueue *)
    injection Hstep as <-. constructor; simpl; auto.
    rewrite app_assoc, Hfifo. reflexivity.
  - (* Dequeue *)
    destruct (processQueue_head (snapshot sc)) as [[t sys'] |] eqn:Hhead.
    + injection Hstep as <-.
      apply processQueue_head_inv in Hhead
        as (Hp & Hq & Hr & Hc & Hf & Hp' & _).
      specialize (Hidle Hp).
      constructor; simpl.
      * rewrite <- app_assoc. simpl. rewrite <- Hq. exact Hfifo.
      * rewrite Hidle. simpl. lia.
      * rewrite Hp'. discriminate.
      * intro Hc'. rewrite Hr, (Hrun Hc'). reflexivity.
      * rewrite Hr, Hc, Hf.
        rewrite <- app_assoc.
        apply Permutation_trans
          with ((running (queue (snapshot sc)) ++ completed (queue (snapshot sc))
                 ++ failed (queue (snapshot sc))) ++ [t]).
        -- apply Permutation_app_tail. exact Hstart.
        -- rewrite <- app_assoc. apply Permutation_app_head.
           apply Permutation_app_comm.
    + injection Hstep as <-. constructor; assumption.
  - (* Finish *)
    destruct (nth_error (inflight sc) run) as [t |] eqn:Hnth; [| discriminate].
    injection Hstep as <-.
    destruct (inflight_single sc run t Hsingle Hnth) as [Hin ->].
    rewrite Hin. simpl drop_nth.
    destruct c; simpl.
    + (* the source: only the analytics change *)
      constructor; simpl; auto. discriminate.
    + (* the compiled copy *)
      specialize (Hrun eq_refl). rewrite Hin in Hrun.
      unfold Compiled.runTest_finally. simpl. rewrite Hrun.
      rewrite remove_by_id_head.
      rewrite Hrun in Hstart. simpl in Hstart.
      destruct (Compiled.status_is_pass (tr_status result)); simpl;
        constructor; simpl; auto.
      * apply Permutation_trans with (1 := Hstart).
        rewrite <- app_assoc. simpl. apply Permutation_middle.
      * apply Permutation_trans with (1 := Hstart).
        rewrite app_assoc. apply Permutation_cons_append.
  - (* AddShot *)
    injection Hstep as <-. constructor; simpl; auto.
Qed.

Lemma sched_inv_run (c : Copy) (evs : list Event) :
  forall sc sc', sched_inv c sc -> sched_run c evs sc = Some sc' -> sched_inv c sc'.
Proof.
  induction evs as [| ev rest IH]; intros sc sc' Hinv Hrun; simpl in Hrun.
  - injection Hrun as <-. exact Hinv.
  - destruct (sched_step c ev sc) as [sc1 |] eqn:Hstep; [| discriminate].
    apply (IH sc1 sc'); [| exact Hrun].
    apply (sched_inv_step c ev sc); assumption.
Qed.

Lemma processQueue_noop (s : State) :
  processQueue_head (system s) = None ->
  Source.processQueue s = (Ok tt, s) /\ Compiled.processQueue s = (Ok tt, s).
Proof.
  intro H. split.
  - unfold Source.processQueue, bind, get_system, this. rewrite H. reflexivity.
  - unfold Compiled.processQueue, bind, get_system, this. simpl.
    unfold bind, get_system, this. rewrite H. reflexivity.
Qed.

Lemma two_tests_run :
  sched_run CompiledCopy two_tests_schedule sched_init = Some two_tests_final.
Proof. vm_compute. reflexivity. Qed.

(** ** The four queue lists *)





(** ** Running a test: the TypeScript source *)

Lemma bind_ok {A B} (m : M A) (k : A -> M B) (s s' : State) (a : A) :
  m s = (Ok a, s') -> bind m k s = k a s'.
Proof. intro H. unfold bind. rewrite H. reflexivity. Qed.

Lemma bind_now {B} (k : Z -> M B) (s : State) :
  bind now k s = k (date_now (env s) (ticks s)) (set_ticks (S (ticks s)) s).
Proof. reflexivity. Qed.

Lemma bind_uuid {B} (k : string -> M B) (s : State) :
  bind uuid k s = k (uuidv4 (env s) (ticks s)) (set_ticks (S (ticks s)) s).
Proof. reflexivity. Qed.

Lemma quiet_navigate (url : string) (left : nat) :
  forall attempt, quiet (Source.navigate url left attempt).
Proof.
  induction left as [| left IH]; intro n; simpl.
  - apply quiet_ret.
  - apply quiet_try_catch.
    + quiet_auto.
    + intro err. destruct (Nat.eqb n 2); [apply quiet_throw | apply IH].
Qed.

Lemma quiet_type_chars (selector value : string) :
  quiet (Source.type_chars selector value).
Proof.
  induction value as [| char rest IH]; simpl.
  - apply quiet_ret.
  - apply quiet_bind; [apply quiet_pw | intros _; exact IH].
Qed.

#[local] Hint Resolve quiet_navigate quiet_type_chars : quiet.

Lemma quiet_source_perform (step : AutomationStep) : quiet (Source.perform step).
Proof. unfold Source.perform. quiet_auto. Qed.

#[local] Hint Resolve quiet_source_perform : quiet.

Lemma quiet_source_executeStep (step : AutomationStep) (url : string) :
  quiet (Source.executeStep step url).
Proof. unfold Source.executeStep. quiet_auto. Qed.

Lemma quiet_source_collectMetrics (url : string) :
  quiet (Source.collectMetrics url).
Proof. unfold Source.collectMetrics. quiet_auto. Qed.

#[local] Hint Resolve quiet_source_executeStep quiet_source_collectMetrics : quiet.

Lemma steps_shape_cons (r : StepResult) (new : list StepResult)
  (thrown : option exn) (n : nat) :
  passed r -> steps_shape new thrown n -> steps_shape (r :: new) thrown (S n).
Proof.
  intros Hr. destruct thrown as [e |]; simpl.
  - intros (passes & last & text & -> & Hp & Hl & He & Hx & Hlen).
    exists (r :: passes), last, text. repeat split; auto.
    simpl. lia.
  - intros [Hall Hlen]. split; [constructor; assumption | simpl; lia].
Qed.

Lemma source_run_steps_spec (url : string) (steps : list AutomationStep) :
  forall done s,
  exists new thrown s',
    Source.run_steps url steps done s = (Ok (done ++ new, thrown), s')
    /\ system s' = system s
    /\ steps_shape new thrown (List.length steps).
Proof.
  induction steps as [| step rest IH]; intros done s.
  - exists [], None, s. simpl. rewrite app_nil_r.
    repeat split; constructor.
  - simpl Source.run_steps. rewrite bind_now.
    set (s1 := set_ticks (S (ticks s)) s).
    destruct (attempt_quiet (Source.executeStep step url) s1
                (quiet_source_executeStep step url))
      as (r & s2 & Hatt & Hsys & _).
    rewrite (bind_ok _ _ _ _ _ Hatt). rewrite bind_now.
    set (s3 := set_ticks (S (ticks s2)) s2).
    destruct r as [error | u].
    + exists [Source.fail_result step
                (date_now (env s2) (ticks s2) - date_now (env s) (ticks s)) error],
             (Some (JsError ("Step failed: " ++ exn_message error)%string)), s3.
      split; [reflexivity |]. split; [exact Hsys |].
      exists [], (Source.fail_result step
                    (date_now (env s2) (ticks s2) - date_now (env s) (ticks s)) error),
             (exn_message error).
      simpl. repeat split; auto. lia.
    + destruct (IH (done ++ [Source.pass_result step
                       (date_now (env s2) (ticks s2) - date_now (env s) (ticks s))]) s3)
        as (new & thrown & s' & Hrun & Hsys' & Hshape).
      exists (Source.pass_result step
                (date_now (env s2) (ticks s2) - date_now (env s) (ticks s)) :: new),
             thrown, s'.
      split.
      * rewrite Hrun. rewrite <- app_assoc. reflexivity.
      * split; [rewrite Hsys'; exact Hsys |].
        apply steps_shape_cons; [reflexivity | exact Hshape].
Qed.

Lemma failed_not_passed (passes : list StepResult) (last : StepResult) :
  sr_status last = StepFail -> ~ Forall passed (passes ++ [last]).
Proof.
  intros Hfail Hall. apply Forall_app in Hall as [_ Hlast].
  inversion Hlast as [| ? ? Hp _]; subst. unfold passed in Hp. congruence.
Qed.

Lemma run_outcome_status (n : nat) (r : TestResult) (caught : option exn) :
  run_outcome n r caught ->
  (tr_status r = Pass \/ tr_status r = Fail)
  /\ (tr_status r = Pass <-> caught = None)
  /\ (tr_status r = Pass ->
      Forall passed (tr_steps r) /\ List.length (tr_steps r) = n)
  /\ (Exists (fun sr => sr_status sr = StepFail) (tr_steps r) ->
      tr_status r = Fail).
Proof.
  destruct caught as [e |]; simpl.
  - intros [Hst Hshape]. rewrite Hst.
    split; [right; reflexivity |].
    split; [split; discriminate |].
    split; [discriminate | reflexivity].
  - intros [Hst [Hall Hlen]]. rewrite Hst.
    split; [left; reflexivity |].
    split; [split; reflexivity |].
    split; [auto |].
    intro Hex. exfalso. apply Exists_exists in Hex as (sr & Hin & Hfail).
    rewrite Forall_forall in Hall. specialize (Hall sr Hin).
    unfold passed in Hall. congruence.
Qed.

Lemma source_run_body_spec (t : Test) (result : TestResult) (s : State) :
  exists r caught s',
    Source.run_body t result s = (Ok (r, caught), s')
    /\ system s' = system s
    /\ run_outcome (List.length (automation_steps t)) r caught
    /\ (assert_performance t = false ->
        Forall passed (tr_steps r) -> caught = None)
    /\ tr_testId r = tr_testId result.
Proof.
  unfold Source.run_body.
  destruct (source_run_steps_spec (target_url t) (automation_steps t) [] s)
    as (steps & thrown & s1 & Hrun & Hsys & Hshape).
  simpl in Hrun. rewrite (bind_ok _ _ _ _ _ Hrun).
  destruct thrown as [e |].
  - exists (Source.with_outcome result steps (tr_metrics result) Fail), (Some e), s1.
    split; [reflexivity |]. split; [exact Hsys |].
    split; [simpl; auto |]. split; [| reflexivity].
    intros _ Hall. exfalso. simpl in Hall.
    destruct Hshape as (passes & last & text & -> & _ & Hfail & _).
    exact (failed_not_passed passes last Hfail Hall).
  - destruct (assert_performance t) eqn:Hperf.
    + destruct (attempt_quiet (Source.collectMetrics (target_url t)) s1
                  (quiet_source_collectMetrics _))
        as (m & s2 & Hatt & Hsys2 & _).
      rewrite (bind_ok _ _ _ _ _ Hatt).
      destruct Hshape as [Hall Hlen].
      destruct m as [error | metrics].
      * exists (Source.with_outcome result steps (tr_metrics result) Fail),
               (Some error), s2.
        split; [reflexivity |]. split; [congruence |].
        split; [| split; [discriminate | reflexivity]].
        simpl. split; [reflexivity |]. right. split; [exact Hall | lia].
      * exists (Source.with_outcome result steps metrics Pass), None, s2.
        split; [reflexivity |]. split; [congruence |].
        split; [simpl; auto | split; [reflexivity | reflexivity]].
    + exists (Source.with_outcome result steps (tr_metrics result) Pass), None, s1.
      split; [reflexivity |]. split; [exact Hsys |].
      split; [simpl; auto | split; [reflexivity | reflexivity]].
Qed.

Lemma source_produce_spec (t : Test) (s : State) :
  exists r caught s',
    Source.produce t s = (Ok (r, caught), s')
    /\ system s' = system s
    /\ run_outcome (List.length (automation_steps t)) r caught
    /\ (assert_performance t = false ->
        Forall passed (tr_steps r) -> caught = None)
    /\ tr_testId r = test_id t.
Proof.
  unfold Source.produce. rewrite bind_now, bind_uuid, bind_now.
  match goal with
  | |- context [bind (Source.run_body t ?r0) _ ?s0] =>
      destruct (source_run_body_spec t r0 s0)
        as (r & caught & s1 & Hbody & Hsys & Hout & Hperf & Hid);
      rewrite (bind_ok _ _ _ _ _ Hbody)
  end.
  rewrite bind_now. simpl fst. simpl snd.
  eexists _, caught, _. split; [reflexivity |].
  split; [exact Hsys |].
  split; [| split; [exact Hperf | exact Hid]].
  destruct caught; exact Hout.
Qed.

Lemma source_runTest_spec (t : Test) (s : State) :
  exists r caught s',
    Source.produce t s = (Ok (r, caught), s')
    /\ Source.runTest t s
       = (Ok r, set_system (updateAnalytics r (system s)) s')
    /\ system s' = system s.
Proof.
  destruct (source_produce_spec t s) as (r & caught & s' & Hp & Hsys & _).
  exists r, caught, s'. split; [exact Hp |]. split; [| exact Hsys].
  unfold Source.runTest. rewrite (bind_ok _ _ _ _ _ Hp).
  unfold bind, modify_system, ret. simpl. rewrite Hsys. reflexivity.
Qed.

(** ** Running a test: the compiled copy *)

Lemma quiet_compiled_perform (step : AutomationStep) :
  quiet (Compiled.perform step).
Proof. unfold Compiled.perform. quiet_auto. Qed.

#[local] Hint Resolve quiet_compiled_perform : quiet.

Lemma quiet_compiled_executeStep (step : AutomationStep) :
  quiet (Compiled.executeStep step).
Proof. unfold Compiled.executeStep. quiet_auto. Qed.

Lemma quiet_captureScreenshot (url : string) (selector : option string) :
  quiet (Compiled.captureScreenshot url selector).
Proof. unfold Compiled.captureScreenshot. quiet_auto. Qed.

Lemma quiet_saveScreenshot (data testId : string) :
  quiet (saveScreenshot data testId).
Proof. unfold saveScreenshot. quiet_auto. Qed.

Lemma quiet_analyzeScreenshot (shot instructions : string)
  (layout design accessibility : list string) :
  quiet (analyzeScreenshot shot instructions layout design accessibility).
Proof. apply quiet_ret. Qed.

Lemma quiet_compiled_collectMetrics (url : string) :
  quiet (Compiled.collectMetrics url).
Proof. unfold Compiled.collectMetrics. quiet_auto. Qed.

#[local] Hint Resolve quiet_compiled_executeStep quiet_captureScreenshot
  quiet_saveScreenshot quiet_analyzeScreenshot quiet_compiled_collectMetrics
  : quiet.

(** A step result of the compiled [executeStep] that says ["fail"] carries
    the text of the error. *)
Lemma compiled_executeStep_result (step : AutomationStep) (s s' : State)
  (r : StepResult) :
  Compiled.executeStep step s = (Ok r, s') ->
  sr_status r = StepPass
  \/ (sr_status r = StepFail /\ exists text, sr_error r = Some text).
Proof.
  unfold Compiled.executeStep, get_browser.
  unfold bind at 1, this. destruct (browser s); [| discriminate].
  rewrite bind_now.
  match goal with
  | |- context [bind (attempt ?m) _ ?s0] =>
      assert (Hq : quiet m) by quiet_auto;
      destruct (attempt_quiet m s0 Hq) as (o & s1 & Hatt & _ & _);
      rewrite (bind_ok _ _ _ _ _ Hatt)
  end.
  rewrite bind_now. destruct o as [error | u]; intro H; injection H as <- _.
  - right. split; [reflexivity |]. eexists. reflexivity.
  - left. reflexivity.
Qed.

Lemma compiled_shape_cons (r : StepResult) (new : list StepResult)
  (thrown : option exn) (n : nat) :
  passed r -> compiled_shape new thrown n -> compiled_shape (r :: new) thrown (S n).
Proof.
  intro Hr. destruct thrown as [e |]; simpl.
  - intros [H | [Hall Hlen]].
    + left. apply (steps_shape_cons r new (Some e) n Hr H).
    + right. split; [constructor; assumption | simpl; lia].
  - intro H. apply (steps_shape_cons r new None n Hr H).
Qed.

Lemma compiled_run_steps_spec (t : Test) (steps : list AutomationStep) :
  forall p s,
  exists new analysis thrown s',
    Compiled.run_steps t steps p s
    = (Ok (Compiled.mkProgress (Compiled.done_steps p ++ new) analysis, thrown), s')
    /\ system s' = system s
    /\ compiled_shape new thrown (List.length steps).
Proof.
  induction steps as [| step rest IH]; intros p s.
  - exists [], (Compiled.last_analysis p), None, s. simpl. rewrite app_nil_r.
    destruct p. repeat split; constructor.
  - simpl Compiled.run_steps.
    destruct (attempt_quiet (Compiled.executeStep step) s
                (quiet_compiled_executeStep step))
      as (r & s1 & Hatt & Hsys & Hres).
    rewrite (bind_ok _ _ _ _ _ Hatt).
    destruct r as [error | stepResult].
    + (* executeStep itself threw: nothing is recorded *)
      exists [], (Compiled.last_analysis p), (Some error), s1.
      rewrite app_nil_r. destruct p. simpl.
      split; [reflexivity |]. split; [exact Hsys |].
      right. split; [constructor | lia].
    + destruct (compiled_executeStep_result step s s1 stepResult Hres)
        as [Hpass | [Hfail [text Htext]]].
      * rewrite Hpass.
        destruct (assert_visual t).
        -- match goal with
           | |- context [bind (attempt ?m) _ ?s0] =>
               assert (Hq : quiet m) by quiet_auto;
               destruct (attempt_quiet m s0 Hq) as (a & s2 & Hatt2 & Hsys2 & _);
               rewrite (bind_ok _ _ _ _ _ Hatt2)
           end.
           destruct a as [error | analysis].
           ++ exists [stepResult], (Compiled.last_analysis p), (Some error), s2.
              split; [reflexivity |]. split; [congruence |].
              right. split; [repeat constructor; exact Hpass | simpl; lia].
           ++ destruct (IH (Compiled.mkProgress
                              (Compiled.done_steps p ++ [stepResult]) analysis) s2)
                as (new & analysis' & thrown & s' & Hrun & Hsys' & Hshape).
              exists (stepResult :: new), analysis', thrown, s'.
              simpl in Hrun. simpl. rewrite Hrun. rewrite <- app_assoc.
              split; [reflexivity |]. split; [congruence |].
              apply compiled_shape_cons; assumption.
        -- destruct (IH (Compiled.mkProgress
                           (Compiled.done_steps p ++ [stepResult])
                           (Compiled.last_analysis p)) s1)
             as (new & analysis' & thrown & s' & Hrun & Hsys' & Hshape).
           exists (stepResult :: new), analysis', thrown, s'.
           simpl in Hrun. rewrite Hrun. rewrite <- app_assoc.
           split; [reflexivity |]. split; [congruence |].
           apply compiled_shape_cons; assumption.
      * rewrite Hfail, Htext.
        exists [stepResult], (Compiled.last_analysis p),
               (Some (JsError ("Step failed: " ++ text)%string)), s1.
        split; [reflexivity |]. split; [exact Hsys |].
        left. exists [], stepResult, text. simpl.
        repeat split; auto. lia.
Qed.

Lemma compiled_run_body_spec (t : Test) (result : TestResult) (s : State) :
  exists r caught s',
    Compiled.run_body t result s = (Ok (r, caught), s')
    /\ system s' = system s
    /\ run_outcome (List.length (automation_steps t)) r caught
    /\ tr_testId r = tr_testId result.
Proof.
  unfold Compiled.run_body.
  destruct (compiled_run_steps_spec t (automation_steps t)
              (Compiled.mkProgress [] (tr_visualAnalysis result)) s)
    as (steps & analysis & thrown & s1 & Hrun & Hsys & Hshape).
  simpl in Hrun. rewrite (bind_ok _ _ _ _ _ Hrun).
  destruct thrown as [e |].
  - eexists _, (Some e), s1.
    split; [reflexivity |]. split; [exact Hsys |].
    split; [| reflexivity]. simpl. split; [reflexivity | exact Hshape].
  - destruct Hshape as [Hall Hlen].
    destruct (assert_performance t).
    + destruct (attempt_quiet (Compiled.collectMetrics "http://example.com") s1
                  (quiet_compiled_collectMetrics _))
        as (m & s2 & Hatt & Hsys2 & _).
      rewrite (bind_ok _ _ _ _ _ Hatt).
      destruct m as [error | metrics].
      * eexists _, (Some error), s2.
        split; [reflexivity |]. split; [congruence |].
        split; [| reflexivity].
        simpl. split; [reflexivity |]. right. split; [exact Hall | lia].
      * eexists _, None, s2.
        split; [reflexivity |]. split; [congruence |].
        split; [simpl; auto | reflexivity].
    + eexists _, None, s1.
      split; [reflexivity |]. split; [exact Hsys |].
      split; [simpl; auto | reflexivity].
Qed.

Lemma compiled_produce_spec (t : Test) (s : State) :
  exists r caught s',
    Compiled.produce t s = (Ok (r, caught), s')
    /\ system s' = system s
    /\ run_outcome (List.length (automation_steps t)) r caught
    /\ tr_testId r = test_id t.
Proof.
  unfold Compiled.produce. rewrite bind_now, bind_uuid.
  match goal with
  | |- context [bind (Compiled.run_body t ?r0) _ ?s0] =>
      destruct (compiled_run_body_spec t r0 s0)
        as (r & caught & s1 & Hbody & Hsys & Hout & Hid);
      rewrite (bind_ok _ _ _ _ _ Hbody)
  end.
  rewrite bind_now. simpl fst. simpl snd.
  eexists _, caught, _. split; [reflexivity |].
  split; [exact Hsys |]. split; [| exact Hid].
  destruct caught; exact Hout.
Qed.

(** The compiled [finally] block takes nothing from [pending] and adds
    nothing to it. *)
Lemma runTest_finally_pending (t : Test) (r : TestResult) (sys : TestingSystem) :
  pending (queue (Compiled.runTest_finally t r sys)) = pending (queue sys).
Proof.
  unfold Compiled.runTest_finally. simpl.
  destruct (Compiled.status_is_pass (tr_status r)); reflexivity.
Qed.



(** ** The status of a result *)

Lemma run_outcome_failed_step (n : nat) (r : TestResult) (caught : option exn)
  (sr : StepResult) :
  run_outcome n r caught ->
  In sr (tr_steps r) -> sr_status sr = StepFail ->
  tr_status r = Fail
  /\ exists text, sr_error sr = Some text
                  /\ caught = Some (JsError ("Step failed: " ++ text)%string).
Proof.
  intros Hout Hin Hfail.
  assert (Hnot : ~ Forall passed (tr_steps r)).
  { intro Hall. rewrite Forall_forall in Hall. specialize (Hall sr Hin).
    unfold passed in Hall. congruence. }
  destruct caught as [e |]; simpl in Hout.
  - destruct Hout as [Hst [Hshape | [Hall _]]]; [| contradiction].
    split; [exact Hst |].
    destruct Hshape as (passes & last & text & Heq & Hp & Hl & He & Hx & _).
    rewrite Heq in Hin. apply in_app_or in Hin as [Hin | [<- | []]].
    + rewrite Forall_forall in Hp. specialize (Hp sr Hin).
      unfold passed in Hp. congruence.
    + exists text. split; [exact He | rewrite Hx; reflexivity].
  - destruct Hout as [_ [Hall _]]. contradiction.
Qed.

(** C1, as amended.  In both copies a run yields a result whose status is
    ["pass"] or ["fail"], and it is ["pass"] exactly when the [catch]
    block of [runTest] caught nothing: every step passed and no call
    outside the steps threw.  So ["pass"] implies that all steps ran and
    passed, and a failed step implies ["fail"]; the converse of the first
    holds in the source when the performance toggle is off. *)
Theorem C1_pass_iff_nothing_caught (t : Test) (s : State) :
  (exists r caught s',
      Source.produce t s = (Ok (r, caught), s')
      /\ Source.runTest t s
         = (Ok r, set_system (updateAnalytics r (system s)) s')
      /\ (tr_status r = Pass \/ tr_status r = Fail)
      /\ (tr_status r = Pass <-> caught = None)
      /\ (tr_status r = Pass ->
          Forall passed (tr_steps r)
          /\ List.length (tr_steps r) = List.length (automation_steps t))
      /\ (Exists (fun sr => sr_status sr = StepFail) (tr_steps r) ->
          tr_status r = Fail)
      /\ (assert_performance t = false ->
          (tr_status r = Pass <-> Forall passed (tr_steps r))))
  /\ (exists r caught s',
         Compiled.produce t s = (Ok (r, caught), s')
         /\ (forall next,
               Compiled.runTest_then next t s
               = bind (modify_system (Compiled.runTest_finally t r))
                      (fun _ => bind saveState (fun _ => next)) s')
         /\ (tr_status r = Pass \/ tr_status r = Fail)
         /\ (tr_status r = Pass <-> caught = None)
         /\ (tr_status r = Pass ->
             Forall passed (tr_steps r)
             /\ List.length (tr_steps r) = List.length (automation_steps t))
         /\ (Exists (fun sr => sr_status sr = StepFail) (tr_steps r) ->
             tr_status r = Fail)).
Proof.
  split.
  - destruct (source_produce_spec t s)
      as (r & caught & s' & Hp & Hsys & Hout & Hperf & _).
    destruct (run_outcome_status _ r caught Hout) as (H1 & H2 & H3 & H4).
    exists r, caught, s'. split; [exact Hp |].
    split.
    { unfold Source.runTest. rewrite (bind_ok _ _ _ _ _ Hp).
      unfold bind, modify_system, ret. simpl. rewrite Hsys. reflexivity. }
    repeat (split; [assumption |]).
    intro Hoff. split.
    + intro Hpass. apply H3. exact Hpass.
    + intro Hall. apply H2. apply Hperf; assumption.
  - destruct (compiled_produce_spec t s)
      as (r & caught & s' & Hp & Hsys & Hout & _).
    destruct (run_outcome_status _ r caught Hout) as (H1 & H2 & H3 & H4).
    exists r, caught, s'. split; [exact Hp |].
    split.
    { intro next. unfold Compiled.runTest_then.
      rewrite (bind_ok _ _ _ _ _ Hp). reflexivity. }
    repeat (split; [assumption |]). assumption.
Qed.

(** C1 as the specification states it fails.  In the source, a test
    without steps whose metrics are requested before any browser was
    launched: no step failed and none threw, yet the status is ["fail"].
    In the compiled copy, a click that passes followed by a screenshot
    whose selector never shows up: the only step result says ["pass"]
    and the status is ["fail"]. *)
Lemma C1_all_steps_pass_yet_fail :
  (exists r s',
      Source.runTest metrics_only_test fresh = (Ok r, s')
      /\ ~ (tr_status r = Pass <-> Forall passed (tr_steps r)))
  /\ (exists r caught s',
         Compiled.produce visual_click_test
           (launched (new_TestOrchestrator no_selector_env "./test-state.json"))
         = (Ok (r, caught), s')
         /\ List.length (tr_steps r) = 1
         /\ ~ (tr_status r = Pass <-> Forall passed (tr_steps r))).
Proof.
  split.
  - eexists _, _. split; [vm_compute; reflexivity |].
    simpl. intros [_ H]. specialize (H (Forall_nil _)). discriminate.
  - eexists _, _, _. split; [vm_compute; reflexivity |].
    split; [reflexivity |].
    simpl. intros [_ H].
    assert (Hall : Forall passed
                     [mkStepResult StepPass "click" 5 None]).
    { repeat constructor. }
    specialize (H Hall). discriminate.
Qed.

(** ** Thrown errors *)

Lemma source_step_throw (url : string) (step : AutomationStep)
  (rest : list AutomationStep) (done : list StepResult) (s s1 : State) (e : exn) :
  Source.executeStep step url (set_ticks (S (ticks s)) s) = (Throw e, s1) ->
  Source.run_steps url (step :: rest) done s
  = (Ok (done ++ [Source.fail_result step
                    (date_now (env s1) (ticks s1) - date_now (env s) (ticks s)) e],
         Some (JsError ("Step failed: " ++ exn_message e)%string)),
     set_ticks (S (ticks s1)) s1).
Proof.
  intro H. simpl Source.run_steps. rewrite bind_now.
  unfold bind at 1, attempt. rewrite H. rewrite bind_now. reflexivity.
Qed.

Lemma source_metrics_throw (t : Test) (result : TestResult)
  (steps : list StepResult) (s s1 s2 : State) (e : exn) :
  Source.run_steps (target_url t) (automation_steps t) [] s
  = (Ok (steps, None), s1) ->
  assert_performance t = true ->
  Source.collectMetrics (target_url t) s1 = (Throw e, s2) ->
  Source.run_body t result s
  = (Ok (Source.with_outcome result steps (tr_metrics result) Fail, Some e), s2).
Proof.
  intros Hsteps Hperf Hm. unfold Source.run_body.
  rewrite (bind_ok _ _ _ _ _ Hsteps), Hperf.
  unfold bind, attempt. rewrite Hm. reflexivity.
Qed.

Lemma source_metrics_uninitialized (url : string) (s : State) :
  browser s = None ->
  Source.collectMetrics url s = (Throw (JsError "Browser not initialized"), s).
Proof.
  intro H. unfold Source.collectMetrics, bind, get_browser, this.
  rewrite H. reflexivity.
Qed.

Lemma compiled_step_throw (step : AutomationStep) (s s1 : State) (b : BrowserType)
  (e : exn) :
  browser s = Some b ->
  (pw NewContext ;; pw NewPage ;; Compiled.perform step ;; pw ContextClose)%async
    (set_ticks (S (ticks s)) s) = (Throw e, s1) ->
  Compiled.executeStep step s
  = (Ok (mkStepResult StepFail (action_name (step_action step))
                      (date_now (env s1) (ticks s1) - date_now (env s) (ticks s))
                      (Some (exn_message e))),
     set_ticks (S (ticks s1)) s1).
Proof.
  intros Hb H. unfold Compiled.executeStep.
  unfold bind at 1, get_browser, this. rewrite Hb. rewrite bind_now.
  unfold bind at 1, attempt. rewrite H. rewrite bind_now. reflexivity.
Qed.

(** ** The [finally] block *)

(** In the source, [runTest] changes nothing in the snapshot but the
    analytics. *)
Lemma source_runTest_frame (t : Test) (s : State) :
  exists r s',
    Source.runTest t s = (Ok r, s')
    /\ system s' = updateAnalytics r (system s)
    /\ queue (system s') = queue (system s)
    /\ current (system s') = current (system s)
    /\ history_tests (system s') = history_tests (system s)
    /\ config (system s') = config (system s).
Proof.
  destruct (source_runTest_spec t s) as (r & caught & s' & _ & Hrun & Hsys).
  eexists r, _. split; [exact Hrun |]. simpl. repeat split.
Qed.

(** C2 on the source: after two [queueTest] in a row, each awaited, on an
    orchestrator whose browser is launched, the first test is still in
    [running], the phase is still ["running"] with that test current, no
    result was appended, no test reached [completed] or [failed], and the
    second test is still pending: the [finally] block of the source only
    sets the duration and updates the analytics.  The compiled copy, on
    the same calls, leaves both tests in [completed], two results, the
    phase ["setup"] and no current test. *)
Theorem C2_source_run_stays_running :
  Source.queueTest first_test (launched fresh)
  = (Ok tt, snd (Source.queueTest first_test (launched fresh)))
  /\ map test_id (pending (queue source_after_two)) = ["b"]
  /\ map test_id (running (queue source_after_two)) = ["a"]
  /\ completed (queue source_after_two) = []
  /\ failed (queue source_after_two) = []
  /\ phase (current source_after_two) = RunningPhase
  /\ option_map test_id (current_test (current source_after_two)) = Some "a"
  /\ results (current source_after_two) = []
  /\ totalRuns (analytics source_after_two) = 1
  /\ pending (queue compiled_after_two) = []
  /\ running (queue compiled_after_two) = []
  /\ map test_id (completed (queue compiled_after_two)) = ["a"; "b"]
  /\ phase (current compiled_after_two) = SetupPhase
  /\ current_test (current compiled_after_two) = None
  /\ map tr_testId (results (current compiled_after_two)) = ["a"; "b"]
  /\ totalRuns (analytics compiled_after_two) = 2.
Proof.
  split; [vm_compute; reflexivity |].
  repeat split.
Qed.

(** The compiled [runTest] is its [finally] block, the save and the
    continuation, after the result was produced. *)
Lemma compiled_runTest_then_spec (t : Test) (s : State) :
  exists r caught s',
    Compiled.produce t s = (Ok (r, caught), s')
    /\ system s' = system s
    /\ (forall next,
          Compiled.runTest_then next t s
          = bind saveState (fun _ => next)
                 (set_system (Compiled.runTest_finally t r (system s)) s')).
Proof.
  destruct (compiled_produce_spec t s) as (r & caught & s' & Hp & Hsys & _).
  exists r, caught, s'. split; [exact Hp |]. split; [exact Hsys |].
  intro next. unfold Compiled.runTest_then.
  rewrite (bind_ok _ _ _ _ _ Hp). unfold bind at 1, modify_system.
  simpl. rewrite Hsys. reflexivity.
Qed.

(** C2 on the compiled copy.  For every test, state and continuation:
    the result is appended to the session results; the test leaves
    [running] and joins [completed] or [failed] by the status; the
    analytics are updated on that snapshot; the phase is ["setup"] and no
    test is current; then the snapshot is saved and the continuation,
    [processQueue], runs. *)
Theorem compiled_run_ends_with_finally (t : Test) (s : State) :
  exists r caught s',
    Compiled.produce t s = (Ok (r, caught), s')
    /\ (forall next,
          Compiled.runTest_then next t s
          = bind saveState (fun _ => next)
                 (set_system (Compiled.runTest_finally t r (system s)) s'))
    /\ let after := Compiled.runTest_finally t r (system s) in
       results (current after) = results (current (system s)) ++ [r]
       /\ running (queue after)
          = Compiled.remove_by_id (test_id t) (running (queue (system s)))
       /\ (tr_status r = Pass ->
           completed (queue after) = completed (queue (system s)) ++ [t]
           /\ failed (queue after) = failed (queue (system s)))
       /\ (tr_status r <> Pass ->
           failed (queue after) = failed (queue (system s)) ++ [t]
           /\ completed (queue after) = completed (queue (system s)))
       /\ totalRuns (analytics after) = S (totalRuns (analytics (system s)))
       /\ passRate (analytics after)
          = (num_of_nat (List.length (completed (queue after)))
             / num_of_nat (totalRuns (analytics after)) * 100)%float
       /\ phase (current after) = SetupPhase
       /\ current_test (current after) = None
       /\ pending (queue after) = pending (queue (system s))
       /\ screenshots (current after) = screenshots (current (system s)).
Proof.
  destruct (compiled_runTest_then_spec t s) as (r & caught & s' & Hp & _ & Hthen).
  exists r, caught, s'. split; [exact Hp |]. split; [exact Hthen |].
  cbv zeta. unfold Compiled.runTest_finally.
  destruct (tr_status r); simpl; repeat split; try congruence;
    intros H; try discriminate H; try (exfalso; apply H; reflexivity).
Qed.

(** ** The pass rate *)

(** In both copies [updateAnalytics] counts one more run and sets the
    pass rate to the length of [completed], divided by the new number of
    runs, times one hundred, in double arithmetic. *)
Lemma updateAnalytics_passRate (result : TestResult) (sys : TestingSystem) :
  totalRuns (analytics (updateAnalytics result sys))
  = S (totalRuns (analytics sys))
  /\ passRate (analytics (updateAnalytics result sys))
     = (num_of_nat (List.length (completed (queue sys)))
        / num_of_nat (totalRuns (analytics (updateAnalytics result sys)))
        * 100)%float
  /\ queue (updateAnalytics result sys) = queue sys
  /\ current (updateAnalytics result sys) = current sys.
Proof. repeat split. Qed.

(** C6 on the source: one test is queued on an orchestrator whose
    browser is launched; it has no steps and its run ends with the status
    ["pass"].  Afterwards one run is counted, [completed] is empty and the
    pass rate is 0, where one pass out of one run asks for 100: the
    source never moves a test to [completed].  The compiled copy, on the
    same call, has the test in [completed] and the pass rate 100. *)
Theorem C6_source_pass_rate_stays_zero :
  (exists r caught s',
      Source.produce first_test (launched fresh) = (Ok (r, caught), s')
      /\ tr_status r = Pass)
  /\ totalRuns (analytics source_after_one) = 1
  /\ completed (queue source_after_one) = []
  /\ passRate (analytics source_after_one) = 0%float
  /\ (num_of_nat 1 / num_of_nat 1 * 100)%float = 100%float
  /\ totalRuns (analytics compiled_after_one) = 1
  /\ map test_id (completed (queue compiled_after_one)) = ["a"]
  /\ passRate (analytics compiled_after_one) = 100%float.
Proof.
  split.
  - eexists _, _, _. split; [vm_compute; reflexivity | reflexivity].
  - repeat split.
Qed.

Lemma passes_app (l : list TestResult) (r : TestResult) :
  passes (l ++ [r])
  = passes l + (if Compiled.status_is_pass (tr_status r) then 1 else 0).
Proof.
  unfold passes. rewrite filter_app, length_app. simpl.
  destruct (Compiled.status_is_pass (tr_status r)); reflexivity.
Qed.

Lemma rate_inv_finally (t : Test) (r : TestResult) (sys : TestingSystem) :
  rate_inv sys -> rate_inv (Compiled.runTest_finally t r sys).
Proof.
  intros [Hruns Hpasses _].
  assert (Hlen : List.length (results (current sys) ++ [r])
                 = S (List.length (results (current sys)))).
  { rewrite length_app. simpl. lia. }
  unfold Compiled.runTest_finally.
  destruct (Compiled.status_is_pass (tr_status r)) eqn:Hst;
    constructor; simpl;
    try (intros _); rewrite ?passes_app, ?Hst, ?length_app, ?Hlen; simpl;
    rewrite ?Hruns, <- ?Hpasses; try lia.
  - replace (List.length (completed (queue sys)) + 1)
      with (S (List.length (completed (queue sys)))) by lia.
    replace (List.length (results (current sys)) + 1)
      with (S (List.length (results (current sys)))) by lia.
    reflexivity.
  - replace (List.length (completed (queue sys)) + 0)
      with (List.length (completed (queue sys))) by lia.
    replace (List.length (results (current sys)) + 1)
      with (S (List.length (results (current sys)))) by lia.
    reflexivity.
Qed.

Lemma rate_inv_step (ev : Event) (sc sc' : Sched) :
  rate_inv (snapshot sc) -> sched_step CompiledCopy ev sc = Some sc' ->
  rate_inv (snapshot sc').
Proof.
  intros Hinv Hstep.
  destruct ev as [test | | run result | shot]; simpl in Hstep.
  - injection Hstep as <-. destruct Hinv. constructor; assumption.
  - destruct (processQueue_head (snapshot sc)) as [[t sys'] |] eqn:Hhead.
    + injection Hstep as <-. simpl.
      unfold processQueue_head in Hhead.
      destruct (negb _); [discriminate |].
      destruct (pending (queue (snapshot sc))); [discriminate |].
      injection Hhead as _ <-. destruct Hinv. constructor; assumption.
    + injection Hstep as <-. exact Hinv.
  - destruct (nth_error (inflight sc) run) as [t |]; [| discriminate].
    injection Hstep as <-. simpl. apply rate_inv_finally. exact Hinv.
  - injection Hstep as <-. destruct Hinv. constructor; assumption.
Qed.

Lemma rate_inv_run (evs : list Event) :
  forall sc sc', rate_inv (snapshot sc) ->
                 sched_run CompiledCopy evs sc = Some sc' ->
                 rate_inv (snapshot sc').
Proof.
  induction evs as [| ev rest IH]; intros sc sc' Hinv Hrun; simpl in Hrun.
  - injection Hrun as <-. exact Hinv.
  - destruct (sched_step CompiledCopy ev sc) as [sc1 |] eqn:Hstep;
      [| discriminate].
    apply (IH sc1 sc'); [| exact Hrun].
    apply (rate_inv_step ev sc); assumption.
Qed.

(** In the compiled copy, along every schedule from the initial
    snapshot: the runs counted are the results recorded, [completed] holds
    as many tests as there are results with the status ["pass"], and once
    a run has ended the pass rate is that number of passes, divided by the
    number of runs, times one hundred. *)
Theorem compiled_pass_rate (evs : list Event) (sc : Sched) :
  sched_run CompiledCopy evs sched_init = Some sc ->
  let runs := results (current (snapshot sc)) in
  totalRuns (analytics (snapshot sc)) = List.length runs
  /\ List.length (completed (queue (snapshot sc))) = passes runs
  /\ (runs <> [] ->
      passRate (analytics (snapshot sc))
      = (num_of_nat (passes runs) / num_of_nat (List.length runs) * 100)%float).
Proof.
  intro Hrun. cbv zeta.
  assert (Hinit : rate_inv (snapshot sched_init)).
  { constructor; simpl; try reflexivity. intro H. exfalso. apply H. reflexivity. }
  destruct (rate_inv_run evs sched_init sc Hinit Hrun) as [H1 H2 H3].
  repeat split; assumption.
Qed.

Lemma compiled_pass_rate_witness :
  totalRuns (analytics (snapshot two_tests_final)) = 1
  /\ passes (results (current (snapshot two_tests_final))) = 0
  /\ passRate (analytics (snapshot two_tests_final)) = 0%float.
Proof.
  destruct (compiled_pass_rate two_tests_schedule two_tests_final two_tests_run)
    as (H1 & H2 & H3).
  split; [exact H1 |]. split; [reflexivity |].
  rewrite H3; [reflexivity | discriminate].
Defined.

(** ** The two copies of [runTest] *)

Lemma compiled_runTest_spec (t : Test) (s : State) :
  pending (queue (system s)) = [] ->
  exists r caught o s',
    Compiled.produce t s = (Ok (r, caught), snd (Compiled.produce t s))
    /\ Compiled.runTest t s = (o, s')
    /\ system s' = Compiled.runTest_finally t r (system s)
    /\ (o = Ok tt \/ exists e, o = Throw e).
Proof.
  intro Hpending.
  destruct (compiled_runTest_then_spec t s)
    as (r & caught & s1 & Hp & Hsys & Hthen).
  exists r, caught.
  unfold Compiled.runTest. unfold bind at 1, get_system, this.
  rewrite Hthen, Hpending. simpl List.length.
  set (s2 := set_system (Compiled.runTest_finally t r (system s)) s1).
  destruct (quiet_saveState s2) as [Hsys2 Hab2].
  unfold bind at 1.
  destruct (saveState s2) as [[u | e | w] s3] eqn:Hsave; simpl in Hsys2, Hab2.
  - exists (Ok tt), s3. rewrite Hp. split; [reflexivity |].
    assert (Hhead : processQueue_head (system s3) = None).
    { apply processQueue_head_empty. rewrite Hsys2.
      rewrite runTest_finally_pending. exact Hpending. }
    split.
    + simpl. unfold bind, get_system, this. rewrite Hhead. reflexivity.
    + split; [exact Hsys2 | left; reflexivity].
  - exists (Throw e), s3. rewrite Hp. split; [reflexivity |].
    split; [reflexivity |]. split; [exact Hsys2 | right; exists e; reflexivity].
  - exfalso. apply (Hab2 w). reflexivity.
Qed.

(** ** The intake of tests *)

Lemma validateTest_needs_assertions (body : json) :
  truthy (get "assertions" (prop "automation" body)) = false ->
  Server.validateTest body = false.
Proof.
  intro H. unfold Server.validateTest. rewrite H. simpl.
  repeat match goal with
         | |- (if ?b then false else _) = false => destruct b; [reflexivity |]
         end.
  reflexivity.
Qed.

(** What [validateTest] asks of a body it accepts. *)
Lemma validateTest_checks (body : json) :
  Server.validateTest body = true ->
  let visual := prop "visual" body in
  let expectations := get "expectations" visual in
  let automation := prop "automation" body in
  (truthy (prop "name" body) && is_string (prop "name" body)
   && truthy (prop "description" body) && is_string (prop "description" body)
   && truthy (prop_opt "url" (prop "target" body))
   && is_string (prop_opt "url" (prop "target" body))
   && truthy visual && is_object visual
   && truthy (get "instructions" visual) && is_string (get "instructions" visual)
   && truthy expectations && is_object expectations
   && isArray (get "layout" expectations)
   && isArray (get "design" expectations)
   && isArray (get "accessibility" expectations)
   && truthy automation && is_object automation
   && isArray (get "steps" automation)
   && truthy (get "assertions" automation)
   && is_object (get "assertions" automation))%bool = true.
Proof.
  unfold Server.validateTest. cbv zeta.
  repeat match goal with
         | |- (if negb ?a || negb ?b then false else _) = true -> _ =>
             destruct a; cbn [negb orb andb]; [| discriminate];
             destruct b; cbn [negb orb andb]; [| discriminate]
         | |- (if negb ?a then false else _) = true -> _ =>
             destruct a; cbn [negb orb andb]; [| discriminate]
         end.
  reflexivity.
Qed.

Lemma post_test_rejects (body : json) (s : State) :
  body <> JNull ->
  Server.validateTest body = false ->
  Server.post_test body s = (Ok Server.invalid_format, s).
Proof.
  intros Hnull Hval. unfold Server.post_test, try_catch.
  destruct body; try congruence; rewrite Hval; reflexivity.
Qed.

(** C7, as amended.  In the TypeScript server a body without
    [automation.assertions], or one that fails any other check of
    [validateTest], is answered with the status 400 and the body
    [{success: false, error: ...}], and nothing else happens: the
    snapshot, the disk and the clock are as before, no test is enqueued.
    (A body that is [null] never reaches the check and is answered with
    500, the state as before.)  The checks are those of
    [validateTest_checks]: non-empty strings for the name, the
    description, the target url and the instructions; objects for
    [visual], its expectations, [automation] and its assertions; arrays
    for the three expectations and for the steps. *)
Theorem C7_invalid_body_rejected (body : json) (s : State) :
  (truthy (get "assertions" (prop "automation" body)) = false ->
   Server.validateTest body = false)
  /\ (body <> JNull -> Server.validateTest body = false ->
      Server.post_test body s = (Ok Server.invalid_format, s)
      /\ http_status Server.invalid_format = 400%Z
      /\ prop "success" (http_body Server.invalid_format) = Some (JBool false)
      /\ is_string (prop "error" (http_body Server.invalid_format)) = true)
  /\ (body = JNull ->
      Server.post_test body s = (Ok Server.failed_to_queue, s)
      /\ http_status Server.failed_to_queue = 500%Z).
Proof.
  split; [apply validateTest_needs_assertions |].
  split.
  - intros Hnull Hval. split; [apply post_test_rejects; assumption |].
    repeat split.
  - intros ->. split; reflexivity.
Qed.

Lemma C7_invalid_body_rejected_witness :
  Server.validateTest body_without_assertions = false
  /\ Server.post_test body_without_assertions (launched fresh)
     = (Ok Server.invalid_format, launched fresh)
  /\ queued_tests (system (launched fresh)) = [].
Proof.
  destruct (C7_invalid_body_rejected body_without_assertions (launched fresh))
    as (Hmissing & Hreject & _).
  assert (Hval : Server.validateTest body_without_assertions = false).
  { apply Hmissing. reflexivity. }
  split; [exact Hval |]. split; [| reflexivity].
  apply Hreject; [discriminate | exact Hval].
Defined.

(** C7 as the specification states it fails.  A body whose steps hold a
    number where a step is required passes [validateTest].  A body whose
    [automation.assertions] is an empty object lacks the three toggles
    the request shape requires, and is accepted: the answer is 200 with a
    test identity and the test is in the queue, its toggles read as
    [false]. *)
Lemma C7_missing_toggles_accepted :
  spec_request_shape body_with_bad_step = false
  /\ Server.validateTest body_with_bad_step = true
  /\ spec_request_shape body_without_toggles = false
  /\ exists s',
       Server.post_test body_without_toggles (launched fresh)
       = (Ok (Server.queued "uuid-"), s')
       /\ http_status (Server.queued "uuid-") = 200%Z
       /\ map test_id (queued_tests (system s')) = ["uuid-"]
       /\ map assert_visual (queued_tests (system s')) = [false]
       /\ map assert_functional (queued_tests (system s')) = [false]
       /\ map assert_performance (queued_tests (system s')) = [false].
Proof.
  split; [reflexivity |]. split; [reflexivity |]. split; [reflexivity |].
  eexists. split; [vm_compute; reflexivity |].
  repeat split.
Qed.

(** The compiled handler has no validation step: for a body that the
    model covers, one that inhabits [Test] once the id is assigned, an
    answer is 200 or 500, never 400. *)
Lemma compiled_post_test_never_400 (body : json) (s s' : State) (r : Response) :
  CompiledServer.post_test body s = (Ok r, s') ->
  http_status r = 200%Z \/ http_status r = 500%Z.
Proof.
  unfold CompiledServer.post_test, try_catch.
  rewrite bind_uuid.
  match goal with
  | |- context [bind (cast ?o) _ ?s0] =>
      unfold bind at 1; destruct o as [t |]; simpl
  end.
  - unfold bind at 1.
    destruct (Compiled.queueTest t _) as [[u | e | w] s1]; simpl;
      unfold ret; intro H; try discriminate H; injection H as <- _; auto.
  - discriminate.
Qed.

(** ** The state store *)

Lemma dec_enc_num (f : float) :
  num_ok f = true -> dec_num (Some (enc_num f)) = Some f.
Proof.
  unfold num_ok, enc_num.
  destruct (PrimFloat.is_nan f || PrimFloat.is_infinity f); simpl;
    [discriminate |].
  destruct (PrimFloat.is_zero f && PrimFloat.get_sign f); simpl;
    [discriminate | reflexivity].
Qed.

#[local] Arguments dec_num : simpl never.
#[local] Arguments enc_num : simpl never.

Lemma dec_enc_nat (n : nat) : dec_nat (Some (JInt (Z.of_nat n))) = Some n.
Proof.
  simpl. destruct (Z.ltb_spec (Z.of_nat n) 0) as [H | H]; [lia |].
  rewrite Nat2Z.id. reflexivity.
Qed.

Lemma traverse_map {A} (d : json -> option A) (e : A -> json) (ok : A -> bool)
  (l : list A) :
  (forall a, ok a = true -> d (e a) = Some a) ->
  forallb ok l = true -> traverse d (map e l) = Some l.
Proof.
  intro H. induction l as [| a l IH]; simpl; intro Hok; [reflexivity |].
  apply andb_prop in Hok as [Ha Hl].
  rewrite (H a Ha). simpl. rewrite (IH Hl). reflexivity.
Qed.

Lemma dec_enc_strings (l : list string) :
  dec_strings (Some (enc_strings l)) = Some l.
Proof.
  unfold dec_strings, enc_strings, dec_list.
  apply (traverse_map _ JStr (fun _ => true)).
  - reflexivity.
  - induction l; simpl; auto.
Qed.

Lemma dec_enc_step (s : AutomationStep) :
  step_ok s = true -> dec_step (enc_step s) = Some s.
Proof.
  destruct s as [a tg vl tm]. unfold step_ok, opt_ok. simpl.
  intro Hok. unfold enc_step, dec_step. simpl.
  assert (Ha : action_of_name (action_name a) = Some a)
    by (destruct a; reflexivity).
  destruct tg as [tg |], vl as [vl |], tm as [tm |]; simpl;
    rewrite Ha; simpl;
    try (rewrite (dec_enc_num tm Hok)); reflexivity.
Qed.

#[local] Arguments dec_step : simpl never.
#[local] Arguments enc_step : simpl never.
#[local] Arguments dec_strings : simpl never.
#[local] Arguments enc_strings : simpl never.
#[local] Arguments traverse : simpl never.

Lemma dec_enc_list {A} (d : json -> option A) (e : A -> json) (ok : A -> bool)
  (l : list A) :
  (forall a, ok a = true -> d (e a) = Some a) ->
  forallb ok l = true -> dec_list d (Some (JArr (map e l))) = Some l.
Proof. intros H Hok. simpl. apply (traverse_map d e ok); assumption. Qed.

#[local] Arguments dec_list : simpl never.

Lemma dec_enc_test (t : Test) :
  test_ok t = true -> dec_test (enc_test t) = Some t.
Proof.
  destruct t as [id name description url baseUrl instructions layout design
                 accessibility baseline tolerance steps av af ap].
  unfold test_ok. simpl. intro Hok. apply andb_prop in Hok as [Htol Hsteps].
  unfold enc_test, dec_test. simpl.
  destruct baseUrl as [baseUrl |]; simpl;
    rewrite !dec_enc_strings; simpl;
    rewrite (dec_enc_num tolerance Htol); simpl;
    rewrite (dec_enc_list dec_step enc_step step_ok steps dec_enc_step Hsteps);
    reflexivity.
Qed.

Section JsonInduction.

Variable P : json -> Prop.
Hypothesis P_null : P JNull.
Hypothesis P_bool : forall b, P (JBool b).
Hypothesis P_int : forall z, P (JInt z).
Hypothesis P_num : forall f, P (JNum f).
Hypothesis P_str : forall s, P (JStr s).
Hypothesis P_arr : forall items, Forall P items -> P (JArr items).
Hypothesis P_obj :
  forall fields, Forall (fun kv => P (snd kv)) fields -> P (JObj fields).

(** Induction on a tree, through the lists of its arrays and objects. *)
Lemma json_tree_ind : forall j, P j.
Proof.
  fix IH 1. intros [| b | z | f | s | items | fields].
  - exact P_null.
  - apply P_bool.
  - apply P_int.
  - apply P_num.
  - apply P_str.
  - apply P_arr. induction items as [| item rest IHrest]; constructor.
    + apply IH.
    + exact IHrest.
  - apply P_obj. induction fields as [| [k v] rest IHrest]; constructor.
    + apply IH.
    + exact IHrest.
Qed.

End JsonInduction.

Lemma enc_num_ok (f : float) : num_ok f = true -> enc_num f = JNum f.
Proof.
  unfold num_ok, enc_num.
  destruct (PrimFloat.is_nan f || PrimFloat.is_infinity f); simpl;
    [discriminate |].
  destruct (PrimFloat.is_zero f && PrimFloat.get_sign f); simpl;
    [discriminate | reflexivity].
Qed.

(** [JSON.stringify] leaves a tree as it is when JSON can carry its
    numbers. *)
Lemma enc_json_ok (j : json) : json_ok j = true -> enc_json j = j.
Proof.
  induction j as [| b | z | f | s | items IH | fields IH] using json_tree_ind;
    simpl; intro Hok; try reflexivity.
  - apply enc_num_ok. exact Hok.
  - f_equal. induction IH as [| item rest Hitem _ IHrest]; [reflexivity |].
    simpl in Hok. apply andb_prop in Hok as [H1 H2].
    simpl. rewrite (Hitem H1), (IHrest H2). reflexivity.
  - f_equal. induction IH as [| [k v] rest Hitem _ IHrest]; [reflexivity |].
    simpl in Hok. apply andb_prop in Hok as [H1 H2].
    simpl in Hitem. simpl. rewrite (Hitem H1), (IHrest H2). reflexivity.
Qed.

Lemma dec_enc_screenshot (s : Screenshot) :
  screenshot_ok s = true -> dec_screenshot (enc_screenshot s) = Some s.
Proof.
  unfold screenshot_ok, dec_screenshot, enc_screenshot. intro Hok.
  rewrite (enc_json_ok s Hok). reflexivity.
Qed.

Lemma dec_enc_issue (i : VisualIssue) :
  issue_ok i = true -> dec_issue (enc_issue i) = Some i.
Proof.
  destruct i as [severity description selector screenshot x y recommendation].
  unfold issue_ok. simpl. intro Hok. apply andb_prop in Hok as [Hx Hy].
  unfold enc_issue, dec_issue. simpl.
  assert (Hs : severity_of_name (severity_name severity) = Some severity)
    by (destruct severity; reflexivity).
  rewrite Hs. simpl.
  rewrite (dec_enc_num x Hx), (dec_enc_num y Hy). reflexivity.
Qed.

Lemma dec_enc_step_result (r : StepResult) :
  dec_step_result (enc_step_result r) = Some r.
Proof.
  destruct r as [status action duration error].
  unfold enc_step_result, dec_step_result. simpl.
  assert (Hs : step_status_of_name (step_status_name status) = Some status)
    by (destruct status; reflexivity).
  destruct error as [error |]; simpl; rewrite Hs; reflexivity.
Qed.

Lemma dec_enc_metrics (m : PerformanceMetrics) :
  metrics_ok m = true -> dec_metrics (enc_metrics m) = Some m.
Proof.
  destruct m as [fcp lcp cls errors warnings requests failures dns tcp ttfb].
  unfold metrics_ok. simpl. intro Hok.
  do 5 (apply andb_prop in Hok as [Hok ?]).
  unfold enc_metrics, dec_metrics. simpl.
  rewrite !dec_enc_num by assumption. simpl.
  rewrite !dec_enc_strings. reflexivity.
Qed.

#[local] Arguments dec_issue : simpl never.
#[local] Arguments enc_issue : simpl never.

Lemma dec_enc_analysis (a : VisualAnalysisResult) :
  analysis_ok a = true -> dec_analysis (enc_analysis a) = Some a.
Proof.
  destruct a as [observations issues accessibility designConsistency
                 layoutAccuracy].
  unfold analysis_ok. simpl. intro Hok.
  do 3 (apply andb_prop in Hok as [Hok ?]).
  unfold enc_analysis, dec_analysis. simpl.
  rewrite dec_enc_strings. simpl.
  rewrite (dec_enc_list dec_issue enc_issue issue_ok issues dec_enc_issue Hok).
  simpl. rewrite !dec_enc_num by assumption. reflexivity.
Qed.

#[local] Arguments dec_analysis : simpl never.
#[local] Arguments enc_analysis : simpl never.
#[local] Arguments dec_metrics : simpl never.
#[local] Arguments enc_metrics : simpl never.
#[local] Arguments dec_step_result : simpl never.
#[local] Arguments enc_step_result : simpl never.

Lemma dec_enc_result (r : TestResult) :
  result_ok r = true -> dec_result (enc_result r) = Some r.
Proof.
  destruct r as [id testId timestamp duration status analysis steps metrics].
  unfold result_ok. simpl. intro Hok. apply andb_prop in Hok as [Ha Hm].
  unfold enc_result, dec_result. simpl.
  assert (Hs : status_of_name (status_name status) = Some status)
    by (destruct status; reflexivity).
  rewrite Hs. simpl. rewrite (dec_enc_analysis analysis Ha). simpl.
  rewrite (dec_enc_list dec_step_result enc_step_result (fun _ => true) steps).
  - simpl. rewrite (dec_enc_metrics metrics Hm). reflexivity.
  - intros a _. apply dec_enc_step_result.
  - induction steps; simpl; auto.
Qed.

#[local] Arguments dec_result : simpl never.
#[local] Arguments enc_result : simpl never.

Lemma dec_enc_run (run : Z * TestResult) :
  result_ok (snd run) = true -> dec_run (enc_run run) = Some run.
Proof.
  destruct run as [timestamp result]. simpl. intro Hok.
  unfold enc_run, dec_run. simpl.
  rewrite (dec_enc_result result Hok). reflexivity.
Qed.

#[local] Arguments dec_run : simpl never.
#[local] Arguments enc_run : simpl never.

Lemma dec_enc_history (h : TestHistory) :
  history_ok h = true -> dec_history (enc_history h) = Some h.
Proof.
  destruct h as [testId runs]. unfold history_ok. simpl. intro Hok.
  unfold enc_history, dec_history. simpl.
  rewrite (dec_enc_list dec_run enc_run (fun run => result_ok (snd run)) runs
             dec_enc_run Hok).
  reflexivity.
Qed.

Lemma dec_enc_common_issue (c : string * nat) :
  dec_common_issue (enc_common_issue c) = Some c.
Proof.
  destruct c as [type count]. unfold enc_common_issue, dec_common_issue.
  cbn [prop assoc String.eqb Ascii.eqb Bool.eqb fst snd dec_string obind].
  rewrite dec_enc_nat. reflexivity.
Qed.

#[local] Arguments dec_common_issue : simpl never.
#[local] Arguments enc_common_issue : simpl never.
#[local] Arguments dec_nat : simpl never.

Lemma dec_enc_analytics (a : TestAnalytics) :
  analytics_ok a = true -> dec_analytics (enc_analytics a) = Some a.
Proof.
  destruct a as [runs rate average issues].
  unfold analytics_ok. simpl. intro Hok. apply andb_prop in Hok as [Hr Ha].
  unfold enc_analytics, dec_analytics. simpl.
  rewrite dec_enc_nat. simpl.
  rewrite (dec_enc_num rate Hr), (dec_enc_num average Ha). simpl.
  rewrite (dec_enc_list dec_common_issue enc_common_issue (fun _ => true) issues).
  - reflexivity.
  - intros c _. apply dec_enc_common_issue.
  - induction issues; simpl; auto.
Qed.

#[local] Arguments dec_test : simpl never.
#[local] Arguments enc_test : simpl never.
#[local] Arguments dec_screenshot : simpl never.
#[local] Arguments enc_screenshot : simpl never.
#[local] Arguments dec_history : simpl never.
#[local] Arguments enc_history : simpl never.
#[local] Arguments dec_analytics : simpl never.
#[local] Arguments enc_analytics : simpl never.

Lemma dec_enc_tests (l : list Test) :
  forallb test_ok l = true -> dec_list dec_test (Some (enc_tests l)) = Some l.
Proof. apply (dec_enc_list dec_test enc_test test_ok l dec_enc_test). Qed.

Lemma dec_enc_current_test (o : option Test) :
  opt_ok test_ok o = true ->
  dec_current_test (Some match o with
                         | Some t => enc_test t
                         | None => JNull
                         end) = Some o.
Proof.
  destruct o as [t |]; simpl; intro Hok; [| reflexivity].
  pose proof (dec_enc_test t Hok) as H.
  (* the image of a test is an object, never [null] *)
  unfold enc_test in *. unfold dec_current_test. rewrite H. reflexivity.
Qed.

#[local] Arguments dec_current_test : simpl never.
#[local] Arguments enc_tests : simpl never.

(** What [saveState] writes, read back through the interfaces, is the
    snapshot, when JSON can carry its numbers. *)
Lemma dec_enc_system (sys : TestingSystem) :
  system_ok sys = true -> dec_system (enc_system sys) = Some sys.
Proof.
  destruct sys as [[pending running completed failed]
                   [maxParallel perBrowser tvis taut ttot count backoff]
                   [phase test shots results] tests analytics].
  unfold system_ok. simpl. intro Hok.
  do 8 (apply andb_prop in Hok as [Hok ?]).
  unfold enc_system, dec_system. simpl.
  rewrite !dec_enc_tests by assumption. simpl.
  assert (Hb : backoff_of_name (backoff_name backoff) = Some backoff)
    by (destruct backoff; reflexivity).
  assert (Hp : phase_of_name (phase_name phase) = Some phase)
    by (destruct phase; reflexivity).
  rewrite Hb, Hp. simpl.
  rewrite (dec_enc_current_test test) by assumption. simpl.
  rewrite (dec_enc_list dec_screenshot enc_screenshot screenshot_ok shots
             dec_enc_screenshot) by assumption.
  simpl.
  rewrite (dec_enc_list dec_result enc_result result_ok results dec_enc_result)
    by assumption.
  simpl.
  rewrite (dec_enc_list dec_history enc_history history_ok tests dec_enc_history)
    by assumption.
  simpl.
  rewrite (dec_enc_analytics analytics) by assumption.
  reflexivity.
Qed.

Lemma saveState_writes (s s1 : State) :
  saveState s = (Ok tt, s1) ->
  disk s1 = (stateFilePath s, FJson (enc_system (system s))) :: disk s
  /\ system s1 = system s
  /\ stateFilePath s1 = stateFilePath s.
Proof.
  unfold saveState, fs_mkdir, fs_writeFile, fs_call, get_system.
  unfold bind, this, with_env, observe, ret, throw. simpl.
  destruct (fs_fault (env s) (ticks s) _); [discriminate |]. simpl.
  destruct (fs_fault (env s) (S (ticks s)) _); [discriminate |]. simpl.
  intro H. injection H as <-. simpl. auto.
Qed.

Lemma compiled_post_test_never_400_witness :
  exists s',
    CompiledServer.post_test (enc_test first_test) (launched fresh)
    = (Ok (Server.queued "a"), s')
    /\ (http_status (Server.queued "a") = 200%Z
        \/ http_status (Server.queued "a") = 500%Z).
Proof.
  eexists.
  assert (H : CompiledServer.post_test (enc_test first_test) (launched fresh)
              = (Ok (Server.queued "a"),
                 snd (CompiledServer.post_test (enc_test first_test)
                        (launched fresh))))
    by (vm_compute; reflexivity).
  split; [exact H |].
  exact (compiled_post_test_never_400 _ _ _ _ H).
Defined.

(** ** A call of [queueTest] is a schedule of the event loop *)

Lemma saveState_cases (s : State) :
  exists o s', saveState s = (o, s') /\ system s' = system s
               /\ (o = Ok tt \/ exists e, o = Throw e).
Proof.
  destruct (quiet_saveState s) as [Hsys Hab].
  destruct (saveState s) as [[[] | e | w] s'] eqn:Hsave; simpl in *.
  - exists (Ok tt), s'. auto.
  - exists (Throw e), s'. split; [reflexivity |]. split; [exact Hsys |].
    right. exists e. reflexivity.
  - exfalso. apply (Hab w). reflexivity.
Qed.

(** The source: awaited without any other request in between,
    [queueTest] changes the snapshot as the schedule [Enqueue], [Dequeue]
    and, when a test was taken and the save did not fail, [Finish] of its
    run does; the schedule enqueues the one test. *)
Lemma source_queueTest_is_schedule (t : Test) (s : State) :
  exists evs,
    forall sc, snapshot sc = system s -> inflight sc = [] ->
    exists sc', sched_run SourceCopy evs sc = Some sc'
                /\ snapshot sc' = system (snd (Source.queueTest t s))
                /\ enqueued sc' = enqueued sc ++ [t].
Proof.
  unfold Source.queueTest. unfold bind at 1, modify_system.
  set (s1 := set_system (queueTest_push t (system s)) s).
  destruct (saveState_cases s1) as (o & s2 & Hsave & Hsys2 & [-> | [e ->]]).
  - unfold bind at 1. rewrite Hsave.
    unfold Source.processQueue. unfold bind at 1, get_system, this.
    destruct (processQueue_head (system s2)) as [[t' sys'] |] eqn:Hhead.
    + unfold bind at 1, modify_system.
      set (s3 := set_system sys' s2).
      destruct (saveState_cases s3) as (o & s4 & Hsave3 & Hsys4 & [-> | [e ->]]).
      * unfold bind at 1. rewrite Hsave3.
        destruct (source_runTest_frame t' s4) as (r & s5 & Hrun & Hsys5 & _).
        unfold bind, ret. rewrite Hrun. simpl.
        exists [Enqueue t; Dequeue; Finish 0 r]. intros sc Hsnap Hfl.
        simpl. rewrite Hsnap. fold s1.
        replace (queueTest_push t (system s)) with (system s2)
          by (rewrite Hsys2; reflexivity).
        rewrite Hhead. simpl. rewrite Hfl. simpl.
        eexists. split; [reflexivity |]. simpl. split; [| reflexivity].
        rewrite Hsys5, Hsys4. reflexivity.
      * unfold bind at 1. rewrite Hsave3. simpl.
        exists [Enqueue t; Dequeue]. intros sc Hsnap Hfl.
        simpl. rewrite Hsnap.
        replace (queueTest_push t (system s)) with (system s2)
          by (rewrite Hsys2; reflexivity).
        rewrite Hhead. eexists. split; [reflexivity |]. simpl.
        split; [| reflexivity]. rewrite Hsys4. reflexivity.
    + simpl. exists [Enqueue t]. intros sc Hsnap Hfl.
      simpl. rewrite Hsnap. eexists. split; [reflexivity |]. simpl.
      split; [| reflexivity]. rewrite Hsys2. reflexivity.
  - unfold bind at 1. rewrite Hsave. simpl.
    exists [Enqueue t]. intros sc Hsnap Hfl.
    simpl. rewrite Hsnap. eexists. split; [reflexivity |]. simpl.
    split; [| reflexivity]. rewrite Hsys2. reflexivity.
Qed.

(** The compiled copy: [processQueue], awaited without any other request
    in between, changes the snapshot as a schedule of [Dequeue] and
    [Finish] events does. *)
Lemma compiled_processQueue_is_schedule (fuel : nat) :
  forall s, List.length (pending (queue (system s))) < fuel ->
  exists evs,
    forall sc, snapshot sc = system s -> inflight sc = [] ->
    exists sc', sched_run CompiledCopy evs sc = Some sc'
                /\ snapshot sc' = system (snd (Compiled.processQueue_fuel fuel s))
                /\ enqueued sc' = enqueued sc.
Proof.
  induction fuel as [| fuel IH]; intros s Hlen; [lia |].
  simpl. unfold bind at 1, get_system, this.
  destruct (processQueue_head (system s)) as [[t sys'] |] eqn:Hhead.
  - pose proof (processQueue_head_inv _ _ _ Hhead) as (_ & Hq & _).
    unfold bind at 1, modify_system.
    set (s1 := set_system sys' s).
    destruct (saveState_cases s1) as (o & s2 & Hsave & Hsys2 & [-> | [e ->]]).
    + unfold bind at 1. rewrite Hsave.
      destruct (compiled_runTest_then_spec t s2)
        as (r & caught & s3 & Hp & Hsys3 & Hthen).
      rewrite Hthen.
      set (s4 := set_system (Compiled.runTest_finally t r (system s2)) s3).
      destruct (saveState_cases s4) as (o & s5 & Hsave4 & Hsys5 & [-> | [e ->]]).
      * unfold bind at 1. rewrite Hsave4.
        assert (Hlen5 : List.length (pending (queue (system s5))) < fuel).
        { rewrite Hsys5. unfold s4. simpl system.
          rewrite runTest_finally_pending, Hsys2. unfold s1. simpl system.
          rewrite Hq in Hlen. simpl in Hlen. lia. }
        destruct (IH s5 Hlen5) as (evs & Hevs).
        exists (Dequeue :: Finish 0 r :: evs). intros sc Hsnap Hfl.
        simpl. rewrite Hsnap, Hhead. simpl. rewrite Hfl. simpl.
        match goal with
        | |- context [sched_run CompiledCopy evs ?sc0] =>
            destruct (Hevs sc0) as (sc' & Hrun' & Hsnap' & Henq')
        end.
        { simpl. rewrite Hsys5. unfold s4. simpl. rewrite Hsys2. reflexivity. }
        { reflexivity. }
        exists sc'. split; [exact Hrun' |]. split; [exact Hsnap' |].
        exact Henq'.
      * unfold bind at 1. rewrite Hsave4. simpl.
        exists [Dequeue; Finish 0 r]. intros sc Hsnap Hfl.
        simpl. rewrite Hsnap, Hhead. simpl. rewrite Hfl. simpl.
        eexists. split; [reflexivity |]. simpl. split; [| reflexivity].
        rewrite Hsys5. unfold s4. simpl. rewrite Hsys2. reflexivity.
    + unfold bind at 1. rewrite Hsave. simpl.
      exists [Dequeue]. intros sc Hsnap Hfl.
      simpl. rewrite Hsnap, Hhead.
      eexists. split; [reflexivity |]. simpl. split; [| reflexivity].
      rewrite Hsys2. reflexivity.
  - simpl. exists []. intros sc Hsnap Hfl. simpl.
    eexists. split; [reflexivity |]. split; [exact Hsnap | reflexivity].
Qed.

(** So does [queueTest], after an [Enqueue]. *)
Lemma compiled_queueTest_is_schedule (t : Test) (s : State) :
  exists evs,
    forall sc, snapshot sc = system s -> inflight sc = [] ->
    exists sc', sched_run CompiledCopy evs sc = Some sc'
                /\ snapshot sc' = system (snd (Compiled.queueTest t s))
                /\ enqueued sc' = enqueued sc ++ [t].
Proof.
  unfold Compiled.queueTest. unfold bind at 1, modify_system.
  set (s1 := set_system (queueTest_push t (system s)) s).
  destruct (saveState_cases s1) as (o & s2 & Hsave & Hsys2 & [-> | [e ->]]).
  - unfold bind at 1. rewrite Hsave.
    unfold Compiled.processQueue. unfold bind at 1, get_system, this.
    destruct (compiled_processQueue_is_schedule
                (S (List.length (pending (queue (system s2))))) s2)
      as (evs & Hevs); [lia |].
    exists (Enqueue t :: evs). intros sc Hsnap Hfl.
    simpl sched_run.
    match goal with
    | |- context [sched_run CompiledCopy evs ?sc0] =>
        destruct (Hevs sc0) as (sc' & Hrun' & Hsnap' & Henq')
    end.
    { simpl. rewrite Hsnap, Hsys2. reflexivity. }
    { exact Hfl. }
    exists sc'. split; [exact Hrun' |]. split; [exact Hsnap' |].
    exact Henq'.
  - unfold bind at 1. rewrite Hsave. simpl.
    exists [Enqueue t]. intros sc Hsnap Hfl.
    simpl. rewrite Hsnap. eexists. split; [reflexivity |]. simpl.
    split; [| reflexivity]. rewrite Hsys2. reflexivity.
Qed.

(** ** The compiled queue drains *)

Lemma same_env_ret {A} (a : A) : same_env (ret a).
Proof. intro s. reflexivity. Qed.

Lemma same_env_throw {A} (e : exn) : same_env (@throw A e).
Proof. intro s. reflexivity. Qed.

Lemma same_env_bind {A B} (m : M A) (k : A -> M B) :
  same_env m -> (forall a, same_env (k a)) -> same_env (bind m k).
Proof.
  intros Hm Hk s. unfold bind. specialize (Hm s).
  destruct (m s) as [[a | e | w] s1]; simpl in *; try assumption.
  rewrite (Hk a s1). assumption.
Qed.

Lemma same_env_try_catch {A} (m : M A) (h : exn -> M A) :
  same_env m -> (forall e, same_env (h e)) -> same_env (try_catch m h).
Proof.
  intros Hm Hh s. unfold try_catch. specialize (Hm s).
  destruct (m s) as [[a | e | w] s1]; simpl in *; try assumption.
  rewrite (Hh e s1). assumption.
Qed.

Lemma same_env_try_finally {A} (m : M A) (f : M unit) :
  same_env m -> same_env f -> same_env (try_finally m f).
Proof.
  intros Hm Hf s. unfold try_finally. specialize (Hm s).
  destruct (m s) as [[a | e | w] s1]; simpl in *; try assumption;
    specialize (Hf s1); destruct (f s1) as [[u | e' | w'] s2]; simpl in *;
    congruence.
Qed.

Lemma same_env_attempt {A} (m : M A) : same_env m -> same_env (attempt m).
Proof.
  intros Hm s. unfold attempt. specialize (Hm s).
  destruct (m s) as [[a | e | w] s1]; simpl in *; assumption.
Qed.

Lemma same_env_observe {A} (read : Env -> nat -> A) : same_env (observe read).
Proof. intro s. reflexivity. Qed.

Lemma same_env_with_env {A} (f : Env -> A) : same_env (with_env f).
Proof. intro s. reflexivity. Qed.

Lemma same_env_this {A} (field : State -> A) : same_env (this field).
Proof. intro s. reflexivity. Qed.

Lemma same_env_modify (f : TestingSystem -> TestingSystem) :
  same_env (modify_system f).
Proof. intro s. reflexivity. Qed.

Lemma same_env_now : same_env now.
Proof. apply same_env_observe. Qed.

Lemma same_env_uuid : same_env uuid.
Proof. apply same_env_observe. Qed.

Lemma same_env_pw (c : PwCall) : same_env (pw c).
Proof.
  unfold pw. apply same_env_bind; [apply same_env_observe |].
  intros [e |]; [apply same_env_throw | apply same_env_ret].
Qed.

Lemma same_env_pw_value {A} (c : PwCall) (read : Env -> nat -> A) :
  same_env (pw_value c read).
Proof.
  intro s. unfold pw_value.
  destruct (playwright (env s) (ticks s) c); reflexivity.
Qed.

Lemma same_env_fs_call (c : FsCall) : same_env (fs_call c).
Proof.
  unfold fs_call. apply same_env_bind; [apply same_env_observe |].
  intros [e |]; [apply same_env_throw | apply same_env_ret].
Qed.

Lemma same_env_fs_writeFile (path : string) (data : filedata) :
  same_env (fs_writeFile path data).
Proof.
  unfold fs_writeFile. apply same_env_bind; [apply same_env_fs_call |].
  intros _ s. reflexivity.
Qed.

Create HintDb same_env.

#[local] Hint Resolve same_env_ret same_env_throw same_env_observe
  same_env_with_env same_env_this same_env_modify same_env_now same_env_uuid
  same_env_pw same_env_pw_value same_env_fs_call same_env_fs_writeFile
  : same_env.

(** Splits a goal [same_env m] along the shape of [m]. *)
Ltac same_env_step :=
  match goal with
  | |- same_env (bind _ _) => apply same_env_bind; [| intro]
  | |- same_env (try_catch _ _) => apply same_env_try_catch; [| intro]
  | |- same_env (try_finally _ _) => apply same_env_try_finally
  | |- same_env (attempt _) => apply same_env_attempt
  | |- same_env (if ?b then _ else _) => destruct b
  | |- same_env (match ?x with _ => _ end) => destruct x
  | |- same_env _ =>
      solve [unfold get_system, get_browser; auto with same_env]
  end.

Ltac same_env_auto := repeat same_env_step.

Lemma same_env_saveState : same_env saveState.
Proof. unfold saveState, fs_mkdir. same_env_auto. Qed.

Lemma same_env_compiled_executeStep (step : AutomationStep) :
  same_env (Compiled.executeStep step).
Proof. unfold Compiled.executeStep, Compiled.perform. same_env_auto. Qed.

Lemma same_env_screenshot_analysis (t : Test) (step : AutomationStep) :
  same_env
    (screenshot <- Compiled.captureScreenshot "http://example.com"
                                              (step_target step) ;;
     screenshotPath <- saveScreenshot screenshot (test_id t) ;;
     analyzeScreenshot screenshotPath (visual_instructions t)
                       (expect_layout t) (expect_design t)
                       (expect_accessibility t))%async.
Proof.
  unfold Compiled.captureScreenshot, saveScreenshot, analyzeScreenshot.
  same_env_auto.
Qed.

Lemma same_env_compiled_collectMetrics (url : string) :
  same_env (Compiled.collectMetrics url).
Proof. unfold Compiled.collectMetrics. same_env_auto. Qed.

#[local] Hint Resolve same_env_saveState same_env_compiled_executeStep
  same_env_screenshot_analysis same_env_compiled_collectMetrics : same_env.

Lemma same_env_compiled_run_steps (t : Test) (steps : list AutomationStep) :
  forall p, same_env (Compiled.run_steps t steps p).
Proof.
  induction steps as [| step rest IH]; intro p; simpl.
  - apply same_env_ret.
  - apply same_env_bind;
      [apply same_env_attempt, same_env_compiled_executeStep |].
    intros [error | stepResult]; [apply same_env_ret |].
    destruct (sr_status stepResult); [| apply same_env_ret].
    destruct (assert_visual t); [| apply IH].
    apply same_env_bind;
      [apply same_env_attempt, same_env_screenshot_analysis |].
    intros [error | analysis]; [apply same_env_ret | apply IH].
Qed.

#[local] Hint Resolve same_env_compiled_run_steps : same_env.

Lemma same_env_compiled_produce (t : Test) : same_env (Compiled.produce t).
Proof.
  unfold Compiled.produce, Compiled.run_body. same_env_auto.
Qed.

Lemma saveState_healthy (s : State) :
  healthy_disk (env s) ->
  exists s', saveState s = (Ok tt, s')
             /\ system s' = system s /\ env s' = env s.
Proof.
  intro Hdisk.
  unfold saveState, fs_mkdir, fs_writeFile, fs_call, get_system.
  unfold bind, this, with_env, observe, ret, throw. simpl.
  rewrite !Hdisk. simpl. eexists. repeat split.
Qed.

Lemma runTest_finally_idle (t : Test) (r : TestResult) (sys : TestingSystem) :
  phase (current (Compiled.runTest_finally t r sys)) = SetupPhase
  /\ results (current (Compiled.runTest_finally t r sys))
     = results (current sys) ++ [r].
Proof.
  unfold Compiled.runTest_finally.
  destruct (Compiled.status_is_pass (tr_status r)); simpl; auto.
Qed.




(** * The rest of the code *)

(** ** Starting up *)

Lemma lookup_file_written (path : string) (data : filedata)
  (d : list (string * filedata)) :
  lookup_file path ((path, data) :: d) = Some data.
Proof. simpl. rewrite String.eqb_refl. reflexivity. Qed.

Lemma saveState_healthy_file (s : State) :
  healthy_disk (env s) ->
  exists s',
    saveState s = (Ok tt, s')
    /\ system s' = system s
    /\ env s' = env s
    /\ browser s' = browser s
    /\ stateFilePath s' = stateFilePath s
    /\ lookup_file (stateFilePath s) (disk s')
       = Some (FJson (enc_system (system s))).
Proof.
  intro Hdisk.
  unfold saveState, fs_mkdir, fs_writeFile, fs_call, get_system.
  unfold bind, this, with_env, observe, ret, throw. simpl.
  rewrite !Hdisk. simpl.
  eexists. split; [reflexivity |]. simpl.
  rewrite String.eqb_refl. repeat split; reflexivity.
Qed.

(** A state file that is missing, or that [JSON.parse] rejects, is no
    error for [loadState]: the snapshot in memory stays, and is written
    to the file. *)
Lemma loadState_without_file (s : State) :
  healthy_disk (env s) ->
  (forall j, lookup_file (stateFilePath s) (disk s) <> Some (FJson j)) ->
  exists s',
    loadState s = (Ok tt, s')
    /\ system s' = system s
    /\ browser s' = browser s
    /\ stateFilePath s' = stateFilePath s
    /\ lookup_file (stateFilePath s) (disk s')
       = Some (FJson (enc_system (system s))).
Proof.
  intros Hdisk Hfile.
  unfold loadState, try_catch.
  unfold bind at 1, this. unfold bind at 1.
  unfold fs_readFile. unfold bind at 1, fs_call. unfold bind at 1, observe.
  rewrite Hdisk. unfold ret at 1.
  set (s1 := set_ticks (S (ticks s)) s).
  assert (Hdisk1 : healthy_disk (env s1)) by exact Hdisk.
  destruct (saveState_healthy_file s1 Hdisk1)
    as (s' & Hsave & Hsys & _ & Hb & Hpath & Hwritten).
  change (disk s1) with (disk s).
  destruct (lookup_file (stateFilePath s) (disk s)) as [[j | bytes] |] eqn:Hl.
  - exfalso. apply (Hfile j). reflexivity.
  - simpl. exists s'. rewrite Hsave. auto.
  - exists s'. rewrite Hsave. auto.
Qed.

(** ** Which methods leave a field of [this] alone *)

Section Keeps.

Context {B : Type} (field : State -> B).

Hypothesis field_ticks : forall n s, field (set_ticks n s) = field s.

Lemma keeps_ret {A} (a : A) : keeps field (ret a).
Proof. intro s. reflexivity. Qed.

Lemma keeps_throw {A} (e : exn) : keeps field (@throw A e).
Proof. intro s. reflexivity. Qed.

Lemma keeps_bind {A C} (m : M A) (k : A -> M C) :
  keeps field m -> (forall a, keeps field (k a)) -> keeps field (bind m k).
Proof.
  intros Hm Hk s. unfold bind. specialize (Hm s).
  destruct (m s) as [[a | e | w] s1]; simpl in *; try assumption.
  rewrite (Hk a s1). assumption.
Qed.

Lemma keeps_try_catch {A} (m : M A) (h : exn -> M A) :
  keeps field m -> (forall e, keeps field (h e)) -> keeps field (try_catch m h).
Proof.
  intros Hm Hh s. unfold try_catch. specialize (Hm s).
  destruct (m s) as [[a | e | w] s1]; simpl in *; try assumption.
  rewrite (Hh e s1). assumption.
Qed.

Lemma keeps_try_finally {A} (m : M A) (f : M unit) :
  keeps field m -> keeps field f -> keeps field (try_finally m f).
Proof.
  intros Hm Hf s. unfold try_finally. specialize (Hm s).
  destruct (m s) as [[a | e | w] s1]; simpl in *; try assumption;
    specialize (Hf s1); destruct (f s1) as [[u | e' | w'] s2]; simpl in *;
    congruence.
Qed.

Lemma keeps_attempt {A} (m : M A) : keeps field m -> keeps field (attempt m).
Proof.
  intros Hm s. unfold attempt. specialize (Hm s).
  destruct (m s) as [[a | e | w] s1]; simpl in *; assumption.
Qed.

Lemma keeps_this {A} (f : State -> A) : keeps field (this f).
Proof. intro s. reflexivity. Qed.

Lemma keeps_with_env {A} (f : Env -> A) : keeps field (with_env f).
Proof. intro s. reflexivity. Qed.

Lemma keeps_observe {A} (read : Env -> nat -> A) : keeps field (observe read).
Proof. intro s. apply field_ticks. Qed.

Lemma keeps_pw (c : PwCall) : keeps field (pw c).
Proof.
  unfold pw. apply keeps_bind; [apply keeps_observe |].
  intros [e |]; [apply keeps_throw | apply keeps_ret].
Qed.

Lemma keeps_pw_value {A} (c : PwCall) (read : Env -> nat -> A) :
  keeps field (pw_value c read).
Proof.
  intro s. unfold pw_value.
  destruct (playwright (env s) (ticks s) c); apply field_ticks.
Qed.

Lemma keeps_fs_call (c : FsCall) : keeps field (fs_call c).
Proof.
  unfold fs_call. apply keeps_bind; [apply keeps_observe |].
  intros [e |]; [apply keeps_throw | apply keeps_ret].
Qed.

Lemma keeps_fs_writeFile (path : string) (data : filedata) :
  (forall d s, field (set_disk d s) = field s) ->
  keeps field (fs_writeFile path data).
Proof.
  intro Hd. unfold fs_writeFile. apply keeps_bind; [apply keeps_fs_call |].
  intros _ s. apply Hd.
Qed.

Lemma keeps_fs_readFile (path : string) : keeps field (fs_readFile path).
Proof.
  unfold fs_readFile. apply keeps_bind; [apply keeps_fs_call |].
  intros _ s. simpl. destruct (lookup_file path (disk s)); reflexivity.
Qed.

Lemma keeps_modify (f : TestingSystem -> TestingSystem) :
  (forall sys s, field (set_system sys s) = field s) ->
  keeps field (modify_system f).
Proof. intros Hs s. apply Hs. Qed.

End Keeps.

Create HintDb keeps.

#[local] Hint Resolve keeps_ret keeps_throw keeps_this keeps_with_env
  keeps_observe keeps_pw keeps_pw_value keeps_fs_call keeps_fs_writeFile
  keeps_fs_readFile keeps_modify : keeps.

#[local] Hint Extern 1 (_ = _) => reflexivity : keeps.

(** Splits a goal [keeps field m] along the shape of [m]. *)
Ltac keeps_step :=
  match goal with
  | |- keeps _ (bind _ _) => apply keeps_bind; [| intro]
  | |- keeps _ (try_catch _ _) => apply keeps_try_catch; [| intro]
  | |- keeps _ (try_finally _ _) => apply keeps_try_finally
  | |- keeps _ (attempt _) => apply keeps_attempt
  | |- keeps _ (if ?b then _ else _) => destruct b
  | |- keeps _ (match ?x with _ => _ end) => destruct x
  | |- keeps _ _ =>
      solve [unfold get_system, get_browser, now, uuid, fs_mkdir;
             auto with keeps]
  end.

Ltac keeps_auto := repeat keeps_step.

Lemma keeps_browser_navigate (url : string) (left : nat) :
  forall attempt, keeps browser (Source.navigate url left attempt).
Proof.
  induction left as [| left IH]; intro attempt; simpl; [apply keeps_ret |].
  apply keeps_try_catch; [keeps_auto |].
  intro e. destruct (Nat.eqb attempt 2); [apply keeps_throw | apply IH].
Qed.

Lemma keeps_browser_type_chars (selector value : string) :
  keeps browser (Source.type_chars selector value).
Proof.
  induction value as [| char rest IH]; simpl; [apply keeps_ret |].
  apply keeps_bind; [keeps_auto | intro; exact IH].
Qed.

#[local] Hint Resolve keeps_browser_navigate keeps_browser_type_chars : keeps.

Lemma keeps_browser_source_perform (step : AutomationStep) :
  keeps browser (Source.perform step).
Proof. unfold Source.perform. keeps_auto. Qed.

#[local] Hint Resolve keeps_browser_source_perform : keeps.

Lemma keeps_env_navigate (url : string) (left : nat) :
  forall attempt, keeps env (Source.navigate url left attempt).
Proof.
  induction left as [| left IH]; intro attempt; simpl; [apply keeps_ret |].
  apply keeps_try_catch; [keeps_auto |].
  intro e. destruct (Nat.eqb attempt 2); [apply keeps_throw | apply IH].
Qed.

Lemma keeps_env_type_chars (selector value : string) :
  keeps env (Source.type_chars selector value).
Proof.
  induction value as [| char rest IH]; simpl; [apply keeps_ret |].
  apply keeps_bind; [keeps_auto | intro; exact IH].
Qed.

#[local] Hint Resolve keeps_env_navigate keeps_env_type_chars : keeps.

Lemma keeps_env_source_perform (step : AutomationStep) :
  keeps env (Source.perform step).
Proof. unfold Source.perform. keeps_auto. Qed.

#[local] Hint Resolve keeps_env_source_perform : keeps.

Lemma keeps_env_automation_initialize (b : BrowserType) :
  keeps env (automation_initialize b).
Proof.
  unfold automation_initialize.
  apply keeps_bind; [intro s; reflexivity | intro].
  apply keeps_bind; [keeps_auto | intro]. intro s. reflexivity.
Qed.

#[local] Hint Resolve keeps_env_automation_initialize : keeps.

Lemma keeps_env_source_executeStep (step : AutomationStep) (url : string) :
  keeps env (Source.executeStep step url).
Proof. unfold Source.executeStep. keeps_auto. Qed.

Lemma keeps_env_source_collectMetrics (url : string) :
  keeps env (Source.collectMetrics url).
Proof. unfold Source.collectMetrics. keeps_auto. Qed.

Lemma loadState_restores (s : State) (sys0 : TestingSystem) :
  healthy_disk (env s) ->
  lookup_file (stateFilePath s) (disk s) = Some (FJson (enc_system sys0)) ->
  system_ok sys0 = true ->
  loadState s = (Ok tt, set_system sys0 (set_ticks (S (ticks s)) s)).
Proof.
  intros Hdisk Hfile Hok.
  unfold loadState, try_catch, fs_readFile, fs_call.
  unfold bind, this, observe, ret, throw. simpl.
  rewrite Hdisk. simpl. rewrite Hfile. simpl.
  rewrite (dec_enc_system sys0 Hok). reflexivity.
Qed.

Lemma initialize_same : Source.initialize = Compiled.initialize.
Proof. reflexivity. Qed.

(** [initialize], the same in both copies, when chromium launches and the
    disk does not fail.  Without a state file that parses it leaves the
    snapshot of the constructor in memory and writes it to the state
    file; with the file a former process saved it takes the snapshot of
    the file and writes nothing.  Either way the browser is chromium
    afterwards. *)
Theorem initialize_starts (s : State) :
  playwright (env s) (ticks s) (Launch Chromium) = None ->
  healthy_disk (env s) ->
  ((forall j, lookup_file (stateFilePath s) (disk s) <> Some (FJson j)) ->
   exists s',
     Source.initialize s = (Ok tt, s')
     /\ Compiled.initialize s = (Ok tt, s')
     /\ browser s' = Some Chromium
     /\ system s' = system s
     /\ lookup_file (stateFilePath s) (disk s')
        = Some (FJson (enc_system (system s))))
  /\ (forall sys0,
        lookup_file (stateFilePath s) (disk s) = Some (FJson (enc_system sys0)) ->
        system_ok sys0 = true ->
        exists s',
          Source.initialize s = (Ok tt, s')
          /\ Compiled.initialize s = (Ok tt, s')
          /\ browser s' = Some Chromium
          /\ system s' = sys0
          /\ disk s' = disk s).
Proof.
  intros Hlaunch Hdisk.
  set (s1 := set_ticks (S (S (ticks s)))
               (set_browser (Some Chromium)
                  (set_ticks (S (ticks s)) (set_browserType Chromium s)))).
  assert (Hinit : Source.initialize s = loadState s1).
  { unfold Source.initialize, automation_initialize, visual_initialize, fs_mkdir.
    unfold bind at 1. unfold bind at 1. simpl.
    unfold bind at 1. unfold pw at 1. unfold bind at 1, observe at 1. simpl.
    rewrite Hlaunch. unfold ret at 1. simpl.
    unfold bind at 1. unfold bind at 1, this at 1.
    unfold fs_call at 1. unfold bind at 1, observe at 1. simpl.
    rewrite Hdisk. reflexivity. }
  rewrite <- initialize_same, Hinit.
  split.
  - intro Hfile.
    destruct (loadState_without_file s1 Hdisk Hfile)
      as (s' & Hload & Hsys & Hb & _ & Hwritten).
    exists s'. rewrite Hload. auto.
  - intros sys0 Hfile Hok.
    rewrite (loadState_restores s1 sys0 Hdisk Hfile Hok).
    eexists. repeat split.
Qed.

Lemma initialize_starts_witness :
  exists s',
    Source.initialize fresh = (Ok tt, s')
    /\ browser s' = Some Chromium
    /\ system s' = createInitialSystem
    /\ lookup_file "./test-state.json" (disk s')
       = Some (FJson (enc_system createInitialSystem)).
Proof.
  destruct (initialize_starts fresh) as [Hnew _].
  - reflexivity.
  - intros n c. reflexivity.
  - destruct Hnew as (s' & Hs & _ & Hb & Hsys & Hfile).
    + intros j H. discriminate H.
    + exists s'. auto.
Defined.

(** When chromium cannot be launched [initialize] rejects with the error
    of the launch, in both copies, before the screenshot folder is made
    and before the state file is read: no browser, the snapshot and the
    disk as they were. *)
Theorem initialize_stops_at_failed_launch (s : State) (e : exn) :
  playwright (env s) (ticks s) (Launch Chromium) = Some e ->
  exists s',
    Source.initialize s = (Throw e, s')
    /\ Compiled.initialize s = (Throw e, s')
    /\ browser s' = browser s
    /\ system s' = system s
    /\ disk s' = disk s
    /\ ticks s' = S (ticks s).
Proof.
  intro Hlaunch. rewrite <- initialize_same.
  unfold Source.initialize, automation_initialize, pw.
  unfold bind, observe, ret, throw. simpl. rewrite Hlaunch.
  eexists. repeat split.
Qed.

Lemma initialize_stops_at_failed_launch_witness :
  exists s',
    Compiled.initialize (new_TestOrchestrator no_launch_env "./test-state.json")
    = (Throw (JsError "Executable doesn't exist"), s')
    /\ browser s' = None
    /\ disk s' = [].
Proof.
  destruct (initialize_stops_at_failed_launch
              (new_TestOrchestrator no_launch_env "./test-state.json")
              (JsError "Executable doesn't exist") eq_refl)
    as (s' & _ & Hc & Hb & _ & Hd & _).
  exists s'. auto.
Defined.

(** ** Running without a browser *)

(** The compiled copy never launches a browser on its own.  While the
    browser is [null] (the launch failed at start-up, or [cleanup] was
    called), the run of a test that has a step or asks for metrics makes
    no Playwright call at all: its first call into the automation service
    throws, no step result is recorded, and the result says ["fail"]. *)
Theorem compiled_run_without_browser (t : Test) (s : State) :
  browser s = None ->
  automation_steps t <> [] \/ assert_performance t = true ->
  exists r s',
    Compiled.produce t s
    = (Ok (r, Some (JsError "Browser not initialized")), s')
    /\ tr_status r = Fail
    /\ tr_steps r = []
    /\ tr_metrics r = zero_metrics
    /\ tr_visualAnalysis r = Compiled.empty_analysis
    /\ browser s' = None
    /\ ticks s' = 3 + ticks s.
Proof.
  intros Hb Hwork.
  unfold Compiled.produce. rewrite bind_now, bind_uuid.
  unfold Compiled.run_body.
  destruct (automation_steps t) as [| step rest] eqn:Hsteps.
  - destruct Hwork as [Hwork | Hperf]; [congruence |].
    simpl Compiled.run_steps.
    unfold bind at 1. unfold bind at 1. unfold ret at 1.
    rewrite Hperf.
    unfold bind at 1, attempt, Compiled.collectMetrics.
    unfold bind at 1, get_browser, this. cbn [browser set_ticks]. rewrite Hb.
    unfold throw at 1. unfold ret at 1. rewrite bind_now.
    eexists _, _. split; [reflexivity |]. simpl. repeat split. exact Hb.
  - simpl Compiled.run_steps.
    unfold bind at 1. unfold bind at 1. unfold bind at 1.
    unfold attempt, Compiled.executeStep.
    unfold bind at 1, get_browser, this. cbn [browser set_ticks]. rewrite Hb.
    unfold throw at 1. unfold ret at 1. unfold ret at 1. rewrite bind_now.
    eexists _, _. split; [reflexivity |]. simpl. repeat split. exact Hb.
Qed.

Lemma compiled_run_without_browser_witness :
  exists r s',
    Compiled.produce (sample_test "c" [click_login] false false) fresh
    = (Ok (r, Some (JsError "Browser not initialized")), s')
    /\ tr_status r = Fail
    /\ tr_steps r = [].
Proof.
  destruct (compiled_run_without_browser
              (sample_test "c" [click_login] false false) fresh eq_refl)
    as (r & s' & Hp & Hst & Hsteps & _).
  - left. discriminate.
  - exists r, s'. auto.
Defined.

Lemma automation_initialize_ok (b : BrowserType) (s : State) :
  playwright (env s) (ticks s) (Launch b) = None ->
  automation_initialize b s
  = (Ok tt, set_browser (Some b) (set_ticks (S (ticks s)) (set_browserType b s))).
Proof.
  intro H. unfold automation_initialize, pw.
  unfold bind, observe, ret, throw. simpl. rewrite H. reflexivity.
Qed.

Lemma automation_initialize_fails (b : BrowserType) (s : State) (e : exn) :
  playwright (env s) (ticks s) (Launch b) = Some e ->
  automation_initialize b s
  = (Throw e, set_ticks (S (ticks s)) (set_browserType b s)).
Proof.
  intro H. unfold automation_initialize, pw.
  unfold bind, observe, ret, throw. simpl. rewrite H. reflexivity.
Qed.

Lemma keeps_browser_source_page (step : AutomationStep) (url : string) :
  keeps browser
    (pw NewPage ;;
     try_finally
       (try_catch (Source.navigate url 3 0 ;; Source.perform step)
                  (fun error => throw error))
       (pw PageClose))%async.
Proof. keeps_auto. Qed.

Lemma keeps_browserType_source_page (step : AutomationStep) (url : string) :
  keeps browserType
    (pw NewPage ;;
     try_finally
       (try_catch (Source.navigate url 3 0 ;; Source.perform step)
                  (fun error => throw error))
       (pw PageClose))%async.
Proof.
  assert (Hnav : forall left attempt,
             keeps browserType (Source.navigate url left attempt)).
  { induction left as [| left IH]; intro attempt; simpl; [apply keeps_ret |].
    apply keeps_try_catch; [keeps_auto |].
    intro e. destruct (Nat.eqb attempt 2); [apply keeps_throw | apply IH]. }
  assert (Htype : forall selector value,
             keeps browserType (Source.type_chars selector value)).
  { intros selector value.
    induction value as [| char rest IH]; simpl; [apply keeps_ret |].
    apply keeps_bind; [keeps_auto | intro; exact IH]. }
  apply keeps_bind; [keeps_auto | intro].
  apply keeps_try_finally; [| keeps_auto].
  apply keeps_try_catch; [| intro; apply keeps_throw].
  apply keeps_bind; [apply Hnav | intro].
  unfold Source.perform.
  repeat match goal with
         | |- keeps _ (Source.type_chars _ _) => apply Htype
         | _ => keeps_step
         end.
Qed.

Lemma source_executeStep_keeps_launched (step : AutomationStep) (url : string)
  (s : State) (b : BrowserType) :
  browser s = Some b ->
  browser (snd (Source.executeStep step url s)) = Some b
  /\ browserType (snd (Source.executeStep step url s)) = browserType s.
Proof.
  intro Hb.
  assert (H : Source.executeStep step url s
              = (pw NewPage ;;
                 try_finally
                   (try_catch (Source.navigate url 3 0 ;; Source.perform step)
                              (fun error => throw error))
                   (pw PageClose))%async s).
  { unfold Source.executeStep.
    unfold bind at 1, get_browser, this. rewrite Hb. reflexivity. }
  rewrite H.
  rewrite (keeps_browser_source_page step url s).
  rewrite (keeps_browserType_source_page step url s).
  split; [exact Hb | reflexivity].
Qed.

(** The source launches on demand: [executeStep] on a [null] browser
    launches chromium first.  When that launch resolves the browser stays
    launched whatever becomes of the step; when it rejects [executeStep]
    rejects with the error of the launch and opens no page.  On a
    launched browser nothing is launched. *)
Theorem source_executeStep_launches (step : AutomationStep) (url : string)
  (s : State) :
  (browser s = None ->
   playwright (env s) (ticks s) (Launch Chromium) = None ->
   browser (snd (Source.executeStep step url s)) = Some Chromium)
  /\ (forall e,
        browser s = None ->
        playwright (env s) (ticks s) (Launch Chromium) = Some e ->
        Source.executeStep step url s
        = (Throw e, set_ticks (S (ticks s)) (set_browserType Chromium s)))
  /\ (forall b,
        browser s = Some b ->
        browser (snd (Source.executeStep step url s)) = Some b
        /\ browserType (snd (Source.executeStep step url s)) = browserType s).
Proof.
  split; [| split].
  - intros Hb Hlaunch.
    unfold Source.executeStep.
    unfold bind at 1, get_browser, this. rewrite Hb.
    rewrite (bind_ok _ _ _ _ _ (automation_initialize_ok Chromium s Hlaunch)).
    rewrite (keeps_browser_source_page step url _).
    reflexivity.
  - intros e Hb Hlaunch.
    unfold Source.executeStep.
    unfold bind at 1, get_browser, this. rewrite Hb.
    unfold bind at 1.
    rewrite (automation_initialize_fails Chromium s e Hlaunch). reflexivity.
  - intros b Hb. exact (source_executeStep_keeps_launched step url s b Hb).
Qed.

Lemma source_executeStep_launches_witness :
  browser (snd (Source.executeStep click_login "http://localhost:3000" fresh))
  = Some Chromium.
Proof.
  destruct (source_executeStep_launches click_login "http://localhost:3000" fresh)
    as (H & _ & _).
  apply H; reflexivity.
Defined.

(** ** Steps of the source *)

Lemma pw_ok (c : PwCall) (s : State) :
  playwright (env s) (ticks s) c = None ->
  pw c s = (Ok tt, set_ticks (S (ticks s)) s).
Proof. intro H. unfold pw, bind, observe, ret. rewrite H. reflexivity. Qed.

Lemma pw_fails (c : PwCall) (s : State) (e : exn) :
  playwright (env s) (ticks s) c = Some e ->
  pw c s = (Throw e, set_ticks (S (ticks s)) s).
Proof. intro H. unfold pw, bind, observe, throw. rewrite H. reflexivity. Qed.

Lemma goto_ok (url : string) (s : State) :
  playwright (env s) (ticks s) (Goto url) = None ->
  playwright (env s) (S (ticks s)) (WaitForTimeout 3000%float) = None ->
  (pw (Goto url) ;; pw (WaitForTimeout 3000%float))%async s
  = (Ok tt, set_ticks (S (S (ticks s))) s).
Proof.
  intros Hg Hw. unfold bind. rewrite (pw_ok _ _ Hg).
  rewrite pw_ok; [reflexivity | exact Hw].
Qed.

Lemma goto_fails (url : string) (s : State) :
  playwright (env s) (ticks s) (Goto url) <> None ->
  exists e,
    playwright (env s) (ticks s) (Goto url) = Some e
    /\ (pw (Goto url) ;; pw (WaitForTimeout 3000%float))%async s
       = (Throw e, set_ticks (S (ticks s)) s).
Proof.
  intro Hg.
  destruct (playwright (env s) (ticks s) (Goto url)) as [e |] eqn:H;
    [| congruence].
  exists e. split; [reflexivity |].
  unfold bind. rewrite (pw_fails _ _ e H). reflexivity.
Qed.

Lemma navigate_first_ok (url : string) (left attempt : nat) (s : State) :
  playwright (env s) (ticks s) (Goto url) = None ->
  playwright (env s) (S (ticks s)) (WaitForTimeout 3000%float) = None ->
  Source.navigate url (S left) attempt s
  = (Ok tt, set_ticks (S (S (ticks s))) s).
Proof.
  intros Hg Hw. simpl. unfold try_catch. rewrite (goto_ok url s Hg Hw).
  reflexivity.
Qed.

Lemma navigate_again (url : string) (left attempt : nat) (s : State) :
  playwright (env s) (ticks s) (Goto url) <> None ->
  Nat.eqb attempt 2 = false ->
  Source.navigate url (S left) attempt s
  = Source.navigate url left (S attempt) (set_ticks (S (ticks s)) s).
Proof.
  intros Hg Ha. destruct (goto_fails url s Hg) as (e & _ & Hrun).
  simpl. unfold try_catch. rewrite Hrun, Ha. reflexivity.
Qed.

Lemma navigate_gives_up (url : string) (left : nat) (s : State) (e : exn) :
  playwright (env s) (ticks s) (Goto url) = Some e ->
  Source.navigate url (S left) 2 s = (Throw e, set_ticks (S (ticks s)) s).
Proof.
  intro Hg. simpl. unfold try_catch, bind. rewrite (pw_fails _ _ e Hg).
  reflexivity.
Qed.

(** The navigation of [executeStep] is tried three times at most.  A
    [goto] that rejects once or twice is tried again, and the navigation
    succeeds with the first [goto] that resolves; when the third [goto]
    rejects too, its error is the one thrown, after three calls. *)
Theorem navigate_retries (url : string) (s : State) :
  let goto n := playwright (env s) (n + ticks s) (Goto url) in
  let wait n := playwright (env s) (n + ticks s) (WaitForTimeout 3000%float) in
  (goto 0 = None -> wait 1 = None ->
   Source.navigate url 3 0 s = (Ok tt, set_ticks (2 + ticks s) s))
  /\ (goto 0 <> None -> goto 1 = None -> wait 2 = None ->
      Source.navigate url 3 0 s = (Ok tt, set_ticks (3 + ticks s) s))
  /\ (goto 0 <> None -> goto 1 <> None -> goto 2 = None -> wait 3 = None ->
      Source.navigate url 3 0 s = (Ok tt, set_ticks (4 + ticks s) s))
  /\ (forall e,
        goto 0 <> None -> goto 1 <> None -> goto 2 = Some e ->
        Source.navigate url 3 0 s = (Throw e, set_ticks (3 + ticks s) s)).
Proof.
  intros goto wait. subst goto wait. cbn beta. cbn [Nat.add].
  repeat split.
  - intros H0 H1. apply navigate_first_ok; assumption.
  - intros H0 H1 H2.
    rewrite (navigate_again url 2 0 s H0 eq_refl).
    apply (navigate_first_ok url 1 1 (set_ticks (S (ticks s)) s)); assumption.
  - intros H0 H1 H2 H3.
    rewrite (navigate_again url 2 0 s H0 eq_refl).
    rewrite (navigate_again url 1 1 (set_ticks (S (ticks s)) s) H1 eq_refl).
    apply (navigate_first_ok url 0 2 (set_ticks (S (S (ticks s))) s));
      assumption.
  - intros e H0 H1 H2.
    rewrite (navigate_again url 2 0 s H0 eq_refl).
    rewrite (navigate_again url 1 1 (set_ticks (S (ticks s)) s) H1 eq_refl).
    apply (navigate_gives_up url 0 (set_ticks (S (S (ticks s))) s) e).
    exact H2.
Qed.

(** [goto] rejects twice, then resolves. *)
Lemma navigate_retries_witness :
  Source.navigate "http://localhost:3000" 3 0
    (new_TestOrchestrator flaky_network_env "./test-state.json")
  = (Ok tt, set_ticks 4 (new_TestOrchestrator flaky_network_env "./test-state.json")).
Proof.
  destruct (navigate_retries "http://localhost:3000"
              (new_TestOrchestrator flaky_network_env "./test-state.json"))
    as (_ & _ & H & _).
  apply H; try reflexivity; discriminate.
Defined.

(** ** Metrics in the source *)

Lemma source_collectMetrics_total (url : string) (s : State)
  (b : BrowserType) :
  browser s = Some b ->
  (forall n, playwright (env s) n PageClose = None) ->
  exists m s',
    Source.collectMetrics url s = (Ok m, s')
    /\ system s' = system s
    /\ browser s' = browser s
    /\ ((exists n, m = pw_metrics (env s) n)
        \/ (exists e,
              m = Source.failure_metrics e
              /\ network_failures m = 1%Z
              /\ console_errors m
                 = [("Metrics collection failed: " ++ exn_message e)%string]
              /\ perf_fcp m = 0%float)).
Proof.
  intros Hb Hclose.
  unfold Source.collectMetrics.
  unfold bind at 1, get_browser, this. rewrite Hb.
  unfold bind at 1, attempt.
  destruct (playwright (env s) (ticks s) NewPage) as [e |] eqn:Hpage.
  - rewrite (pw_fails _ _ e Hpage). unfold ret.
    eexists _, _. do 2 (split; [reflexivity |]). split; [exact Hb |].
    right. exists e. repeat split.
  - rewrite (pw_ok _ _ Hpage).
    set (s1 := set_ticks (S (ticks s)) s).
    unfold try_finally, try_catch. unfold bind at 1.
    destruct (playwright (env s1) (ticks s1) (Goto url)) as [e |] eqn:Hgoto.
    + rewrite (pw_fails _ _ e Hgoto). unfold ret at 1.
      rewrite pw_ok by apply Hclose.
      eexists _, _. do 2 (split; [reflexivity |]). split; [exact Hb |].
      right. exists e. repeat split.
    + rewrite (pw_ok _ _ Hgoto). unfold pw_value.
      match goal with
      | |- context [playwright ?e ?n MeasureWithTimeout] =>
          destruct (playwright e n MeasureWithTimeout) as [e' |] eqn:Hmeasure
      end; cbv beta iota.
      * unfold ret at 1. rewrite pw_ok by apply Hclose.
        eexists _, _. do 2 (split; [reflexivity |]). split; [exact Hb |].
        right. exists e'. repeat split.
      * rewrite pw_ok by apply Hclose.
        eexists _, _. do 2 (split; [reflexivity |]). split; [exact Hb |].
        left. eexists. reflexivity.
Qed.

Lemma source_collectMetrics_cases (url : string) (s : State)
  (b : BrowserType) :
  browser s = Some b ->
  (forall n, playwright (env s) n PageClose = None) ->
  (forall error,
      playwright (env s) (ticks s) NewPage = Some error ->
      Source.collectMetrics url s
      = (Ok (Source.failure_metrics error), set_ticks (1 + ticks s) s))
  /\ (forall error,
        playwright (env s) (ticks s) NewPage = None ->
        playwright (env s) (1 + ticks s) (Goto url) = Some error ->
        Source.collectMetrics url s
        = (Ok (Source.failure_metrics error), set_ticks (3 + ticks s) s))
  /\ (forall error,
        playwright (env s) (ticks s) NewPage = None ->
        playwright (env s) (1 + ticks s) (Goto url) = None ->
        playwright (env s) (2 + ticks s) MeasureWithTimeout = Some error ->
        Source.collectMetrics url s
        = (Ok (Source.failure_metrics error), set_ticks (4 + ticks s) s))
  /\ (playwright (env s) (ticks s) NewPage = None ->
      playwright (env s) (1 + ticks s) (Goto url) = None ->
      playwright (env s) (2 + ticks s) MeasureWithTimeout = None ->
      Source.collectMetrics url s
      = (Ok (pw_metrics (env s) (2 + ticks s)), set_ticks (4 + ticks s) s)).
Proof.
  intros Hb Hclose.
  repeat split.
  - intros error Hpage. unfold Source.collectMetrics.
    unfold bind at 1, get_browser, this. rewrite Hb.
    unfold bind at 1, attempt. rewrite (pw_fails _ _ error Hpage). reflexivity.
  - intros error Hpage Hgoto. unfold Source.collectMetrics.
    unfold bind at 1, get_browser, this. rewrite Hb.
    unfold bind at 1, attempt. rewrite (pw_ok _ _ Hpage).
    unfold try_finally, try_catch. unfold bind at 1.
    rewrite (pw_fails (Goto url) (set_ticks (S (ticks s)) s) error Hgoto).
    unfold ret at 1. rewrite pw_ok by apply Hclose. reflexivity.
  - intros error Hpage Hgoto Hmeasure. unfold Source.collectMetrics.
    unfold bind at 1, get_browser, this. rewrite Hb.
    unfold bind at 1, attempt. rewrite (pw_ok _ _ Hpage).
    unfold try_finally, try_catch. unfold bind at 1.
    rewrite (pw_ok (Goto url) (set_ticks (S (ticks s)) s) Hgoto).
    unfold pw_value. cbn [env ticks set_ticks]. simpl in Hmeasure.
    rewrite Hmeasure. unfold ret at 1. rewrite pw_ok by apply Hclose.
    reflexivity.
  - intros Hpage Hgoto Hmeasure. unfold Source.collectMetrics.
    unfold bind at 1, get_browser, this. rewrite Hb.
    unfold bind at 1, attempt. rewrite (pw_ok _ _ Hpage).
    unfold try_finally, try_catch. unfold bind at 1.
    rewrite (pw_ok (Goto url) (set_ticks (S (ticks s)) s) Hgoto).
    unfold pw_value. cbn [env ticks set_ticks]. simpl in Hmeasure.
    rewrite Hmeasure. rewrite pw_ok by apply Hclose.
    reflexivity.
Qed.

(** On a launched browser the [collectMetrics] of the source throws only
    when [page.close()] rejects.  Otherwise it always answers metrics and
    leaves the snapshot and the browser alone, and what it answers is
    decided by the first call that fails: when the page cannot be opened,
    when the navigation fails, and when the measurement fails or times
    out, the answer is the default metrics for that error (all timings
    zero, no request, one network failure and the one console error
    ["Metrics collection failed: "] followed by the message); only when
    all three calls resolve is it what was measured.  The page, once
    opened, is closed in every case. *)
Theorem source_collectMetrics_never_throws (url : string) (s : State)
  (b : BrowserType) :
  browser s = Some b ->
  (forall n, playwright (env s) n PageClose = None) ->
  (exists m s',
      Source.collectMetrics url s = (Ok m, s')
      /\ system s' = system s
      /\ browser s' = browser s)
  /\ (forall error,
        playwright (env s) (ticks s) NewPage = Some error ->
        Source.collectMetrics url s
        = (Ok (Source.failure_metrics error), set_ticks (1 + ticks s) s))
  /\ (forall error,
        playwright (env s) (ticks s) NewPage = None ->
        playwright (env s) (1 + ticks s) (Goto url) = Some error ->
        Source.collectMetrics url s
        = (Ok (Source.failure_metrics error), set_ticks (3 + ticks s) s))
  /\ (forall error,
        playwright (env s) (ticks s) NewPage = None ->
        playwright (env s) (1 + ticks s) (Goto url) = None ->
        playwright (env s) (2 + ticks s) MeasureWithTimeout = Some error ->
        Source.collectMetrics url s
        = (Ok (Source.failure_metrics error), set_ticks (4 + ticks s) s))
  /\ (playwright (env s) (ticks s) NewPage = None ->
      playwright (env s) (1 + ticks s) (Goto url) = None ->
      playwright (env s) (2 + ticks s) MeasureWithTimeout = None ->
      Source.collectMetrics url s
      = (Ok (pw_metrics (env s) (2 + ticks s)), set_ticks (4 + ticks s) s))
  /\ (forall error,
        Source.failure_metrics error
        = mkMetrics 0%float 0%float 0%float
            [("Metrics collection failed: " ++ exn_message error)%string] []
            0 1 0%float 0%float 0%float).
Proof.
  intros Hb Hclose. split.
  - destruct (source_collectMetrics_total url s b Hb Hclose)
      as (m & s' & Hrun & Hsys & Hbrowser & _).
    exists m, s'. auto.
  - destruct (source_collectMetrics_cases url s b Hb Hclose)
      as (H1 & H2 & H3 & H4).
    repeat (split; [assumption |]). intro error. reflexivity.
Qed.

Lemma source_collectMetrics_never_throws_witness :
  Source.collectMetrics "http://localhost:3000"
    (launched (new_TestOrchestrator flaky_network_env "./test-state.json"))
  = (Ok (Source.failure_metrics (JsError "net::ERR_CONNECTION_REFUSED")),
     set_ticks 3
       (launched (new_TestOrchestrator flaky_network_env "./test-state.json")))
  /\ network_failures
       (Source.failure_metrics (JsError "net::ERR_CONNECTION_REFUSED")) = 1%Z.
Proof.
  destruct (source_collectMetrics_never_throws "http://localhost:3000"
              (launched (new_TestOrchestrator flaky_network_env
                           "./test-state.json"))
              Chromium eq_refl)
    as (_ & _ & Hgoto & _).
  - intro n. reflexivity.
  - split; [| reflexivity].
    apply (Hgoto (JsError "net::ERR_CONNECTION_REFUSED")); reflexivity.
Defined.

Lemma source_run_steps_frame (url : string) (steps : list AutomationStep)
  (b : BrowserType) :
  forall done s,
    browser s = Some b ->
    exists o s',
      Source.run_steps url steps done s = (o, s')
      /\ env s' = env s
      /\ browser s' = Some b.
Proof.
  induction steps as [| step rest IH]; intros done s Hb; simpl.
  - eexists _, _. split; [reflexivity |]. split; [reflexivity | exact Hb].
  - rewrite bind_now.
    set (s1 := set_ticks (S (ticks s)) s).
    pose proof (keeps_env_source_executeStep step url s1) as Henv.
    destruct (source_executeStep_keeps_launched step url s1 b Hb) as [Hbr _].
    unfold bind at 1, attempt.
    destruct (Source.executeStep step url s1) as [[[] | e | w] s2];
      simpl in Henv, Hbr.
    + rewrite bind_now.
      destruct (IH (done ++ [Source.pass_result step
                               (date_now (env s2) (ticks s2)
                                - date_now (env s) (ticks s))])
                   (set_ticks (S (ticks s2)) s2) Hbr)
        as (o & s' & Hrun & H1 & H2).
      exists o, s'. split; [exact Hrun |].
      split; [rewrite H1; exact Henv | exact H2].
    + rewrite bind_now. eexists _, _. split; [reflexivity |].
      split; [exact Henv | exact Hbr].
    + eexists _, _. split; [reflexivity |].
      split; [exact Henv | exact Hbr].
Qed.

(** In the source, once the browser is launched and as long as
    [page.close()] does not reject, the status is ["pass"] exactly when
    every recorded step passed: a failure to collect the metrics no
    longer fails the run, it is reported inside the metrics. *)
Theorem source_pass_iff_steps_pass (t : Test) (s : State) (b : BrowserType) :
  browser s = Some b ->
  (forall n, playwright (env s) n PageClose = None) ->
  exists r caught s',
    Source.produce t s = (Ok (r, caught), s')
    /\ (tr_status r = Pass <-> Forall passed (tr_steps r))
    /\ (tr_status r = Pass ->
        List.length (tr_steps r) = List.length (automation_steps t))
    /\ (tr_status r = Pass \/ tr_status r = Fail).
Proof.
  intros Hb Hclose.
  unfold Source.produce. rewrite bind_now, bind_uuid, bind_now.
  match goal with
  | |- context [bind (Source.run_body t ?r0) _ ?s0] =>
      set (result := r0); set (s3 := s0)
  end.
  assert (Hb3 : browser s3 = Some b) by exact Hb.
  unfold Source.run_body. unfold bind at 1. unfold bind at 1.
  destruct (source_run_steps_spec (target_url t) (automation_steps t) [] s3)
    as (new & thrown & s4 & Hrun & _ & Hshape).
  destruct (source_run_steps_frame (target_url t) (automation_steps t) b [] s3 Hb3)
    as (o4 & s4' & Hrun' & Henv4 & Hb4).
  rewrite Hrun in Hrun'. injection Hrun' as <- <-. rewrite Hrun.
  simpl app.
  destruct thrown as [error |].
  - unfold ret at 1. rewrite bind_now.
    eexists _, _, _. split; [reflexivity |]. simpl.
    destruct Hshape as (passes & last & text & -> & _ & Hlast & _).
    split; [| split; [discriminate | right; reflexivity]].
    split; [discriminate |].
    intro Hall. exfalso. exact (failed_not_passed passes last Hlast Hall).
  - destruct Hshape as [Hall Hlen].
    destruct (assert_performance t).
    + assert (Hclose4 : forall n, playwright (env s4) n PageClose = None)
        by (intro n; rewrite Henv4; apply Hclose).
      destruct (source_collectMetrics_total (target_url t) s4 b Hb4 Hclose4)
        as (m & s5 & Hm & _).
      unfold bind at 1, attempt. rewrite Hm. unfold ret at 1.
      rewrite bind_now.
      eexists _, _, _. split; [reflexivity |]. simpl.
      split; [split; [intros _; exact Hall | reflexivity] |].
      split; [intros _; exact Hlen | left; reflexivity].
    + unfold ret at 1. rewrite bind_now.
      eexists _, _, _. split; [reflexivity |]. simpl.
      split; [split; [intros _; exact Hall | reflexivity] |].
      split; [intros _; exact Hlen | left; reflexivity].
Qed.

(** Metrics are requested on a launched browser and the test has no
    step. *)
Lemma source_pass_iff_steps_pass_witness :
  exists r caught s',
    Source.produce metrics_only_test (launched fresh) = (Ok (r, caught), s')
    /\ (tr_status r = Pass <-> Forall passed (tr_steps r)).
Proof.
  destruct (source_pass_iff_steps_pass metrics_only_test (launched fresh)
              Chromium eq_refl)
    as (r & caught & s' & Hp & Hiff & _).
  - intro n. reflexivity.
  - exists r, caught, s'. split; assumption.
Defined.

(** ** Steps of the compiled copy *)

Lemma keeps_browser_compiled_perform (step : AutomationStep) :
  keeps browser (Compiled.perform step).
Proof. unfold Compiled.perform. keeps_auto. Qed.

#[local] Hint Resolve keeps_browser_compiled_perform : keeps.

(** What the compiled [executeStep] requires of a step before it touches
    the page. *)
Lemma compiled_perform_needs_target (step : AutomationStep) (s : State) :
  step_action step <> Wait ->
  blank (step_target step) = true ->
  Compiled.perform step s
  = (Throw (JsError
              match step_action step with
              | TypeText => "Target and value required for type action"
              | a => ("Target required for " ++ action_name a ++ " action")%string
              end), s).
Proof.
  intros Hwait Hblank. unfold Compiled.perform.
  destruct (step_action step); try congruence; rewrite Hblank; reflexivity.
Qed.

(** On a launched browser the compiled [executeStep] never rejects: it
    answers a step result that names the action, ["pass"] without an
    error text or ["fail"] with one.  A click, a type, a hover or a scroll
    whose target is missing or empty fails with the message of the
    check, after the context and the page were opened and without any
    call on the page. *)
Theorem compiled_executeStep_never_throws (step : AutomationStep) (s : State)
  (b : BrowserType) :
  browser s = Some b ->
  exists sr s',
    Compiled.executeStep step s = (Ok sr, s')
    /\ sr_action sr = action_name (step_action step)
    /\ system s' = system s
    /\ browser s' = Some b
    /\ (sr_status sr = StepPass /\ sr_error sr = None
        \/ sr_status sr = StepFail /\ exists text, sr_error sr = Some text)
    /\ (step_action step <> Wait ->
        blank (step_target step) = true ->
        playwright (env s) (1 + ticks s) NewContext = None ->
        playwright (env s) (2 + ticks s) NewPage = None ->
        sr_status sr = StepFail
        /\ sr_error sr
           = Some match step_action step with
                  | TypeText => "Target and value required for type action"
                  | a => ("Target required for " ++ action_name a ++ " action")%string
                  end
        /\ ticks s' = 4 + ticks s).
Proof.
  intro Hb.
  unfold Compiled.executeStep.
  unfold bind at 1, get_browser, this. rewrite Hb.
  rewrite bind_now.
  set (s1 := set_ticks (S (ticks s)) s).
  set (body := (pw NewContext ;; pw NewPage ;; Compiled.perform step ;;
                pw ContextClose)%async).
  assert (Hquiet : quiet body) by (unfold body; quiet_auto).
  assert (Hkeeps : keeps browser body) by (unfold body; keeps_auto).
  destruct (attempt_quiet body s1 Hquiet) as (r & s2 & Hatt & Hsys & Hr).
  unfold bind at 1. rewrite Hatt. rewrite bind_now.
  assert (Hb2 : browser s2 = Some b).
  { specialize (Hkeeps s1). destruct r as [e | a]; rewrite Hr in Hkeeps;
      simpl in Hkeeps; rewrite Hkeeps; exact Hb. }
  destruct r as [e | []].
  - eexists _, _. split; [reflexivity |]. simpl.
    do 3 (split; [assumption || reflexivity |]).
    split; [right; split; [reflexivity | eexists; reflexivity] |].
    intros Hwait Hblank Hctx Hpage.
    unfold body in Hr. unfold bind at 1 in Hr.
    rewrite (pw_ok NewContext s1 Hctx) in Hr. unfold bind at 1 in Hr.
    rewrite (pw_ok NewPage (set_ticks (S (ticks s1)) s1) Hpage) in Hr.
    unfold bind at 1 in Hr.
    rewrite (compiled_perform_needs_target step _ Hwait Hblank) in Hr.
    injection Hr as <- <-. repeat split.
  - eexists _, _. split; [reflexivity |]. simpl.
    do 3 (split; [assumption || reflexivity |]).
    split; [left; split; reflexivity |].
    intros Hwait Hblank Hctx Hpage. exfalso.
    unfold body in Hr. unfold bind at 1 in Hr.
    rewrite (pw_ok NewContext s1 Hctx) in Hr. unfold bind at 1 in Hr.
    rewrite (pw_ok NewPage (set_ticks (S (ticks s1)) s1) Hpage) in Hr.
    unfold bind at 1 in Hr.
    rewrite (compiled_perform_needs_target step _ Hwait Hblank) in Hr.
    discriminate Hr.
Qed.

(** A hover without a target. *)
Lemma compiled_executeStep_never_throws_witness :
  exists sr s',
    Compiled.executeStep (mkStep Hover None None None) (launched fresh)
    = (Ok sr, s')
    /\ sr_status sr = StepFail
    /\ sr_error sr = Some "Target required for hover action".
Proof.
  destruct (compiled_executeStep_never_throws (mkStep Hover None None None)
              (launched fresh) Chromium eq_refl)
    as (sr & s' & Hrun & _ & _ & _ & _ & Htarget).
  exists sr, s'. split; [exact Hrun |].
  destruct Htarget as (Hst & Herr & _); try reflexivity; [discriminate |].
  split; assumption.
Defined.

(** ** Shutting down the browser *)

(** [BrowserAutomation.cleanup] closes the browser once.  Without a
    browser it does nothing.  When [browser.close()] resolves the field
    is [null] afterwards: a second [cleanup] makes no call, and the
    methods that need a browser ([executeStep] of the compiled copy,
    [captureScreenshot] and [collectMetrics] of both) reject with
    ["Browser not initialized"] without a call.  When [browser.close()]
    rejects, [cleanup] rejects and the field keeps the browser. *)
Theorem automation_cleanup_closes_once (s : State) :
  (browser s = None -> automation_cleanup s = (Ok tt, s))
  /\ (forall b,
        browser s = Some b ->
        playwright (env s) (ticks s) BrowserClose = None ->
        exists s',
          automation_cleanup s = (Ok tt, s')
          /\ browser s' = None
          /\ system s' = system s
          /\ ticks s' = S (ticks s)
          /\ automation_cleanup s' = (Ok tt, s')
          /\ (forall step,
                Compiled.executeStep step s'
                = (Throw (JsError "Browser not initialized"), s'))
          /\ (forall url selector,
                Compiled.captureScreenshot url selector s'
                = (Throw (JsError "Browser not initialized"), s'))
          /\ (forall url,
                Compiled.collectMetrics url s'
                = (Throw (JsError "Browser not initialized"), s')
                /\ Source.collectMetrics url s'
                   = (Throw (JsError "Browser not initialized"), s')))
  /\ (forall b e,
        browser s = Some b ->
        playwright (env s) (ticks s) BrowserClose = Some e ->
        exists s',
          automation_cleanup s = (Throw e, s')
          /\ browser s' = Some b
          /\ system s' = system s).
Proof.
  split; [| split].
  - intro Hb. unfold automation_cleanup.
    unfold bind, get_browser, this. rewrite Hb. reflexivity.
  - intros b Hb Hclose. unfold automation_cleanup.
    unfold bind at 1, get_browser, this. rewrite Hb.
    unfold bind at 1. rewrite (pw_ok _ _ Hclose).
    eexists. split; [reflexivity |].
    repeat split.
  - intros b e Hb Hclose. unfold automation_cleanup.
    unfold bind at 1, get_browser, this. rewrite Hb.
    unfold bind at 1. rewrite (pw_fails _ _ e Hclose).
    eexists. split; [reflexivity |]. split; [exact Hb | reflexivity].
Qed.

Lemma automation_cleanup_closes_once_witness :
  exists s',
    automation_cleanup (launched fresh) = (Ok tt, s')
    /\ browser s' = None
    /\ automation_cleanup s' = (Ok tt, s').
Proof.
  destruct (automation_cleanup_closes_once (launched fresh)) as (_ & H & _).
  destruct (H Chromium eq_refl eq_refl) as (s' & H1 & H2 & _ & _ & H3 & _).
  exists s'. auto.
Defined.

(** ** What a run reads of its test *)

Lemma bind_ext {A B} (m : M A) (k k' : A -> M B) (s : State) :
  (forall a s', k a s' = k' a s') -> bind m k s = bind m k' s.
Proof.
  intro H. unfold bind. destruct (m s) as [[a | e | w] s']; auto.
Qed.

Lemma compiled_run_steps_reads (t t' : Test) (steps : list AutomationStep) :
  test_id t = test_id t' ->
  assert_visual t = assert_visual t' ->
  forall p s, Compiled.run_steps t steps p s = Compiled.run_steps t' steps p s.
Proof.
  intros Hid Hvis. induction steps as [| step rest IH]; intros p s; simpl.
  - reflexivity.
  - apply bind_ext. intros [error | stepResult] s1; [reflexivity |].
    destruct (sr_status stepResult); [| reflexivity].
    rewrite <- Hvis. destruct (assert_visual t); [| apply IH].
    rewrite <- Hid. unfold analyzeScreenshot.
    apply bind_ext. intros [error | analysis] s2; [reflexivity | apply IH].
Qed.

(** A run reads little of its test.  In the source the result and what
    [runTest] leaves behind depend on the test's id, its target URL, its
    steps and the performance toggle only: nothing of the [visual]
    section and neither of the other two toggles is looked at.  In the
    compiled copy the run up to its [finally] block depends on the id,
    the steps and the visual and performance toggles only: not on the
    target URL, which no call receives, and not on the instructions and
    expectations. *)
Theorem runs_read_four_fields (t t' : Test) (s : State) :
  test_id t = test_id t' ->
  automation_steps t = automation_steps t' ->
  assert_performance t = assert_performance t' ->
  (target_url t = target_url t' ->
   Source.produce t s = Source.produce t' s
   /\ Source.runTest t s = Source.runTest t' s)
  /\ (assert_visual t = assert_visual t' ->
      Compiled.produce t s = Compiled.produce t' s).
Proof.
  intros Hid Hsteps Hperf. split.
  - intro Hurl.
    assert (Hp : forall s0, Source.produce t s0 = Source.produce t' s0).
    { intro s0. unfold Source.produce, Source.run_body.
      rewrite Hid, Hsteps, Hperf, Hurl. reflexivity. }
    split; [apply Hp |].
    unfold Source.runTest, bind. rewrite Hp. reflexivity.
  - intro Hvis.
    unfold Compiled.produce. rewrite !bind_now, !bind_uuid.
    unfold Compiled.run_body. rewrite Hid, Hsteps, Hperf.
    unfold bind.
    rewrite (compiled_run_steps_reads t t' (automation_steps t') Hid Hvis).
    reflexivity.
Qed.

(** Another site, other instructions, the same steps. *)
Lemma runs_read_four_fields_witness :
  Compiled.produce
    (mkTest "v" "Other" "" "https://example.org/shop" (Some "https://example.org")
            "Compare with the mock-up" [] [] [] "base.png" 0.5%float
            [click_login] true false false)
    (launched fresh)
  = Compiled.produce visual_click_test (launched fresh).
Proof.
  destruct (runs_read_four_fields
              (mkTest "v" "Other" "" "https://example.org/shop"
                      (Some "https://example.org")
                      "Compare with the mock-up" [] [] [] "base.png" 0.5%float
                      [click_login] true false false)
              visual_click_test (launched fresh) eq_refl eq_refl eq_refl)
    as [_ H].
  apply H. reflexivity.
Defined.

(** ** When saving fails *)

Lemma busy_step (c : Copy) (ev : Event) (sc sc' : Sched) :
  phase (current (snapshot sc)) = RunningPhase ->
  inflight sc = [] ->
  sched_step c ev sc = Some sc' ->
  phase (current (snapshot sc')) = RunningPhase
  /\ inflight sc' = []
  /\ started sc' = started sc
  /\ results (current (snapshot sc')) = results (current (snapshot sc))
  /\ running (queue (snapshot sc')) = running (queue (snapshot sc))
  /\ completed (queue (snapshot sc')) = completed (queue (snapshot sc))
  /\ failed (queue (snapshot sc')) = failed (queue (snapshot sc))
  /\ analytics (snapshot sc') = analytics (snapshot sc).
Proof.
  intros Hphase Hfl. destruct ev as [test | | run result | shot]; simpl.
  - intro H. injection H as <-. simpl. auto 10.
  - rewrite processQueue_head_busy by (rewrite Hphase; discriminate).
    intro H. injection H as <-. auto 10.
  - rewrite Hfl. destruct run; discriminate.
  - intro H. injection H as <-. simpl. auto 10.
Qed.

Lemma busy_run (c : Copy) (evs : list Event) :
  forall sc sc',
    phase (current (snapshot sc)) = RunningPhase ->
    inflight sc = [] ->
    sched_run c evs sc = Some sc' ->
    phase (current (snapshot sc')) = RunningPhase
    /\ inflight sc' = []
    /\ started sc' = started sc
    /\ results (current (snapshot sc')) = results (current (snapshot sc))
    /\ running (queue (snapshot sc')) = running (queue (snapshot sc))
    /\ completed (queue (snapshot sc')) = completed (queue (snapshot sc))
    /\ failed (queue (snapshot sc')) = failed (queue (snapshot sc))
    /\ analytics (snapshot sc') = analytics (snapshot sc).
Proof.
  induction evs as [| ev rest IH]; intros sc sc' Hphase Hfl; simpl.
  - intro H. injection H as <-. auto 10.
  - destruct (sched_step c ev sc) as [sc1 |] eqn:Hstep; [| discriminate].
    destruct (busy_step c ev sc sc1 Hphase Hfl Hstep)
      as (H1 & H2 & H3 & H4 & H5 & H6 & H7 & H8).
    intro Hrun.
    destruct (IH sc1 sc' H1 H2 Hrun) as (I1 & I2 & I3 & I4 & I5 & I6 & I7 & I8).
    repeat split; congruence.
Qed.

(** [processQueue] marks the head of [pending] as running before it
    awaits [saveState], and nothing undoes that when the save rejects.
    In both copies [processQueue] then rejects with the error of the
    save and leaves the phase ["running"] with the test in [running],
    though no run was started.  From there on, through every schedule of
    later requests, the phase stays ["running"]: no test is ever taken
    from [pending] again, and results, [completed], [failed] and the
    analytics never change. *)
Theorem failed_save_wedges_the_queue (c : Copy) (s s1 : State) (t : Test)
  (sys' : TestingSystem) (e : exn) :
  processQueue_head (system s) = Some (t, sys') ->
  saveState (set_system sys' s) = (Throw e, s1) ->
  Source.processQueue s = (Throw e, s1)
  /\ Compiled.processQueue s = (Throw e, s1)
  /\ system s1 = sys'
  /\ phase (current sys') = RunningPhase
  /\ running (queue sys') = running (queue (system s)) ++ [t]
  /\ forall evs enq st sc',
       sched_run c evs (mkSched sys' [] enq st) = Some sc' ->
       phase (current (snapshot sc')) = RunningPhase
       /\ started sc' = st
       /\ processQueue_head (snapshot sc') = None
       /\ results (current (snapshot sc')) = results (current sys')
       /\ completed (queue (snapshot sc')) = completed (queue sys')
       /\ failed (queue (snapshot sc')) = failed (queue sys')
       /\ analytics (snapshot sc') = analytics sys'.
Proof.
  intros Hhead Hsave.
  destruct (processQueue_head_inv _ _ _ Hhead)
    as (_ & _ & Hrunning & _ & _ & Hphase & _).
  split; [| split; [| split; [| split; [exact Hphase | split; [exact Hrunning |]]]]].
  - unfold Source.processQueue. unfold bind at 1, get_system, this.
    rewrite Hhead. unfold bind at 1, modify_system.
    unfold bind at 1. rewrite Hsave. reflexivity.
  - unfold Compiled.processQueue. unfold bind at 1, get_system, this.
    simpl Compiled.processQueue_fuel. unfold bind at 1, get_system, this.
    rewrite Hhead. unfold bind at 1, modify_system.
    unfold bind at 1. rewrite Hsave. reflexivity.
  - pose proof (quiet_saveState (set_system sys' s)) as [Hsys _].
    rewrite Hsave in Hsys. exact Hsys.
  - intros evs enq st sc' Hrun.
    destruct (busy_run c evs (mkSched sys' [] enq st) sc' Hphase eq_refl Hrun)
      as (H1 & _ & H3 & H4 & _ & H6 & H7 & H8).
    split; [exact H1 |]. split; [exact H3 |].
    split; [| auto].
    apply processQueue_head_busy. rewrite H1. discriminate.
Qed.

(** Nothing can be written; one test is pending. *)
Lemma failed_save_wedges_the_queue_witness :
  exists s1,
    Compiled.processQueue (one_pending read_only_env)
    = (Throw (JsError "EROFS: read-only file system"), s1)
    /\ phase (current (system s1)) = RunningPhase
    /\ results (current (system s1)) = [].
Proof.
  destruct (processQueue_head (system (one_pending read_only_env)))
    as [[t sys'] |] eqn:Hhead; [| discriminate Hhead].
  assert (Hsave : saveState (set_system sys' (one_pending read_only_env))
                  = (Throw (JsError "EROFS: read-only file system"),
                     snd (saveState (set_system sys' (one_pending read_only_env)))))
    by reflexivity.
  destruct (failed_save_wedges_the_queue CompiledCopy _ _ t sys' _ Hhead Hsave)
    as (_ & Hc & Hsys & Hphase & _).
  eexists. split; [exact Hc |]. rewrite Hsys. split; [exact Hphase |].
  injection Hhead as _ <-. reflexivity.
Defined.

(** ** The routes *)

Lemma keeps_stop {A B} (field : State -> B) (w : abort) :
  keeps field (@stop A w).
Proof. intro s. reflexivity. Qed.

Lemma keeps_cast {A B} (field : State -> B) (o : option A) :
  keeps field (cast o).
Proof. destruct o; intro s; reflexivity. Qed.

#[local] Hint Resolve keeps_stop keeps_cast : keeps.

Lemma keeps_system_build_steps (steps : list json) :
  keeps system (Server.build_steps steps).
Proof.
  induction steps as [| step rest IH]; simpl; [apply keeps_ret |].
  destruct step; try apply keeps_throw;
    (apply keeps_bind; [apply keeps_cast | intro];
     apply keeps_bind; [exact IH | intro; apply keeps_ret]).
Qed.

#[local] Hint Resolve keeps_system_build_steps : keeps.

Lemma keeps_system_build_test (body : json) :
  keeps system (Server.build_test body).
Proof. unfold Server.build_test. keeps_auto. Qed.

Lemma source_queueTest_holds (t : Test) (s s' : State) :
  Source.queueTest t s = (Ok tt, s') ->
  In t (pending (queue (system s')) ++ running (queue (system s'))).
Proof.
  unfold Source.queueTest. unfold bind at 1, modify_system.
  set (s1 := set_system (queueTest_push t (system s)) s).
  destruct (saveState_cases s1) as (o & s2 & Hsave & Hsys2 & [-> | [e ->]]);
    unfold bind at 1; rewrite Hsave; [| discriminate].
  assert (Hin : In t (pending (queue (system s2)))).
  { rewrite Hsys2. simpl. apply in_or_app. right. left. reflexivity. }
  unfold Source.processQueue. unfold bind at 1, get_system, this.
  destruct (processQueue_head (system s2)) as [[t' sys'] |] eqn:Hhead.
  - destruct (processQueue_head_inv _ _ _ Hhead)
      as (_ & Hpending & Hrunning & _).
    assert (Hin' : In t (pending (queue sys') ++ running (queue sys'))).
    { rewrite Hpending in Hin. apply in_or_app. destruct Hin as [<- | Hin].
      - right. rewrite Hrunning. apply in_or_app. right. left. reflexivity.
      - left. exact Hin. }
    unfold bind at 1, modify_system.
    set (s3 := set_system sys' s2).
    destruct (saveState_cases s3) as (o & s4 & Hsave3 & Hsys4 & [-> | [e ->]]);
      unfold bind at 1; rewrite Hsave3; [| discriminate].
    destruct (source_runTest_frame t' s4) as (r & s5 & Hrun & _ & Hq & _).
    unfold bind, ret. rewrite Hrun.
    intro H. injection H as <-. rewrite Hq, Hsys4. exact Hin'.
  - unfold ret. intro H. injection H as <-.
    apply in_or_app. left. exact Hin.
Qed.

Lemma get_state_answers (s : State) :
  Routes.get_state s = (Ok (mkResponse 200 (enc_system (system s))), s).
Proof. reflexivity. Qed.

Lemma bind_inv {A B} (m : M A) (k : A -> M B) (s s' : State) (b : B) :
  bind m k s = (Ok b, s') ->
  exists a s0, m s = (Ok a, s0) /\ k a s0 = (Ok b, s').
Proof.
  unfold bind. destruct (m s) as [[a | e | w] s0]; try discriminate.
  intro H. exists a, s0. split; [reflexivity | exact H].
Qed.

Lemma build_test_id (body : json) (s s1 : State) (t : Test) :
  Server.build_test body s = (Ok t, s1) ->
  test_id t = uuidv4 (env s) (ticks s) /\ system s1 = system s.
Proof.
  intro H. split.
  - unfold Server.build_test in H. rewrite bind_uuid in H.
    repeat (apply bind_inv in H; destruct H as (? & ? & _ & H)).
    unfold ret in H. injection H as <- _. reflexivity.
  - pose proof (keeps_system_build_test body s) as Hk.
    rewrite H in Hk. exact Hk.
Qed.

Lemma post_test_200_inv (body : json) (s s' : State) (id : string) :
  Server.post_test body s = (Ok (Server.queued id), s') ->
  exists t s1,
    Server.build_test body s = (Ok t, s1)
    /\ Source.queueTest t s1 = (Ok tt, s')
    /\ test_id t = id.
Proof.
  unfold Server.post_test.
  assert (Hgo : try_catch
                  (if negb (Server.validateTest body)
                   then ret Server.invalid_format
                   else (test <- Server.build_test body ;;
                         Source.queueTest test ;;
                         ret (Server.queued (test_id test)))%async)
                  (fun error => ret Server.failed_to_queue) s
                = (Ok (Server.queued id), s') ->
                exists t s1,
                  Server.build_test body s = (Ok t, s1)
                  /\ Source.queueTest t s1 = (Ok tt, s')
                  /\ test_id t = id).
  { unfold try_catch.
    destruct (Server.validateTest body); cbn [negb]; [| discriminate].
    unfold bind at 1.
    destruct (Server.build_test body s) as [[t | e | w] s1];
      try discriminate.
    unfold bind at 1.
    destruct (Source.queueTest t s1) as [[[] | e | w] s2] eqn:Hq;
      try discriminate.
    unfold ret. intro H. injection H as Hid <-.
    exists t, s1. auto. }
  destruct body; try exact Hgo. discriminate.
Qed.

(** A [200] from [POST /test] of the TypeScript server names the id that
    [uuidv4()] gave, and the test with that id is in the snapshot, in
    [pending] or in [running]; a [GET /state] that follows changes
    nothing and answers that snapshot, from which, when the numbers of
    the snapshot are all JSON-representable, the snapshot can be read
    back. *)
Theorem post_test_then_get_state (body : json) (s s' : State) (id : string) :
  Server.post_test body s = (Ok (Server.queued id), s') ->
  id = uuidv4 (env s) (ticks s)
  /\ In id (map test_id (pending (queue (system s'))
                         ++ running (queue (system s'))))
  /\ Routes.get_state s' = (Ok (mkResponse 200 (enc_system (system s'))), s')
  /\ (system_ok (system s') = true ->
      dec_system (enc_system (system s')) = Some (system s')).
Proof.
  intro Hpost.
  destruct (post_test_200_inv body s s' id Hpost) as (t & s1 & Hbuild & Hq & <-).
  destruct (build_test_id body s s1 t Hbuild) as [Hid _].
  split; [exact Hid |].
  split; [apply in_map, (source_queueTest_holds t s1 s' Hq) |].
  split; [apply get_state_answers | apply dec_enc_system].
Qed.

Lemma post_test_then_get_state_witness :
  exists s',
    Server.post_test body_without_toggles (launched fresh)
    = (Ok (Server.queued "uuid-"), s')
    /\ In "uuid-" (map test_id (pending (queue (system s'))
                                ++ running (queue (system s'))))
    /\ Routes.get_state s' = (Ok (mkResponse 200 (enc_system (system s'))), s').
Proof.
  eexists.
  assert (H : Server.post_test body_without_toggles (launched fresh)
              = (Ok (Server.queued "uuid-"),
                 snd (Server.post_test body_without_toggles (launched fresh))))
    by (vm_compute; reflexivity).
  destruct (post_test_then_get_state _ _ _ _ H) as (_ & Hin & Hget & _).
  split; [exact H |]. split; assumption.
Defined.

(** [queueTest] appends the test to [pending] before it awaits
    [saveState].  When that save rejects, [POST /test] answers [500]
    ["Failed to queue test"], in both servers, and yet the test is in
    [pending] in memory: it is run once the queue gets to it, and a
    client that posts it again has it run twice. *)
Theorem post_test_500_yet_enqueued (body : json) (s s1 s2 : State) (t : Test)
  (e : exn) :
  (body <> JNull ->
   Server.validateTest body = true ->
   Server.build_test body s = (Ok t, s1) ->
   saveState (set_system (queueTest_push t (system s1)) s1) = (Throw e, s2) ->
   Server.post_test body s = (Ok Server.failed_to_queue, s2)
   /\ http_status Server.failed_to_queue = 500%Z
   /\ pending (queue (system s2)) = pending (queue (system s)) ++ [t])
  /\ (dec_test (CompiledServer.assign_id (uuidv4 (env s) (ticks s)) body) = Some t ->
      saveState (set_system (queueTest_push t (system s))
                            (set_ticks (S (ticks s)) s)) = (Throw e, s2) ->
      CompiledServer.post_test body s = (Ok Server.failed_to_queue, s2)
      /\ pending (queue (system s2)) = pending (queue (system s)) ++ [t]).
Proof.
  split.
  - intros Hbody Hvalid Hbuild Hsave.
    destruct (build_test_id body s s1 t Hbuild) as [_ Hsys1].
    pose proof (quiet_saveState (set_system (queueTest_push t (system s1)) s1))
      as [Hsys2 _].
    rewrite Hsave in Hsys2. simpl in Hsys2.
    split; [| split; [reflexivity | rewrite Hsys2, Hsys1; reflexivity]].
    unfold Server.post_test.
    assert (Hgo : try_catch
                    (if negb (Server.validateTest body)
                     then ret Server.invalid_format
                     else (test <- Server.build_test body ;;
                           Source.queueTest test ;;
                           ret (Server.queued (test_id test)))%async)
                    (fun error => ret Server.failed_to_queue) s
                  = (Ok Server.failed_to_queue, s2)).
    { unfold try_catch. rewrite Hvalid. cbn [negb].
      unfold bind at 1. rewrite Hbuild.
      unfold bind at 1. unfold Source.queueTest.
      unfold bind at 1, modify_system. unfold bind at 1.
      rewrite Hsave. reflexivity. }
    destruct body; try exact Hgo. congruence.
  - intros Hdec Hsave.
    pose proof (quiet_saveState (set_system (queueTest_push t (system s))
                                            (set_ticks (S (ticks s)) s)))
      as [Hsys2 _].
    rewrite Hsave in Hsys2. simpl in Hsys2.
    split; [| rewrite Hsys2; reflexivity].
    unfold CompiledServer.post_test, try_catch. rewrite bind_uuid.
    rewrite Hdec. unfold cast. unfold bind at 1, ret at 1.
    unfold bind at 1. unfold Compiled.queueTest.
    unfold bind at 1, modify_system. unfold bind at 1.
    cbn [system set_ticks]. rewrite Hsave. reflexivity.
Qed.

(** Nothing can be written. *)
Lemma post_test_500_yet_enqueued_witness :
  exists s2,
    Server.post_test body_without_toggles
      (launched (new_TestOrchestrator read_only_env "./test-state.json"))
    = (Ok Server.failed_to_queue, s2)
    /\ map test_id (pending (queue (system s2))) = ["uuid-"].
Proof.
  set (s := launched (new_TestOrchestrator read_only_env "./test-state.json")).
  destruct (Server.build_test body_without_toggles s) as [[t | e | w] s1]
    eqn:Hbuild; try (vm_compute in Hbuild; discriminate Hbuild).
  destruct (saveState (set_system (queueTest_push t (system s1)) s1))
    as [[[] | e | w] s2] eqn:Hsave.
  - exfalso. vm_compute in Hbuild. injection Hbuild as <- <-.
    vm_compute in Hsave. discriminate Hsave.
  - destruct (post_test_500_yet_enqueued body_without_toggles s s1 s2 t e)
      as [H _].
    destruct H as (Hpost & _ & Hpending);
      [discriminate | reflexivity | exact Hbuild | exact Hsave |].
    exists s2. split; [exact Hpost |].
    rewrite Hpending. vm_compute in Hbuild. injection Hbuild as <- _.
    reflexivity.
  - exfalso. vm_compute in Hbuild. injection Hbuild as <- <-.
    vm_compute in Hsave. discriminate Hsave.
Defined.







Lemma assoc_app (k : string) (l l' : list (string * json)) :
  assoc k (l ++ l')
  = match assoc k l with
    | Some v => Some v
    | None => assoc k l'
    end.
Proof.
  induction l as [| [k' v] rest IH]; simpl; [reflexivity |].
  destruct (String.eqb k k'); [reflexivity | exact IH].
Qed.

(** [POST /message] has no effect: [broadcastMessage] only logs.  The
    answer is always [200]; it names the id of the body when the body has
    one and the generated id otherwise; the snapshot, the disk and the
    browser are as before. *)
Theorem post_message_changes_nothing (body : json) (s : State) :
  exists r s',
    Routes.post_message body s = (Ok r, s')
    /\ http_status r = 200%Z
    /\ prop "success" (http_body r) = Some (JBool true)
    /\ prop "messageId" (http_body r)
       = match prop "id" body with
         | Some v => Some v
         | None => Some (JStr (uuidv4 (env s) (ticks s)))
         end
    /\ system s' = system s
    /\ disk s' = disk s
    /\ browser s' = browser s
    /\ ticks s' = 2 + ticks s.
Proof.
  unfold Routes.post_message, try_catch. rewrite bind_uuid, bind_now.
  unfold Routes.broadcastMessage, bind, ret.
  eexists _, _. split; [reflexivity |]. split; [reflexivity |].
  split; [reflexivity |]. split; [| repeat split].
  cbn [http_body].
  match goal with
  | |- context [enc_opt _ _ (prop "id" ?m)] =>
      assert (Hid : prop "id" m
                    = match prop "id" body with
                      | Some v => Some v
                      | None => Some (JStr (uuidv4 (env s) (ticks s)))
                      end)
  end.
  { destruct body as [| b | z | f | str | items | fields]; try reflexivity.
    cbn [prop]. rewrite assoc_app.
    destruct (assoc "id" fields); reflexivity. }
  rewrite Hid. destruct (prop "id" body); reflexivity.
Qed.

(** ** The analytics *)

Lemma issue_count_count_issue (type d : string) (l : list (string * nat)) :
  issue_count type (count_issue d l)
  = issue_count type l + (if String.eqb d type then 1 else 0).
Proof.
  induction l as [| [k n] rest IH]; simpl.
  - destruct (String.eqb d type); reflexivity.
  - destruct (String.eqb k d) eqn:Hkd; simpl.
    + apply String.eqb_eq in Hkd. subst k.
      destruct (String.eqb d type); lia.
    + destruct (String.eqb k type) eqn:Hkt; [| exact IH].
      apply String.eqb_eq in Hkt. subst k. rewrite String.eqb_sym, Hkd. lia.
Qed.

Lemma list_sum_count_issue (d : string) (l : list (string * nat)) :
  list_sum (map snd (count_issue d l)) = S (list_sum (map snd l)).
Proof.
  induction l as [| [k n] rest IH]; simpl; [reflexivity |].
  destruct (String.eqb k d); simpl; [reflexivity | rewrite IH; lia].
Qed.

Lemma keys_count_issue (d : string) (l : list (string * nat)) :
  map fst (count_issue d l)
  = if existsb (fun c => String.eqb (fst c) d) l
    then map fst l
    else map fst l ++ [d].
Proof.
  induction l as [| [k n] rest IH]; simpl; [reflexivity |].
  destruct (String.eqb k d); simpl; [reflexivity |].
  rewrite IH. destruct (existsb _ rest); reflexivity.
Qed.

Lemma NoDup_count_issue (d : string) (l : list (string * nat)) :
  NoDup (map fst l) -> NoDup (map fst (count_issue d l)).
Proof.
  intro Hnd. rewrite keys_count_issue.
  destruct (existsb (fun c => String.eqb (fst c) d) l) eqn:Hex; [exact Hnd |].
  apply NoDup_app; [exact Hnd | repeat constructor; intros [] | ].
  intros k Hin [Hk | []]. subst k. apply in_map_iff in Hin as (c & Hk & Hin).
  assert (Htrue : existsb (fun c => String.eqb (fst c) d) l = true).
  { apply existsb_exists. exists c. split; [exact Hin |].
    rewrite Hk. apply String.eqb_refl. }
  congruence.
Qed.

Lemma updateAnalytics_issues (result : TestResult) (sys : TestingSystem) :
  commonIssues (analytics (updateAnalytics result sys))
  = fold_left (fun acc issue => count_issue (issue_description issue) acc)
              (va_issues (tr_visualAnalysis result))
              (commonIssues (analytics sys)).
Proof.
  unfold updateAnalytics. simpl.
  destruct (va_issues (tr_visualAnalysis result)); reflexivity.
Qed.

(** [updateAnalytics] keeps a tally of the issues by description.  For
    every description, the count the analytics hold for it grows by the
    number of issues of the result that carry it; the counts together
    grow by the number of issues; an entry is never removed or moved, new
    ones are appended; and when no type occurred twice before, none does
    afterwards. *)
Theorem updateAnalytics_tallies_issues (result : TestResult)
  (sys : TestingSystem) (type : string) :
  let issues := va_issues (tr_visualAnalysis result) in
  let before := commonIssues (analytics sys) in
  let after := commonIssues (analytics (updateAnalytics result sys)) in
  issue_count type after = issue_count type before + described type issues
  /\ list_sum (map snd after) = list_sum (map snd before) + List.length issues
  /\ (exists added, map fst after = map fst before ++ added)
  /\ (NoDup (map fst before) -> NoDup (map fst after)).
Proof.
  cbv zeta. rewrite updateAnalytics_issues.
  generalize (commonIssues (analytics sys)) as l.
  induction (va_issues (tr_visualAnalysis result)) as [| issue rest IH];
    intro l; simpl.
  - unfold described. simpl. rewrite !Nat.add_0_r.
    repeat split; auto. exists []. rewrite app_nil_r. reflexivity.
  - destruct (IH (count_issue (issue_description issue) l))
      as (Hcount & Hsum & [added Hkeys] & Hnd).
    split; [| split; [| split]].
    + rewrite Hcount, issue_count_count_issue. unfold described. simpl.
      destruct (String.eqb (issue_description issue) type); simpl; lia.
    + rewrite Hsum, list_sum_count_issue. lia.
    + rewrite Hkeys, keys_count_issue.
      destruct (existsb _ l); [exists added; reflexivity |].
      exists (issue_description issue :: added). rewrite <- app_assoc.
      reflexivity.
    + intro H. apply Hnd, NoDup_count_issue, H.
Qed.

Lemma updateAnalytics_tallies_issues_witness :
  commonIssues
    (analytics (updateAnalytics result_with_issues createInitialSystem))
  = [("Header overlaps the navigation", 2); ("Low contrast", 1)]
  /\ NoDup (map fst (commonIssues
                       (analytics (updateAnalytics result_with_issues
                                     createInitialSystem)))).
Proof.
  split; [reflexivity |].
  destruct (updateAnalytics_tallies_issues result_with_issues
              createInitialSystem "Low contrast") as (_ & _ & _ & H).
  apply H. constructor.
Defined.

Lemma average_inv_finally (t : Test) (r : TestResult) (sys : TestingSystem) :
  average_inv sys -> average_inv (Compiled.runTest_finally t r sys).
Proof.
  intros [Hruns _].
  assert (Hlen : List.length (results (current sys) ++ [r])
                 = S (List.length (results (current sys)))).
  { rewrite length_app. simpl. lia. }
  unfold Compiled.runTest_finally, average_inv, mean_duration.
  destruct (Compiled.status_is_pass (tr_status r)); simpl;
    rewrite Hlen, Hruns; split; reflexivity.
Qed.

Lemma average_inv_step (ev : Event) (sc sc' : Sched) :
  average_inv (snapshot sc) -> sched_step CompiledCopy ev sc = Some sc' ->
  average_inv (snapshot sc').
Proof.
  intros Hinv Hstep.
  destruct ev as [test | | run result | shot]; simpl in Hstep.
  - injection Hstep as <-. exact Hinv.
  - destruct (processQueue_head (snapshot sc)) as [[t sys'] |] eqn:Hhead.
    + injection Hstep as <-. simpl.
      unfold processQueue_head in Hhead.
      destruct (negb _); [discriminate |].
      destruct (pending (queue (snapshot sc))); [discriminate |].
      injection Hhead as _ <-. exact Hinv.
    + injection Hstep as <-. exact Hinv.
  - destruct (nth_error (inflight sc) run) as [t |]; [| discriminate].
    injection Hstep as <-. simpl. apply average_inv_finally. exact Hinv.
  - injection Hstep as <-. exact Hinv.
Qed.

(** In the compiled copy, along every schedule from the initial
    snapshot, once a run has ended [averageDuration] is the mean of the
    durations of all the results recorded: their sum divided by their
    number, in double arithmetic. *)
Theorem compiled_average_duration (evs : list Event) (sc : Sched) :
  sched_run CompiledCopy evs sched_init = Some sc ->
  let runs := results (current (snapshot sc)) in
  runs <> [] ->
  averageDuration (analytics (snapshot sc))
  = (num_of_Z (sum_durations runs) / num_of_nat (List.length runs))%float.
Proof.
  intros Hrun runs. subst runs.
  assert (Hinv : average_inv (snapshot sc)).
  { assert (Hinit : average_inv (snapshot sched_init)).
    { split; [reflexivity |]. intro H. exfalso. apply H. reflexivity. }
    revert Hinit Hrun. generalize sched_init as sc0.
    induction evs as [| ev rest IH]; intros sc0 Hinit Hrun; simpl in Hrun.
    - injection Hrun as <-. exact Hinit.
    - destruct (sched_step CompiledCopy ev sc0) as [sc1 |] eqn:Hstep;
        [| discriminate].
      apply (IH sc1); [| exact Hrun].
      apply (average_inv_step ev sc0); assumption. }
  destruct Hinv as [_ Havg]. exact Havg.
Qed.

Lemma compiled_average_duration_witness :
  averageDuration (analytics (snapshot two_tests_final)) = 5%float.
Proof.
  rewrite (compiled_average_duration two_tests_schedule two_tests_final
             two_tests_run); [reflexivity | discriminate].
Defined.

(** ** Cleaning the screenshot folder *)

Lemma mtimeMs_skips (file : string) (done todo : Folder) :
  ~ In file (map fst done) ->
  mtimeMs file (done ++ todo) = mtimeMs file todo.
Proof.
  induction done as [| [name m] rest IH]; simpl; [reflexivity |].
  intro Hnot. destruct (String.eqb name file) eqn:Heq.
  - apply String.eqb_eq in Heq. exfalso. apply Hnot. left. exact Heq.
  - apply IH. intro H. apply Hnot. right. exact H.
Qed.

Lemma unlink_skips (file : string) (done todo : Folder) :
  ~ In file (map fst done) ->
  unlink file (done ++ todo) = done ++ unlink file todo.
Proof.
  induction done as [| [name m] rest IH]; simpl; [reflexivity |].
  intro Hnot. destruct (String.eqb name file) eqn:Heq.
  - apply String.eqb_eq in Heq. exfalso. apply Hnot. left. exact Heq.
  - f_equal. apply IH. intro H. apply Hnot. right. exact H.
Qed.

Lemma attempt_folder_call (faults : FolderFaults) (c : FolderCall) (s : State) :
  attempt (folder_call faults c) s
  = (Ok match faults (ticks s) c with
        | Some e => inl e
        | None => inr tt
        end, set_ticks (S (ticks s)) s).
Proof.
  unfold attempt, folder_call, bind, observe, ret, throw.
  destruct (faults (ticks s) c); reflexivity.
Qed.

(** The loop, over the entries [todo] that are left, with the entries
    [done] it has kept. *)
Lemma cleanup_files_spec (faults : FolderFaults) (now : Z) (todo : Folder) :
  forall done s,
    NoDup (map fst (done ++ todo)) ->
    exists kept err s',
      cleanup_files faults now (map fst todo) (done ++ todo) s
      = (Ok (done ++ kept, err), s')
      /\ system s' = system s
      /\ browser s' = browser s
      /\ env s' = env s
      /\ (forall entry, In entry kept -> In entry todo)
      /\ (forall entry, In entry todo -> expired now (snd entry) = false ->
                        In entry kept)
      /\ (err = None ->
          kept = filter (fun entry => negb (expired now (snd entry))) todo)
      /\ ((forall n c, faults n c = None) -> err = None).
Proof.
  induction todo as [| [file m] rest IH]; intros done s Hnd.
  - exists [], None, s. simpl. repeat split; auto.
  - assert (Hfresh : ~ In file (map fst done)).
    { rewrite map_app in Hnd. simpl in Hnd.
      apply NoDup_remove_2 in Hnd. intro H. apply Hnd.
      apply in_or_app. left. exact H. }
    simpl map. simpl cleanup_files.
    unfold bind at 1, this. unfold bind at 1, with_env.
    unfold bind at 1. rewrite attempt_folder_call.
    destruct (faults (ticks s) (Stat file)) as [e |] eqn:Hstat.
    + exists ((file, m) :: rest), (Some e), (set_ticks (S (ticks s)) s).
      split; [reflexivity |]. repeat split; auto; try discriminate.
      intro H. rewrite H in Hstat. discriminate Hstat.
    + rewrite (mtimeMs_skips file done _ Hfresh). cbn [mtimeMs].
      rewrite String.eqb_refl.
      destruct (expired now m) eqn:Hexp.
      * unfold bind at 1. rewrite attempt_folder_call.
        match goal with
        | |- context [faults ?n (Unlink file)] =>
            destruct (faults n (Unlink file)) as [e |] eqn:Hunlink
        end.
        -- eexists ((file, m) :: rest), (Some e), _.
           split; [reflexivity |]. repeat split; auto; try discriminate.
           intro H. cbn [ticks set_ticks] in Hunlink.
           rewrite H in Hunlink. discriminate Hunlink.
        -- unfold bind at 1.
           rewrite (unlink_skips file done _ Hfresh). cbn [unlink].
           rewrite String.eqb_refl.
           assert (Hnd' : NoDup (map fst (done ++ rest))).
           { rewrite map_app in *. simpl in Hnd.
             apply NoDup_remove_1 in Hnd. exact Hnd. }
           match goal with
           | |- context [cleanup_files _ _ _ _ ?s0] =>
               destruct (IH done s0 Hnd')
                 as (kept & err & s' & Hrun & Hsys & Hb & Henv & Hsub & Hyoung
                     & Hall & Hnone)
           end.
           exists kept, err, s'. split; [exact Hrun |].
           split; [exact Hsys |]. split; [exact Hb |]. split; [exact Henv |].
           split; [intros entry H; right; apply Hsub, H |].
           split.
           { intros entry [<- | Hin] Hy; [simpl in Hy; congruence |].
             apply Hyoung; assumption. }
           split; [| exact Hnone].
           intro Herr. simpl. rewrite Hexp. simpl. apply Hall, Herr.
      * assert (Hnd' : NoDup (map fst ((done ++ [(file, m)]) ++ rest)))
          by (rewrite <- app_assoc; exact Hnd).
        destruct (IH (done ++ [(file, m)]) (set_ticks (S (ticks s)) s) Hnd')
          as (kept & err & s' & Hrun & Hsys & Hb & Henv & Hsub & Hyoung
              & Hall & Hnone).
        rewrite <- !app_assoc in Hrun. simpl app in Hrun.
        exists ((file, m) :: kept), err, s'. split; [exact Hrun |].
        split; [exact Hsys |]. split; [exact Hb |]. split; [exact Henv |].
        split; [intros entry [<- | H]; [left; reflexivity | right; apply Hsub, H] |].
        split.
        { intros entry [<- | Hin] Hy; [left; reflexivity |].
          right. apply Hyoung; assumption. }
        split; [| exact Hnone].
        intro Herr. simpl. rewrite Hexp. simpl. f_equal. apply Hall, Herr.
Qed.

Lemma visual_cleanup_spec (faults : FolderFaults) (folder : Folder) (s : State) :
  NoDup (map fst folder) ->
  exists kept err s',
    visual_cleanup faults folder s = (Ok (kept, err), s')
    /\ system s' = system s
    /\ browser s' = browser s
    /\ (forall entry, In entry kept -> In entry folder)
    /\ (forall entry,
          In entry folder ->
          expired (date_now (env s) (S (ticks s))) (snd entry) = false ->
          In entry kept)
    /\ (err = None ->
        kept = filter (fun entry =>
                         negb (expired (date_now (env s) (S (ticks s)))
                                       (snd entry))) folder)
    /\ ((forall n c, faults n c = None) -> err = None).
Proof.
  intro Hnd. unfold visual_cleanup.
  unfold bind at 1. rewrite attempt_folder_call.
  destruct (faults (ticks s) Readdir) as [e |] eqn:Hread.
  - exists folder, (Some e), (set_ticks (S (ticks s)) s).
    split; [reflexivity |]. repeat split; auto; try discriminate.
    intro H. rewrite H in Hread. discriminate Hread.
  - rewrite bind_now.
    destruct (cleanup_files_spec faults
                (date_now (env (set_ticks (S (ticks s)) s))
                          (ticks (set_ticks (S (ticks s)) s)))
                folder [] (set_ticks (S (ticks (set_ticks (S (ticks s)) s)))
                                     (set_ticks (S (ticks s)) s)) Hnd)
      as (kept & err & s' & Hrun & Hsys & Hb & _ & Hsub & Hyoung & Hall & Hnone).
    exists kept, err, s'. split; [exact Hrun |]. auto 10.
Qed.

(** [VisualAnalysis.cleanup] reads the clock once and deletes by age.  It
    never deletes an entry of the screenshot folder that is not older
    than 24 hours at that time, whatever call fails, and it adds none.
    When no call fails it deletes every entry that is older and leaves
    the others in their order.  The snapshot and the browser are not
    touched. *)
Theorem visual_cleanup_deletes_by_age (faults : FolderFaults) (folder : Folder)
  (s : State) :
  NoDup (map fst folder) ->
  let now := date_now (env s) (S (ticks s)) in
  exists kept err s',
    visual_cleanup faults folder s = (Ok (kept, err), s')
    /\ system s' = system s
    /\ browser s' = browser s
    /\ (forall entry, In entry kept -> In entry folder)
    /\ (forall entry,
          In entry folder -> expired now (snd entry) = false -> In entry kept)
    /\ (err = None ->
        kept = filter (fun entry => negb (expired now (snd entry))) folder)
    /\ ((forall n c, faults n c = None) -> err = None).
Proof. exact (visual_cleanup_spec faults folder s). Qed.

Lemma visual_cleanup_deletes_by_age_witness :
  exists s',
    visual_cleanup no_faults sample_folder
      (launched (new_TestOrchestrator late_env "./test-state.json"))
    = (Ok ([("b_92eb5ffee6ae2fec.png", 1699999999000%float)], None), s').
Proof.
  destruct (visual_cleanup_deletes_by_age no_faults sample_folder
              (launched (new_TestOrchestrator late_env "./test-state.json")))
    as (kept & err & s' & Hrun & _ & _ & _ & _ & Hall & Hnone).
  - repeat constructor; simpl; intuition discriminate.
  - exists s'. rewrite Hrun.
    rewrite (Hnone (fun _ _ => eq_refl)) in *.
    rewrite (Hall eq_refl). reflexivity.
Defined.

(** [TestOrchestrator.cleanup] closes the browser first.  When
    [browser.close()] rejects, [cleanup] rejects with that error after
    that one call: the folder is not read and nothing is deleted.
    Otherwise the browser is [null] afterwards and the folder is cleaned
    as [VisualAnalysis.cleanup] does it, by age at the one reading of the
    clock that follows [readdir]: the second observation when there was
    no browser to close, the third when there was.  No entry that is not
    older than 24 hours at that reading is deleted, whatever call fails;
    every older one is when no call fails. *)
Theorem cleanup_closes_then_cleans (faults : FolderFaults) (folder : Folder)
  (s : State) :
  NoDup (map fst folder) ->
  (forall b e,
      browser s = Some b ->
      playwright (env s) (ticks s) BrowserClose = Some e ->
      exists s',
        cleanup faults folder s = (Throw e, s')
        /\ ticks s' = S (ticks s)
        /\ browser s' = Some b
        /\ disk s' = disk s)
  /\ (browser s = None \/ playwright (env s) (ticks s) BrowserClose = None ->
      let now :=
        date_now (env s)
                 match browser s with
                 | Some _ => 2 + ticks s
                 | None => 1 + ticks s
                 end in
      exists kept err s',
        cleanup faults folder s = (Ok (kept, err), s')
        /\ browser s' = None
        /\ system s' = system s
        /\ (forall entry, In entry kept -> In entry folder)
        /\ (forall entry,
              In entry folder -> expired now (snd entry) = false ->
              In entry kept)
        /\ (err = None ->
            kept = filter (fun entry => negb (expired now (snd entry))) folder)
        /\ ((forall n c, faults n c = None) -> err = None)).
Proof.
  intro Hnd. split.
  - intros b e Hb Hclose. unfold cleanup, automation_cleanup.
    unfold bind at 1. unfold bind at 1, get_browser, this. rewrite Hb.
    unfold bind at 1. rewrite (pw_fails _ _ e Hclose).
    eexists. split; [reflexivity |]. repeat split. exact Hb.
  - intro Hcase.
    assert (Hauto : exists s1,
               automation_cleanup s = (Ok tt, s1)
               /\ browser s1 = None /\ system s1 = system s
               /\ env s1 = env s
               /\ ticks s1 = match browser s with
                             | Some _ => 1 + ticks s
                             | None => ticks s
                             end).
    { unfold automation_cleanup. unfold bind at 1, get_browser, this.
      destruct (browser s) as [b |] eqn:Hb.
      - destruct Hcase as [Hcase | Hclose]; [discriminate |].
        unfold bind at 1. rewrite (pw_ok _ _ Hclose).
        eexists. repeat split.
      - exists s. repeat split. exact Hb. }
    destruct Hauto as (s1 & Hauto & Hb1 & Hsys1 & Henv1 & Hticks1).
    destruct (visual_cleanup_spec faults folder s1 Hnd)
      as (kept & err & s' & Hrun & Hsys & Hb & Hsub & Hyoung & Hall & Hnone).
    assert (Hnow : date_now (env s1) (S (ticks s1))
                   = date_now (env s)
                              match browser s with
                              | Some _ => 2 + ticks s
                              | None => 1 + ticks s
                              end).
    { rewrite Henv1, Hticks1. destruct (browser s); reflexivity. }
    rewrite Hnow in Hyoung, Hall. cbv zeta.
    exists kept, err, s'.
    split.
    { unfold cleanup. unfold bind at 1. rewrite Hauto. exact Hrun. }
    split; [congruence |]. split; [congruence |]. auto.
Qed.

Lemma sample_folder_names : NoDup (map fst sample_folder).
Proof. repeat constructor; simpl; intuition discriminate. Qed.

Lemma cleanup_closes_then_cleans_witness :
  exists s',
    cleanup no_faults sample_folder
      (launched (new_TestOrchestrator late_env "./test-state.json"))
    = (Ok (filter (fun entry => negb (expired 1700000000002 (snd entry)))
                  sample_folder, None), s')
    /\ filter (fun entry => negb (expired 1700000000002 (snd entry)))
              sample_folder
       = [("b_92eb5ffee6ae2fec.png", 1699999999000%float)]
    /\ browser s' = None.
Proof.
  destruct (cleanup_closes_then_cleans no_faults sample_folder
              (launched (new_TestOrchestrator late_env "./test-state.json"))
              sample_folder_names) as (_ & H).
  destruct H as (kept & err & s' & Hrun & Hb & _ & _ & _ & Hall & Hnone);
    [right; reflexivity |].
  exists s'. split; [| split; [reflexivity | exact Hb]].
  rewrite Hrun.
  rewrite (Hnone (fun _ _ => eq_refl)) in *.
  rewrite (Hall eq_refl). reflexivity.
Defined.

(** ** The source runs one test *)

Lemma one_shot_step (ev : Event) (sc sc' : Sched) :
  one_shot sc -> sched_step SourceCopy ev sc = Some sc' -> one_shot sc'.
Proof.
  intros (Hc & Hf & Hr & Hcase) Hstep.
  destruct ev as [test | | run result | shot]; simpl in Hstep.
  - injection Hstep as <-. unfold one_shot. simpl. auto.
  - destruct (processQueue_head (snapshot sc)) as [[t sys'] |] eqn:Hhead.
    + injection Hstep as <-.
      destruct (processQueue_head_inv _ _ _ Hhead)
        as (Hsetup & _ & Hrun & Hc' & Hf' & Hphase & Htest).
      assert (Hres : results (current sys') = results (current (snapshot sc))).
      { unfold processQueue_head in Hhead.
        destruct (negb _); [discriminate |].
        destruct (pending (queue (snapshot sc))); [discriminate |].
        injection Hhead as _ <-. reflexivity. }
      destruct Hcase as [(_ & Hst & Hrn) | (Hbusy & _)]; [| congruence].
      unfold one_shot. simpl.
      rewrite Hc', Hf', Hres, Hrun, Hrn, Hst, Htest. simpl.
      repeat split; auto.
    + injection Hstep as <-. unfold one_shot. auto.
  - destruct (nth_error (inflight sc) run) as [t |]; [| discriminate].
    injection Hstep as <-. unfold one_shot. simpl. auto.
  - injection Hstep as <-. unfold one_shot. simpl. auto.
Qed.

(** In the source, along every schedule of requests and runs from the
    initial snapshot, [processQueue] takes at most one test from
    [pending].  Once it has, the phase is ["running"] for good, that test
    stays in [running] and stays the current test, and [completed],
    [failed] and the session results stay empty: every test queued after
    the first stays in [pending]. *)
Theorem source_starts_one_test (evs : list Event) (sc : Sched) :
  sched_run SourceCopy evs sched_init = Some sc ->
  List.length (started sc) <= 1
  /\ completed (queue (snapshot sc)) = []
  /\ failed (queue (snapshot sc)) = []
  /\ results (current (snapshot sc)) = []
  /\ running (queue (snapshot sc)) = started sc
  /\ started sc ++ pending (queue (snapshot sc)) = enqueued sc
  /\ (started sc <> [] ->
      phase (current (snapshot sc)) = RunningPhase
      /\ processQueue_head (snapshot sc) = None).
Proof.
  intro Hrun.
  assert (Hinv : one_shot sc).
  { assert (Hinit : one_shot sched_init).
    { unfold one_shot. simpl. auto 10. }
    revert Hinit Hrun. generalize sched_init as sc0.
    induction evs as [| ev rest IH]; intros sc0 Hinit Hrun; simpl in Hrun.
    - injection Hrun as <-. exact Hinit.
    - destruct (sched_step SourceCopy ev sc0) as [sc1 |] eqn:Hstep;
        [| discriminate].
      apply (IH sc1); [| exact Hrun].
      apply (one_shot_step ev sc0); assumption. }
  pose proof (sched_inv_run SourceCopy evs sched_init sc
                (sched_inv_init SourceCopy) Hrun) as [Hfifo _ _ _ _].
  destruct Hinv as (Hc & Hf & Hr & [(Hsetup & Hst & Hrn) | (Hbusy & Hlen & Hrn & _)]).
  - rewrite Hst in *. simpl.
    do 6 (split; [assumption || reflexivity || lia |]).
    intro H. exfalso. apply H. reflexivity.
  - do 6 (split; [assumption || lia |]).
    intros _. split; [exact Hbusy |].
    apply processQueue_head_busy. rewrite Hbusy. discriminate.
Qed.

Lemma three_tests_run :
  exists sc,
    sched_run SourceCopy three_tests_schedule sched_init = Some sc
    /\ map test_id (started sc) = ["a"]
    /\ map test_id (pending (queue (snapshot sc))) = ["b"; "c"].
Proof. eexists. split; [vm_compute; reflexivity |]. split; reflexivity. Qed.

Lemma source_starts_one_test_witness :
  exists sc,
    sched_run SourceCopy three_tests_schedule sched_init = Some sc
    /\ List.length (started sc) <= 1
    /\ results (current (snapshot sc)) = [].
Proof.
  destruct three_tests_run as (sc & Hrun & _).
  destruct (source_starts_one_test three_tests_schedule sc Hrun)
    as (H1 & _ & _ & H4 & _).
  exists sc. auto.
Defined.

(** ** The compiled queue runs every test *)

Lemma compiled_runTest_then_id (t : Test) (s : State) :
  exists r s',
    tr_testId r = test_id t
    /\ system s' = system s
    /\ env s' = env s
    /\ (forall next,
          Compiled.runTest_then next t s
          = bind saveState (fun _ => next)
                 (set_system (Compiled.runTest_finally t r (system s)) s')).
Proof.
  destruct (compiled_produce_spec t s) as (r & caught & s' & Hp & Hsys & _ & Hid).
  exists r, s'. split; [exact Hid |]. split; [exact Hsys |].
  split.
  { pose proof (same_env_compiled_produce t s) as H. rewrite Hp in H. exact H. }
  intro next. unfold Compiled.runTest_then.
  rewrite (bind_ok _ _ _ _ _ Hp). unfold bind at 1, modify_system.
  simpl. rewrite Hsys. reflexivity.
Qed.

Lemma runTest_finally_moves (t : Test) (r : TestResult) (sys : TestingSystem) :
  running (queue sys) = [t] ->
  let after := Compiled.runTest_finally t r sys in
  running (queue after) = []
  /\ pending (queue after) = pending (queue sys)
  /\ phase (current after) = SetupPhase
  /\ results (current after) = results (current sys) ++ [r]
  /\ Permutation (completed (queue after) ++ failed (queue after))
                 (t :: completed (queue sys) ++ failed (queue sys)).
Proof.
  intro Hrun. unfold Compiled.runTest_finally.
  destruct (Compiled.status_is_pass (tr_status r)); simpl;
    rewrite Hrun, remove_by_id_head; repeat split.
  - rewrite <- app_assoc. simpl. symmetry. apply Permutation_middle.
  - rewrite app_assoc. symmetry. apply Permutation_cons_append.
Qed.

Lemma compiled_processQueue_runs_all (fuel : nat) :
  forall s,
    List.length (pending (queue (system s))) < fuel ->
    healthy_disk (env s) ->
    phase (current (system s)) = SetupPhase ->
    running (queue (system s)) = [] ->
    exists new s',
      Compiled.processQueue_fuel fuel s = (Ok tt, s')
      /\ pending (queue (system s')) = []
      /\ running (queue (system s')) = []
      /\ phase (current (system s')) = SetupPhase
      /\ results (current (system s')) = results (current (system s)) ++ new
      /\ map tr_testId new = map test_id (pending (queue (system s)))
      /\ Permutation
           (completed (queue (system s')) ++ failed (queue (system s')))
           (completed (queue (system s)) ++ failed (queue (system s))
            ++ pending (queue (system s)))
      /\ env s' = env s.
Proof.
  induction fuel as [| fuel IH]; intros s Hlen Hdisk Hphase Hidle; [lia |].
  simpl. unfold bind at 1, get_system, this.
  destruct (pending (queue (system s))) as [| t rest] eqn:Hq.
  - rewrite (processQueue_head_empty _ Hq).
    exists [], s. rewrite Hq, !app_nil_r. repeat split; auto.
  - rewrite (processQueue_head_takes _ t rest Hphase Hq).
    unfold bind at 1, modify_system.
    match goal with
    | |- context [bind saveState _ ?s0] =>
        destruct (saveState_healthy s0 Hdisk) as (s2 & Hsave & Hsys2 & Henv2);
        unfold bind at 1; rewrite Hsave
    end.
    simpl in Hsys2, Henv2.
    destruct (compiled_runTest_then_id t s2) as (r & s3 & Hid & Hsys3 & Henv3 & Hthen).
    rewrite Hthen.
    match goal with
    | |- context [bind saveState _ ?s0] =>
        assert (Hdisk4 : healthy_disk (env s0))
          by (simpl; rewrite Henv3, Henv2; exact Hdisk);
        destruct (saveState_healthy s0 Hdisk4) as (s5 & Hsave4 & Hsys5 & Henv5);
        unfold bind at 1; rewrite Hsave4
    end.
    simpl in Hsys5, Henv5.
    assert (Hrunning : running (queue (system s2)) = [t])
      by (rewrite Hsys2; simpl; rewrite Hidle; reflexivity).
    destruct (runTest_finally_moves t r (system s2) Hrunning)
      as (Hrun' & Hpend' & Hphase' & Hres' & Hperm').
    destruct (IH s5)
      as (new & s' & Hgo & Hp & Hr & Hph & Hres & Hids & Hperm & Henv').
    + rewrite Hsys5, Hpend', Hsys2. simpl. simpl in Hlen. lia.
    + rewrite Henv5, Henv3, Henv2. exact Hdisk.
    + rewrite Hsys5. exact Hphase'.
    + rewrite Hsys5. exact Hrun'.
    + exists (r :: new), s'. split; [exact Hgo |].
      split; [exact Hp |]. split; [exact Hr |]. split; [exact Hph |].
      rewrite Hsys5 in Hres, Hids, Hperm.
      rewrite Hres' in Hres. rewrite Hpend' in Hids, Hperm.
      rewrite Hsys2 in Hres, Hids, Hperm, Hperm'. simpl in Hres, Hids, Hperm, Hperm'.
      split; [rewrite Hres, <- app_assoc; reflexivity |].
      split; [simpl; rewrite Hid, Hids; reflexivity |].
      split; [| rewrite Henv', Henv5, Henv3, Henv2; reflexivity].
      rewrite Hperm. rewrite app_assoc.
      rewrite (Permutation_app_tail rest Hperm'). simpl.
      rewrite app_assoc. apply Permutation_middle.
Qed.



(** ** The visual analysis of a run *)

Lemma source_run_body_analysis (t : Test) (result r : TestResult)
  (caught : option exn) (s s' : State) :
  Source.run_body t result s = (Ok (r, caught), s') ->
  tr_visualAnalysis r = tr_visualAnalysis result.
Proof.
  unfold Source.run_body. intro H.
  apply bind_inv in H as ([steps [e |]] & s1 & _ & H).
  - unfold ret in H. injection H as <- _ _. reflexivity.
  - destruct (assert_performance t).
    + apply bind_inv in H as ([e | m] & s2 & _ & H);
        unfold ret in H; injection H as <- _ _; reflexivity.
    + unfold ret in H. injection H as <- _ _. reflexivity.
Qed.

Lemma analysis_is_placeholder {A B} (m1 : M A) (m2 : A -> M B)
  (c a : VisualAnalysisResult) (s s' : State) :
  attempt (x <- m1 ;; y <- m2 x ;; ret c)%async s = (Ok (inr a), s') -> a = c.
Proof.
  unfold attempt, bind, ret.
  destruct (m1 s) as [[x | e | w] s1]; try discriminate.
  destruct (m2 x s1) as [[y | e | w] s2]; try discriminate.
  intro H. injection H as <- _. reflexivity.
Qed.

Lemma compiled_run_steps_analysis (t : Test) (steps : list AutomationStep) :
  forall p p' thrown s s',
    Compiled.run_steps t steps p s = (Ok (p', thrown), s') ->
    (Compiled.last_analysis p' = Compiled.last_analysis p
     \/ Compiled.last_analysis p' = placeholder_analysis)
    /\ (assert_visual t = false ->
        Compiled.last_analysis p' = Compiled.last_analysis p).
Proof.
  induction steps as [| step rest IH]; intros p p' thrown s s'; simpl.
  - unfold ret. intro H. injection H as <- _ _. auto.
  - intro H. apply bind_inv in H as ([error | stepResult] & s1 & _ & H).
    + unfold ret in H. injection H as <- _ _. auto.
    + destruct (sr_status stepResult).
      * destruct (assert_visual t) eqn:Hvis.
        -- apply bind_inv in H as ([error | analysis] & s2 & Hshot & H).
           ++ unfold ret in H. injection H as <- _ _. split; [auto | discriminate].
           ++ unfold analyzeScreenshot in Hshot.
              apply analysis_is_placeholder in Hshot. subst analysis.
              apply IH in H as [[H | H] _]; simpl in H;
                (split; [right; exact H | discriminate]).
        -- apply IH in H as [H1 H2]. simpl in H1, H2.
           split; [exact H1 | intros _; apply H2; reflexivity].
      * unfold ret in H. injection H as <- _ _. auto.
Qed.

Lemma compiled_run_body_analysis (t : Test) (result r : TestResult)
  (caught : option exn) (s s' : State) :
  Compiled.run_body t result s = (Ok (r, caught), s') ->
  (tr_visualAnalysis r = tr_visualAnalysis result
   \/ tr_visualAnalysis r = placeholder_analysis)
  /\ (assert_visual t = false ->
      tr_visualAnalysis r = tr_visualAnalysis result).
Proof.
  unfold Compiled.run_body. intro H.
  apply bind_inv in H as ([p [e |]] & s1 & Hloop & H);
    apply compiled_run_steps_analysis in Hloop; simpl in Hloop.
  - unfold ret in H. injection H as <- _ _. exact Hloop.
  - destruct (assert_performance t).
    + apply bind_inv in H as ([e | m] & s2 & _ & H);
        unfold ret in H; injection H as <- _ _; exact Hloop.
    + unfold ret in H. injection H as <- _ _. exact Hloop.
Qed.

Lemma no_issue_no_change (result : TestResult) (sys : TestingSystem) :
  va_issues (tr_visualAnalysis result) = [] ->
  commonIssues (analytics (updateAnalytics result sys))
  = commonIssues (analytics sys).
Proof. intro H. rewrite updateAnalytics_issues, H. reflexivity. Qed.

(** No run reports a visual issue.  In the source the visual analysis of
    every result is the placeholder written into [runTest]: two fixed
    observations, no issue, the scores 90, 85 and 95.  In the compiled
    copy it is the empty analysis the result starts with, or the
    placeholder [analyzeScreenshot] returns for whatever screenshot, and
    the empty one whenever the visual toggle is off.  So in both copies a
    run leaves [analytics.commonIssues] as it found it. *)
Theorem runs_report_no_issue (t : Test) (s : State) :
  (exists r s',
      Source.runTest t s = (Ok r, s')
      /\ tr_visualAnalysis r = placeholder_analysis
      /\ commonIssues (analytics (system s'))
         = commonIssues (analytics (system s)))
  /\ (exists r caught s',
         Compiled.produce t s = (Ok (r, caught), s')
         /\ (tr_visualAnalysis r = Compiled.empty_analysis
             \/ tr_visualAnalysis r = placeholder_analysis)
         /\ (assert_visual t = false ->
             tr_visualAnalysis r = Compiled.empty_analysis)
         /\ va_issues (tr_visualAnalysis r) = []
         /\ forall sys,
              commonIssues (analytics (Compiled.runTest_finally t r sys))
              = commonIssues (analytics sys)).
Proof.
  split.
  - destruct (source_runTest_spec t s) as (r & caught & s' & Hp & Hrun & Hsys).
    assert (Ha : tr_visualAnalysis r = placeholder_analysis).
    { unfold Source.produce in Hp.
      rewrite bind_now, bind_uuid, bind_now in Hp.
      apply bind_inv in Hp as ([r0 c0] & s1 & Hbody & Hp).
      apply source_run_body_analysis in Hbody.
      rewrite bind_now in Hp. unfold ret in Hp. injection Hp as <- _ _.
      exact Hbody. }
    eexists _, _. split; [exact Hrun |]. split; [exact Ha |].
    simpl system. apply no_issue_no_change. rewrite Ha. reflexivity.
  - destruct (compiled_produce_spec t s) as (r & caught & s' & Hp & _).
    assert (Ha : (tr_visualAnalysis r = Compiled.empty_analysis
                  \/ tr_visualAnalysis r = placeholder_analysis)
                 /\ (assert_visual t = false ->
                     tr_visualAnalysis r = Compiled.empty_analysis)).
    { unfold Compiled.produce in Hp.
      rewrite bind_now, bind_uuid in Hp.
      apply bind_inv in Hp as ([r0 c0] & s1 & Hbody & Hp).
      apply compiled_run_body_analysis in Hbody.
      rewrite bind_now in Hp. unfold ret in Hp. injection Hp as <- _ _.
      exact Hbody. }
    destruct Ha as [Ha Hoff].
    assert (Hnone : va_issues (tr_visualAnalysis r) = [])
      by (destruct Ha as [-> | ->]; reflexivity).
    exists r, caught, s'. split; [exact Hp |]. split; [exact Ha |].
    split; [exact Hoff |]. split; [exact Hnone |].
    intro sys. unfold Compiled.runTest_finally.
    destruct (Compiled.status_is_pass (tr_status r)); simpl;
      rewrite Hnone; reflexivity.
Qed.

(** ** Durations *)

Lemma advances_ret {A} (a : A) : advances (ret a).
Proof. intro s. simpl. lia. Qed.

Lemma advances_throw {A} (e : exn) : advances (@throw A e).
Proof. intro s. simpl. lia. Qed.

Lemma advances_bind {A B} (m : M A) (k : A -> M B) :
  advances m -> (forall a, advances (k a)) -> advances (bind m k).
Proof.
  intros Hm Hk s. unfold bind. specialize (Hm s).
  destruct (m s) as [[a | e | w] s1]; simpl in *; try assumption.
  specialize (Hk a s1). lia.
Qed.

Lemma advances_try_catch {A} (m : M A) (h : exn -> M A) :
  advances m -> (forall e, advances (h e)) -> advances (try_catch m h).
Proof.
  intros Hm Hh s. unfold try_catch. specialize (Hm s).
  destruct (m s) as [[a | e | w] s1]; simpl in *; try assumption.
  specialize (Hh e s1). lia.
Qed.

Lemma advances_try_finally {A} (m : M A) (f : M unit) :
  advances m -> advances f -> advances (try_finally m f).
Proof.
  intros Hm Hf s. unfold try_finally. specialize (Hm s).
  destruct (m s) as [[a | e | w] s1]; simpl in *; try assumption;
    specialize (Hf s1); destruct (f s1) as [[u | e' | w'] s2]; simpl in *;
    lia.
Qed.

Lemma advances_attempt {A} (m : M A) : advances m -> advances (attempt m).
Proof.
  intros Hm s. unfold attempt. specialize (Hm s).
  destruct (m s) as [[a | e | w] s1]; simpl in *; assumption.
Qed.

Lemma advances_this {A} (f : State -> A) : advances (this f).
Proof. intro s. simpl. lia. Qed.

Lemma advances_with_env {A} (f : Env -> A) : advances (with_env f).
Proof. intro s. simpl. lia. Qed.

Lemma advances_observe {A} (read : Env -> nat -> A) : advances (observe read).
Proof. intro s. simpl. lia. Qed.

Lemma advances_pw (c : PwCall) : advances (pw c).
Proof.
  unfold pw. apply advances_bind; [apply advances_observe |].
  intros [e |]; [apply advances_throw | apply advances_ret].
Qed.

Lemma advances_pw_value {A} (c : PwCall) (read : Env -> nat -> A) :
  advances (pw_value c read).
Proof.
  intro s. unfold pw_value.
  destruct (playwright (env s) (ticks s) c); simpl; lia.
Qed.

Lemma advances_fs_call (c : FsCall) : advances (fs_call c).
Proof.
  unfold fs_call. apply advances_bind; [apply advances_observe |].
  intros [e |]; [apply advances_throw | apply advances_ret].
Qed.

Lemma advances_fs_writeFile (path : string) (data : filedata) :
  advances (fs_writeFile path data).
Proof.
  unfold fs_writeFile. apply advances_bind; [apply advances_fs_call |].
  intros _ s. simpl. lia.
Qed.

Lemma advances_automation_initialize (b : BrowserType) :
  advances (automation_initialize b).
Proof.
  unfold automation_initialize.
  apply advances_bind; [intro s; simpl; lia | intro].
  apply advances_bind; [apply advances_pw | intro]. intro s. simpl. lia.
Qed.

Create HintDb advances.

#[local] Hint Resolve advances_ret advances_throw advances_this
  advances_with_env advances_observe advances_pw advances_pw_value
  advances_fs_call advances_fs_writeFile advances_automation_initialize
  : advances.

(** Splits a goal [advances m] along the shape of [m]. *)
Ltac advances_step :=
  match goal with
  | |- advances (bind _ _) => apply advances_bind; [| intro]
  | |- advances (try_catch _ _) => apply advances_try_catch; [| intro]
  | |- advances (try_finally _ _) => apply advances_try_finally
  | |- advances (attempt _) => apply advances_attempt
  | |- advances (if ?b then _ else _) => destruct b
  | |- advances (match ?x with _ => _ end) => destruct x
  | |- advances _ =>
      solve [unfold get_system, get_browser, now, uuid, fs_mkdir;
             auto with advances]
  end.

Ltac advances_auto := repeat advances_step.

Lemma advances_navigate (url : string) (left : nat) :
  forall attempt, advances (Source.navigate url left attempt).
Proof.
  induction left as [| left IH]; intro attempt; simpl; [apply advances_ret |].
  apply advances_try_catch; [advances_auto |].
  intro e. destruct (Nat.eqb attempt 2); [apply advances_throw | apply IH].
Qed.

Lemma advances_type_chars (selector value : string) :
  advances (Source.type_chars selector value).
Proof.
  induction value as [| char rest IH]; simpl; [apply advances_ret |].
  apply advances_bind; [advances_auto | intro; exact IH].
Qed.

#[local] Hint Resolve advances_navigate advances_type_chars : advances.

Lemma advances_source_perform (step : AutomationStep) :
  advances (Source.perform step).
Proof. unfold Source.perform. advances_auto. Qed.

#[local] Hint Resolve advances_source_perform : advances.

Lemma advances_source_executeStep (step : AutomationStep) (url : string) :
  advances (Source.executeStep step url).
Proof. unfold Source.executeStep. advances_auto. Qed.

Lemma advances_source_collectMetrics (url : string) :
  advances (Source.collectMetrics url).
Proof. unfold Source.collectMetrics. advances_auto. Qed.

Lemma step_time_app (l l' : list StepResult) :
  step_time (l ++ l') = (step_time l + step_time l')%Z.
Proof.
  induction l as [| sr rest IH]; simpl; [reflexivity | rewrite IH; lia].
Qed.

Lemma source_run_steps_time (url : string) (steps : list AutomationStep) :
  forall done s,
    monotone_clock (env s) ->
    exists new thrown s',
      Source.run_steps url steps done s = (Ok (done ++ new, thrown), s')
      /\ env s' = env s
      /\ ticks s <= ticks s'
      /\ Forall (fun sr => (0 <= sr_duration sr)%Z) new
      /\ (date_now (env s) (ticks s) + step_time new
          <= date_now (env s) (ticks s'))%Z.
Proof.
  induction steps as [| step rest IH]; intros done s Hclock.
  - exists [], None, s. simpl. rewrite app_nil_r.
    repeat split; auto; lia.
  - simpl Source.run_steps. rewrite bind_now.
    set (s1 := set_ticks (S (ticks s)) s).
    pose proof (keeps_env_source_executeStep step url s1) as Henv.
    pose proof (advances_source_executeStep step url s1) as Hadv.
    destruct (attempt_quiet (Source.executeStep step url) s1
                (quiet_source_executeStep step url))
      as (r & s2 & Hatt & _ & Hr).
    assert (Henv2 : env s2 = env s /\ S (ticks s) <= ticks s2).
    { destruct r; rewrite Hr in Henv, Hadv; simpl in Henv, Hadv; auto. }
    destruct Henv2 as [Henv2 Hadv2].
    rewrite (bind_ok _ _ _ _ _ Hatt). rewrite bind_now.
    set (s3 := set_ticks (S (ticks s2)) s2).
    assert (Hlate : (date_now (env s) (ticks s)
                     <= date_now (env s) (ticks s2))%Z)
      by (apply Hclock; lia).
    destruct r as [error | u].
    + eexists [_], _, s3. split; [reflexivity |].
      split; [exact Henv2 |]. split; [simpl; lia |].
      rewrite Henv2. split; [repeat constructor; simpl; lia |].
      simpl. assert (date_now (env s) (ticks s2)
                     <= date_now (env s) (S (ticks s2)))%Z
        by (apply Hclock; lia).
      lia.
    + match goal with
      | |- context [Source.run_steps url rest ?d s3] =>
          destruct (IH d s3) as (new & thrown & s' & Hrun & Henv' & Hadv' & Hpos & Hsum)
      end.
      { unfold s3. simpl. rewrite Henv2. exact Hclock. }
      rewrite Hrun. rewrite <- app_assoc. simpl app.
      eexists (_ :: new), thrown, s'. split; [reflexivity |].
      split; [rewrite Henv'; exact Henv2 |].
      split; [simpl in Hadv'; lia |].
      rewrite Henv2. split; [constructor; [simpl; lia | exact Hpos] |].
      simpl in Hsum. rewrite Henv2 in Hsum. simpl.
      assert (date_now (env s) (ticks s2)
              <= date_now (env s) (S (ticks s2)))%Z
        by (apply Hclock; lia).
      lia.
Qed.

Lemma source_run_body_time (t : Test) (result : TestResult) (s : State) :
  monotone_clock (env s) ->
  exists r caught s',
    Source.run_body t result s = (Ok (r, caught), s')
    /\ env s' = env s
    /\ ticks s <= ticks s'
    /\ Forall (fun sr => (0 <= sr_duration sr)%Z) (tr_steps r)
    /\ (date_now (env s) (ticks s) + step_time (tr_steps r)
        <= date_now (env s) (ticks s'))%Z
    /\ tr_timestamp r = tr_timestamp result.
Proof.
  intro Hclock. unfold Source.run_body.
  destruct (source_run_steps_time (target_url t) (automation_steps t) [] s Hclock)
    as (new & thrown & s1 & Hrun & Henv1 & Hadv1 & Hpos & Hsum).
  simpl app in Hrun. rewrite (bind_ok _ _ _ _ _ Hrun).
  destruct thrown as [error |].
  - eexists _, _, s1. split; [reflexivity |]. simpl. auto.
  - destruct (assert_performance t).
    + pose proof (keeps_env_source_collectMetrics (target_url t) s1) as Henv.
      pose proof (advances_source_collectMetrics (target_url t) s1) as Hadv.
      destruct (attempt_quiet (Source.collectMetrics (target_url t)) s1
                  (quiet_source_collectMetrics _))
        as (m & s2 & Hatt & _ & Hm).
      assert (H2 : env s2 = env s1 /\ ticks s1 <= ticks s2).
      { destruct m; rewrite Hm in Henv, Hadv; simpl in Henv, Hadv; auto. }
      destruct H2 as [Henv2 Hadv2].
      rewrite (bind_ok _ _ _ _ _ Hatt).
      assert (Hlate : (date_now (env s) (ticks s1)
                       <= date_now (env s) (ticks s2))%Z)
        by (apply Hclock; exact Hadv2).
      destruct m as [error | metrics];
        (eexists _, _, s2; split; [reflexivity |]; simpl;
         split; [congruence |]; split; [lia |]; split; [exact Hpos |];
         split; [lia | reflexivity]).
    + eexists _, _, s1. split; [reflexivity |]. simpl. auto.
Qed.

(** Durations in the source, in a world whose clock never goes back: no
    step has a negative duration, the durations of the steps together do
    not exceed the duration of the run, and that one is not negative
    either. *)
Theorem source_durations_add_up (t : Test) (s : State) :
  monotone_clock (env s) ->
  exists r caught s',
    Source.produce t s = (Ok (r, caught), s')
    /\ Forall (fun sr => (0 <= sr_duration sr)%Z) (tr_steps r)
    /\ (step_time (tr_steps r) <= tr_duration r)%Z
    /\ (0 <= tr_duration r)%Z.
Proof.
  intro Hclock.
  unfold Source.produce. rewrite bind_now, bind_uuid, bind_now.
  match goal with
  | |- context [bind (Source.run_body t ?r0) _ ?s0] =>
      destruct (source_run_body_time t r0 s0 Hclock)
        as (r & caught & s4 & Hbody & Henv4 & Hadv4 & Hpos & Hsum & _);
      rewrite (bind_ok _ _ _ _ _ Hbody)
  end.
  rewrite bind_now. simpl fst. simpl snd.
  eexists _, caught, _. split; [reflexivity |].
  cbn [env ticks set_ticks] in Henv4, Hadv4, Hsum.
  assert (Hstart : (date_now (env s) (ticks s)
                    <= date_now (env s) (S (S (S (ticks s)))))%Z)
    by (apply Hclock; lia).
  assert (Hsteps : (0 <= step_time (tr_steps r))%Z).
  { clear - Hpos. induction Hpos as [| sr l Hsr _ IH]; simpl; lia. }
  simpl. rewrite Henv4. split; [exact Hpos |]. split; lia.
Qed.

(** Two waits, the clock one millisecond later at every observation. *)
Lemma source_durations_add_up_witness :
  exists r caught s',
    Source.produce (sample_test "w" [wait_step; wait_step] false false)
                   (launched fresh) = (Ok (r, caught), s')
    /\ (step_time (tr_steps r) <= tr_duration r)%Z.
Proof.
  destruct (source_durations_add_up
              (sample_test "w" [wait_step; wait_step] false false)
              (launched fresh))
    as (r & caught & s' & Hp & _ & Hsum & _).
  - intros n m Hnm. simpl. lia.
  - exists r, caught, s'. split; assumption.
Defined.

(** ** Is the state file up to date? *)

Section KeepsCompiledRun.

Context {B : Type} (field : State -> B).

Hypothesis field_ticks : forall n s, field (set_ticks n s) = field s.
Hypothesis field_disk : forall d s, field (set_disk d s) = field s.

Lemma keeps_compiled_executeStep (step : AutomationStep) :
  keeps field (Compiled.executeStep step).
Proof. unfold Compiled.executeStep, Compiled.perform. keeps_auto. Qed.

Lemma keeps_screenshot_analysis (t : Test) (step : AutomationStep) :
  keeps field
    (screenshot <- Compiled.captureScreenshot "http://example.com"
                                              (step_target step) ;;
     screenshotPath <- saveScreenshot screenshot (test_id t) ;;
     analyzeScreenshot screenshotPath (visual_instructions t)
                       (expect_layout t) (expect_design t)
                       (expect_accessibility t))%async.
Proof.
  unfold Compiled.captureScreenshot, saveScreenshot, analyzeScreenshot.
  keeps_auto.
Qed.

Lemma keeps_compiled_collectMetrics (url : string) :
  keeps field (Compiled.collectMetrics url).
Proof. unfold Compiled.collectMetrics. keeps_auto. Qed.

Lemma keeps_compiled_run_steps (t : Test) (steps : list AutomationStep) :
  forall p, keeps field (Compiled.run_steps t steps p).
Proof.
  induction steps as [| step rest IH]; intro p; simpl.
  - apply keeps_ret.
  - apply keeps_bind; [apply keeps_attempt, keeps_compiled_executeStep |].
    intros [error | stepResult]; [apply keeps_ret |].
    destruct (sr_status stepResult); [| apply keeps_ret].
    destruct (assert_visual t); [| apply IH].
    apply keeps_bind; [apply keeps_attempt, keeps_screenshot_analysis |].
    intros [error | analysis]; [apply keeps_ret | apply IH].
Qed.

Lemma keeps_compiled_produce (t : Test) : keeps field (Compiled.produce t).
Proof.
  unfold Compiled.produce, Compiled.run_body.
  apply keeps_bind; [keeps_auto | intro].
  apply keeps_bind; [keeps_auto | intro].
  apply keeps_bind; [| intro; keeps_auto].
  apply keeps_bind; [apply keeps_compiled_run_steps |].
  intros [p [e |]]; [apply keeps_ret |].
  destruct (assert_performance t); [| apply keeps_ret].
  apply keeps_bind; [apply keeps_attempt, keeps_compiled_collectMetrics |].
  intros [e | m]; apply keeps_ret.
Qed.

End KeepsCompiledRun.

Section KeepsSourceRun.

Context {B : Type} (field : State -> B).

Hypothesis field_ticks : forall n s, field (set_ticks n s) = field s.
Hypothesis field_browser : forall b s, field (set_browser b s) = field s.
Hypothesis field_browserType : forall b s, field (set_browserType b s) = field s.

Lemma keeps_source_navigate (url : string) (left : nat) :
  forall attempt, keeps field (Source.navigate url left attempt).
Proof.
  induction left as [| left IH]; intro attempt; simpl; [apply keeps_ret |].
  apply keeps_try_catch; [keeps_auto |].
  intro e. destruct (Nat.eqb attempt 2); [apply keeps_throw | apply IH].
Qed.

Lemma keeps_source_type_chars (selector value : string) :
  keeps field (Source.type_chars selector value).
Proof.
  induction value as [| char rest IH]; simpl; [apply keeps_ret |].
  apply keeps_bind; [keeps_auto | intro; exact IH].
Qed.

Lemma keeps_source_perform (step : AutomationStep) :
  keeps field (Source.perform step).
Proof.
  unfold Source.perform.
  repeat match goal with
         | |- keeps _ (Source.type_chars _ _) => apply keeps_source_type_chars
         | _ => keeps_step
         end.
Qed.

Lemma keeps_automation_initialize (b : BrowserType) :
  keeps field (automation_initialize b).
Proof.
  unfold automation_initialize.
  apply keeps_bind; [intro s; apply field_browserType | intro].
  apply keeps_bind; [keeps_auto | intro]. intro s. apply field_browser.
Qed.

Lemma keeps_source_executeStep (step : AutomationStep) (url : string) :
  keeps field (Source.executeStep step url).
Proof.
  unfold Source.executeStep.
  apply keeps_bind; [keeps_auto | intros [b |]].
  - apply keeps_bind; [apply keeps_ret | intro].
    apply keeps_bind; [keeps_auto | intro].
    apply keeps_try_finally; [| keeps_auto].
    apply keeps_try_catch; [| intro; apply keeps_throw].
    apply keeps_bind; [apply keeps_source_navigate | intro].
    apply keeps_source_perform.
  - apply keeps_bind; [apply keeps_automation_initialize | intro].
    apply keeps_bind; [keeps_auto | intro].
    apply keeps_try_finally; [| keeps_auto].
    apply keeps_try_catch; [| intro; apply keeps_throw].
    apply keeps_bind; [apply keeps_source_navigate | intro].
    apply keeps_source_perform.
Qed.

Lemma keeps_source_collectMetrics (url : string) :
  keeps field (Source.collectMetrics url).
Proof. unfold Source.collectMetrics. keeps_auto. Qed.

Lemma keeps_source_run_steps (url : string) (steps : list AutomationStep) :
  forall done, keeps field (Source.run_steps url steps done).
Proof.
  induction steps as [| step rest IH]; intro done; simpl.
  - apply keeps_ret.
  - apply keeps_bind; [keeps_auto | intro].
    apply keeps_bind; [apply keeps_attempt, keeps_source_executeStep | intro r].
    apply keeps_bind; [keeps_auto | intro].
    destruct r; [apply keeps_ret | apply IH].
Qed.

Lemma keeps_source_produce (t : Test) : keeps field (Source.produce t).
Proof.
  unfold Source.produce, Source.run_body.
  apply keeps_bind; [keeps_auto | intro].
  apply keeps_bind; [keeps_auto | intro].
  apply keeps_bind; [keeps_auto | intro].
  apply keeps_bind; [| intro; keeps_auto].
  apply keeps_bind; [apply keeps_source_run_steps |].
  intros [steps [e |]]; [apply keeps_ret |].
  destruct (assert_performance t); [| apply keeps_ret].
  apply keeps_bind; [apply keeps_attempt, keeps_source_collectMetrics |].
  intros [e | m]; apply keeps_ret.
Qed.

End KeepsSourceRun.

Lemma saveState_current (s : State) :
  healthy_disk (env s) ->
  exists s',
    saveState s = (Ok tt, s')
    /\ system s' = system s
    /\ env s' = env s
    /\ file_current s'.
Proof.
  intro Hdisk.
  destruct (saveState_healthy_file s Hdisk)
    as (s' & Hsave & Hsys & Henv & _ & Hpath & Hfile).
  exists s'. split; [exact Hsave |]. split; [exact Hsys |].
  split; [exact Henv |].
  unfold file_current. rewrite Hpath, Hsys. exact Hfile.
Qed.

Lemma compiled_processQueue_saves (fuel : nat) :
  forall s,
    List.length (pending (queue (system s))) < fuel ->
    healthy_disk (env s) ->
    phase (current (system s)) = SetupPhase ->
    file_current s ->
    exists s',
      Compiled.processQueue_fuel fuel s = (Ok tt, s')
      /\ env s' = env s
      /\ file_current s'.
Proof.
  induction fuel as [| fuel IH]; intros s Hlen Hdisk Hphase Hfile; [lia |].
  simpl. unfold bind at 1, get_system, this.
  destruct (pending (queue (system s))) as [| t rest] eqn:Hq.
  - rewrite (processQueue_head_empty _ Hq). exists s. auto.
  - rewrite (processQueue_head_takes _ t rest Hphase Hq).
    unfold bind at 1, modify_system.
    match goal with
    | |- context [bind saveState _ ?s0] =>
        destruct (saveState_healthy s0 Hdisk) as (s2 & Hsave & Hsys2 & Henv2);
        unfold bind at 1; rewrite Hsave
    end.
    simpl in Hsys2, Henv2.
    destruct (compiled_runTest_then_id t s2)
      as (r & s3 & _ & Hsys3 & Henv3 & Hthen).
    rewrite Hthen.
    match goal with
    | |- context [bind saveState _ ?s0] =>
        assert (Hdisk4 : healthy_disk (env s0))
          by (simpl; rewrite Henv3, Henv2; exact Hdisk);
        destruct (saveState_current s0 Hdisk4) as (s5 & Hsave4 & Hsys5 & Henv5 & Hfile5);
        unfold bind at 1; rewrite Hsave4
    end.
    simpl in Hsys5, Henv5.
    destruct (runTest_finally_idle t r (system s2)) as [Hidle _].
    destruct (IH s5) as (s' & Hgo & Henv' & Hfile').
    + rewrite Hsys5, runTest_finally_pending, Hsys2. simpl.
      simpl in Hlen. lia.
    + rewrite Henv5, Henv3, Henv2. exact Hdisk.
    + rewrite Hsys5. exact Hidle.
    + exact Hfile5.
    + exists s'. split; [exact Hgo |]. split; [| exact Hfile'].
      rewrite Henv', Henv5, Henv3, Henv2. reflexivity.
Qed.

Lemma enc_system_totalRuns (sys sys' : TestingSystem) :
  enc_system sys = enc_system sys' ->
  totalRuns (analytics sys) = totalRuns (analytics sys').
Proof.
  intro H.
  assert (Hruns : forall x,
             obind (prop "orchestrator" (enc_system x))
               (fun o => obind (prop "state" o)
                  (fun st => obind (prop "history" st)
                     (fun h => obind (prop "analytics" h)
                        (fun a => prop "totalRuns" a))))
             = Some (JInt (Z.of_nat (totalRuns (analytics x)))))
    by (intro x; reflexivity).
  pose proof (Hruns sys) as H1. rewrite H, Hruns in H1.
  injection H1 as H1. lia.
Qed.

(** After an awaited [queueTest] on an idle orchestrator whose disk does
    not fail, is the state file the snapshot in memory?  In the compiled
    copy it is, since a save is the last thing every run does: a process
    started over the same disk restores that snapshot, provided its
    numbers are JSON-representable.  In the source it is not: the file
    holds the snapshot of the moment the run was started, and the
    analytics of the run ([totalRuns] one more) are in memory only. *)
Theorem state_file_after_queueTest (t : Test) (s : State) :
  healthy_disk (env s) ->
  phase (current (system s)) = SetupPhase ->
  (exists s',
      Compiled.queueTest t s = (Ok tt, s')
      /\ file_current s'
      /\ (system_ok (system s') = true ->
          exists s'', loadState (restart s') = (Ok tt, s'')
                      /\ system s'' = system s'))
  /\ (exists r saved s',
         Source.queueTest t s = (Ok tt, s')
         /\ lookup_file (stateFilePath s') (disk s')
            = Some (FJson (enc_system saved))
         /\ system s' = updateAnalytics r saved
         /\ totalRuns (analytics (system s')) = S (totalRuns (analytics saved))
         /\ ~ file_current s').
Proof.
  intros Hdisk Hphase. split.
  - unfold Compiled.queueTest. unfold bind at 1, modify_system.
    match goal with
    | |- context [bind saveState _ ?s0] =>
        destruct (saveState_current s0 Hdisk) as (s2 & Hsave & Hsys2 & Henv2 & Hfile2);
        unfold bind at 1; rewrite Hsave
    end.
    simpl in Hsys2, Henv2.
    unfold Compiled.processQueue. unfold bind at 1, get_system, this.
    destruct (compiled_processQueue_saves
                (S (List.length (pending (queue (system s2))))) s2)
      as (s' & Hgo & Henv' & Hfile').
    + lia.
    + rewrite Henv2. exact Hdisk.
    + rewrite Hsys2. exact Hphase.
    + exact Hfile2.
    + exists s'. split; [exact Hgo |]. split; [exact Hfile' |].
      intro Hok.
      exists (set_system (system s')
                (set_ticks (S (ticks (restart s'))) (restart s'))).
      split; [| reflexivity].
      apply (loadState_restores (restart s') (system s')).
      * simpl. rewrite Henv', Henv2. exact Hdisk.
      * exact Hfile'.
      * exact Hok.
  - unfold Source.queueTest. unfold bind at 1, modify_system.
    match goal with
    | |- context [bind saveState _ ?s0] =>
        destruct (saveState_healthy s0 Hdisk) as (s2 & Hsave & Hsys2 & Henv2);
        unfold bind at 1; rewrite Hsave
    end.
    simpl in Hsys2, Henv2.
    unfold Source.processQueue. unfold bind at 1, get_system, this.
    assert (Hhead : exists t' sys', processQueue_head (system s2) = Some (t', sys')).
    { unfold processQueue_head. rewrite Hsys2. simpl. rewrite Hphase. simpl.
      destruct (pending (queue (system s))); simpl; eexists _, _; reflexivity. }
    destruct Hhead as (t' & sys' & Hhead). rewrite Hhead.
    unfold bind at 1, modify_system.
    match goal with
    | |- context [bind saveState _ ?s0] =>
        assert (Hdisk3 : healthy_disk (env s0))
          by (simpl; rewrite Henv2; exact Hdisk);
        destruct (saveState_current s0 Hdisk3) as (s4 & Hsave3 & Hsys4 & Henv4 & Hfile4);
        unfold bind at 1; rewrite Hsave3
    end.
    simpl in Hsys4.
    destruct (source_runTest_spec t' s4) as (r & caught & s5 & Hp & Hrun & Hsys5).
    unfold bind, ret. rewrite Hrun.
    pose proof (keeps_source_produce disk (fun _ _ => eq_refl)
                  (fun _ _ => eq_refl) (fun _ _ => eq_refl) t' s4) as Hkd.
    pose proof (keeps_source_produce stateFilePath (fun _ _ => eq_refl)
                  (fun _ _ => eq_refl) (fun _ _ => eq_refl) t' s4) as Hkp.
    rewrite Hp in Hkd, Hkp. simpl in Hkd, Hkp.
    assert (Hheld : lookup_file (stateFilePath s5) (disk s5)
                    = Some (FJson (enc_system (system s4)))).
    { rewrite Hkd, Hkp. exact Hfile4. }
    exists r, (system s4), (set_system (updateAnalytics r (system s4)) s5).
    split; [reflexivity |]. split; [exact Hheld |].
    split; [reflexivity |]. split; [reflexivity |].
    unfold file_current. simpl. rewrite Hheld.
    intro H.
    assert (He : enc_system (system s4)
                 = enc_system (updateAnalytics r (system s4)))
      by congruence.
    apply enc_system_totalRuns in He. simpl in He. lia.
Qed.

Lemma state_file_after_queueTest_witness :
  (exists s', Compiled.queueTest first_test (launched fresh) = (Ok tt, s')
              /\ file_current s')
  /\ (exists s', Source.queueTest first_test (launched fresh) = (Ok tt, s')
                 /\ ~ file_current s').
Proof.
  destruct (state_file_after_queueTest first_test (launched fresh))
    as [(s1 & H1 & Hf1 & _) (r & saved & s2 & H2 & _ & _ & _ & Hf2)].
  - intros n c. reflexivity.
  - reflexivity.
  - split; [exists s1 | exists s2]; auto.
Defined.

(** ** A step that throws *)

Lemma source_run_steps_app (url : string) (before rest : list AutomationStep) :
  forall done s new s1,
    Source.run_steps url before done s = (Ok (new, None), s1) ->
    Source.run_steps url (before ++ rest) done s
    = Source.run_steps url rest new s1.
Proof.
  induction before as [| step before IH]; intros done s new s1 H.
  - simpl in H. unfold ret in H. injection H as <- <-. reflexivity.
  - simpl app. simpl Source.run_steps in *.
    rewrite bind_now in *.
    unfold bind at 1 in H. unfold bind at 1.
    destruct (attempt (Source.executeStep step url) (set_ticks (S (ticks s)) s))
      as [[[e | []] | e | w] s2]; try discriminate H.
    rewrite bind_now in *. apply IH. exact H.
Qed.

Lemma compiled_run_steps_app (t : Test) (before rest : list AutomationStep) :
  forall p s p1 s1,
    Compiled.run_steps t before p s = (Ok (p1, None), s1) ->
    Compiled.run_steps t (before ++ rest) p s
    = Compiled.run_steps t rest p1 s1.
Proof.
  induction before as [| step before IH]; intros p s p1 s1 H.
  - simpl in H. unfold ret in H. injection H as <- <-. reflexivity.
  - simpl app. simpl Compiled.run_steps in *.
    unfold bind at 1 in H. unfold bind at 1.
    destruct (attempt (Compiled.executeStep step) s)
      as [[[e | sr] | e | w] s2]; try discriminate H.
    destruct (sr_status sr); [| discriminate H].
    destruct (assert_visual t).
    + unfold bind at 1 in H. unfold bind at 1.
      match goal with
      | |- context [attempt ?m s2] =>
          destruct (attempt m s2) as [[[e | a] | e | w] s3];
            try discriminate H
      end.
      apply IH. exact H.
    + apply IH. exact H.
Qed.

(** In the source, when [executeStep] throws on a step that the loop
    reaches, the run records a failed step with the message of the error
    after the steps that passed, and ends with the status ["fail"]. *)
Lemma source_throwing_step (t : Test) (s : State)
  (before rest : list AutomationStep) (step : AutomationStep)
  (done : list StepResult) (s1 s2 : State) (e : exn) :
  automation_steps t = before ++ step :: rest ->
  Source.run_steps (target_url t) before [] (set_ticks (3 + ticks s) s)
  = (Ok (done, None), s1) ->
  Source.executeStep step (target_url t) (set_ticks (S (ticks s1)) s1)
  = (Throw e, s2) ->
  exists r s',
    Source.produce t s
    = (Ok (r, Some (JsError ("Step failed: " ++ exn_message e)%string)), s')
    /\ tr_status r = Fail
    /\ tr_steps r
       = done ++ [mkStepResult StepFail (action_name (step_action step))
                    (date_now (env s2) (ticks s2) - date_now (env s1) (ticks s1))
                    (Some (exn_message e))].
Proof.
  intros Hsteps Hbefore Hthrow.
  unfold Source.produce. rewrite bind_now, bind_uuid, bind_now.
  unfold Source.run_body. unfold bind at 1. unfold bind at 1.
  rewrite Hsteps.
  match goal with
  | |- context [Source.run_steps _ _ _ ?s0] =>
      change s0 with (set_ticks (3 + ticks s) s)
  end.
  rewrite (source_run_steps_app _ before (step :: rest) _ _ _ _ Hbefore).
  rewrite (source_step_throw _ step rest done s1 s2 e Hthrow).
  unfold ret at 1. rewrite bind_now.
  eexists _, _. split; [reflexivity |]. split; reflexivity.
Qed.

(** In the compiled copy, on a launched browser, when a call of a step
    that the loop reaches throws, [executeStep] turns the error into a
    failed step result with its message, and the run ends with the status
    ["fail"]. *)
Lemma compiled_throwing_step (t : Test) (s : State)
  (before rest : list AutomationStep) (step : AutomationStep)
  (p : Compiled.Progress) (s1 s2 : State) (b : BrowserType) (e : exn) :
  automation_steps t = before ++ step :: rest ->
  Compiled.run_steps t before (Compiled.mkProgress [] Compiled.empty_analysis)
                     (set_ticks (2 + ticks s) s)
  = (Ok (p, None), s1) ->
  browser s1 = Some b ->
  (pw NewContext ;; pw NewPage ;; Compiled.perform step ;; pw ContextClose)%async
    (set_ticks (S (ticks s1)) s1) = (Throw e, s2) ->
  exists r s',
    Compiled.produce t s
    = (Ok (r, Some (JsError ("Step failed: " ++ exn_message e)%string)), s')
    /\ tr_status r = Fail
    /\ tr_steps r
       = Compiled.done_steps p
         ++ [mkStepResult StepFail (action_name (step_action step))
               (date_now (env s2) (ticks s2) - date_now (env s1) (ticks s1))
               (Some (exn_message e))].
Proof.
  intros Hsteps Hbefore Hb Hthrow.
  unfold Compiled.produce. rewrite bind_now, bind_uuid.
  unfold Compiled.run_body. unfold bind at 1. unfold bind at 1.
  rewrite Hsteps.
  match goal with
  | |- context [Compiled.run_steps _ _ _ ?s0] =>
      change s0 with (set_ticks (2 + ticks s) s)
  end.
  cbn [tr_visualAnalysis Compiled.initial_result].
  rewrite (compiled_run_steps_app t before (step :: rest) _ _ _ _ Hbefore).
  simpl Compiled.run_steps. unfold bind at 1. unfold attempt.
  rewrite (compiled_step_throw step s1 s2 b e Hb Hthrow).
  cbn [sr_status sr_error]. unfold ret at 1. unfold ret at 1.
  rewrite bind_now.
  eexists _, _. split; [reflexivity |]. split; reflexivity.
Qed.

(** The compiled copy before any browser was launched: [executeStep]
    itself throws, no step result is recorded, and the status is
    ["fail"]. *)
Lemma compiled_produce_unlaunched (t : Test) (s : State) :
  browser s = None ->
  automation_steps t <> [] \/ assert_performance t = true ->
  exists r s',
    Compiled.produce t s
    = (Ok (r, Some (JsError "Browser not initialized")), s')
    /\ tr_status r = Fail
    /\ tr_steps r = [].
Proof.
  intros Hb Hwork.
  unfold Compiled.produce. rewrite bind_now, bind_uuid.
  unfold Compiled.run_body.
  destruct (automation_steps t) as [| step rest] eqn:Hsteps.
  - destruct Hwork as [Hwork | Hperf]; [congruence |].
    simpl Compiled.run_steps.
    unfold bind at 1. unfold bind at 1. unfold ret at 1.
    rewrite Hperf.
    unfold bind at 1, attempt, Compiled.collectMetrics.
    unfold bind at 1, get_browser, this. cbn [browser set_ticks]. rewrite Hb.
    unfold throw at 1. unfold ret at 1. rewrite bind_now.
    eexists _, _. split; [reflexivity |]. simpl. repeat split.
  - simpl Compiled.run_steps.
    unfold bind at 1. unfold bind at 1. unfold bind at 1.
    unfold attempt, Compiled.executeStep.
    unfold bind at 1, get_browser, this. cbn [browser set_ticks]. rewrite Hb.
    unfold throw at 1. unfold ret at 1. unfold ret at 1. rewrite bind_now.
    eexists _, _. split; [reflexivity |]. simpl. repeat split.
Qed.

(** In the source, when every step passed and [collectMetrics] throws,
    the error is caught outside any step: the steps recorded all say
    ["pass"] and the run ends with the status ["fail"]. *)
Lemma source_throwing_metrics (t : Test) (s : State)
  (steps : list StepResult) (s1 s2 : State) (e : exn) :
  Source.run_steps (target_url t) (automation_steps t) []
                   (set_ticks (3 + ticks s) s)
  = (Ok (steps, None), s1) ->
  assert_performance t = true ->
  Source.collectMetrics (target_url t) s1 = (Throw e, s2) ->
  exists r s',
    Source.produce t s = (Ok (r, Some e), s')
    /\ tr_status r = Fail
    /\ tr_steps r = steps.
Proof.
  intros Hsteps Hperf Hm.
  unfold Source.produce. rewrite bind_now, bind_uuid, bind_now.
  match goal with
  | |- context [bind (Source.run_body t ?r) _ ?s0] =>
      change s0 with (set_ticks (3 + ticks s) s);
      rewrite (bind_ok _ _ _ _ _
                 (source_metrics_throw t r steps _ s1 s2 e Hsteps Hperf Hm))
  end.
  rewrite bind_now.
  eexists _, _. split; [reflexivity |]. split; reflexivity.
Qed.

(** C5, as amended.  In both copies no run ends with the status
    ["error"]: whatever the [catch] block of [runTest] catches, the status
    is ["fail"], and a step result that says ["fail"] carries the text of
    its error, which the error caught repeats.  A step whose backend call
    throws fails the run: in the source [executeStep] throws and
    [runTest] records a failed step with the message of the error after
    the steps that passed; in the compiled copy, on a launched browser,
    [executeStep] itself answers that failed step; in both the status of
    the run is ["fail"] and the error caught is ["Step failed: "] followed
    by the message.  In the compiled copy before any browser was launched
    [executeStep] throws ['Browser not initialized'], no step is recorded
    and the status is ["fail"].  An error thrown outside the steps, as by
    [collectMetrics] when no browser was launched, gives the status
    ["fail"] too, with the steps that passed.  (The loop of the source
    starts after three observations, two readings of the clock and the
    uuid of the result; the one of the compiled copy after two.) *)
Theorem C5_thrown_errors_fail_the_run (t : Test) (s : State) :
  (exists r caught s',
      Source.produce t s = (Ok (r, caught), s')
      /\ tr_status r <> Error
      /\ (caught <> None -> tr_status r = Fail)
      /\ (forall sr, In sr (tr_steps r) -> sr_status sr = StepFail ->
            tr_status r = Fail
            /\ exists text,
                 sr_error sr = Some text
                 /\ caught = Some (JsError ("Step failed: " ++ text)%string)))
  /\ (exists r caught s',
         Compiled.produce t s = (Ok (r, caught), s')
         /\ tr_status r <> Error
         /\ (caught <> None -> tr_status r = Fail)
         /\ (forall sr, In sr (tr_steps r) -> sr_status sr = StepFail ->
               tr_status r = Fail
               /\ exists text,
                    sr_error sr = Some text
                    /\ caught = Some (JsError ("Step failed: " ++ text)%string)))
  /\ (forall before step rest done s1 s2 e,
        automation_steps t = before ++ step :: rest ->
        Source.run_steps (target_url t) before [] (set_ticks (3 + ticks s) s)
        = (Ok (done, None), s1) ->
        Source.executeStep step (target_url t) (set_ticks (S (ticks s1)) s1)
        = (Throw e, s2) ->
        exists r s',
          Source.produce t s
          = (Ok (r, Some (JsError ("Step failed: " ++ exn_message e)%string)), s')
          /\ tr_status r = Fail
          /\ tr_steps r
             = done ++ [mkStepResult StepFail (action_name (step_action step))
                          (date_now (env s2) (ticks s2)
                           - date_now (env s1) (ticks s1))
                          (Some (exn_message e))])
  /\ (forall before step rest p s1 s2 b e,
        automation_steps t = before ++ step :: rest ->
        Compiled.run_steps t before
          (Compiled.mkProgress [] Compiled.empty_analysis)
          (set_ticks (2 + ticks s) s)
        = (Ok (p, None), s1) ->
        browser s1 = Some b ->
        (pw NewContext ;; pw NewPage ;; Compiled.perform step ;; pw ContextClose)%async
          (set_ticks (S (ticks s1)) s1) = (Throw e, s2) ->
        exists r s',
          Compiled.produce t s
          = (Ok (r, Some (JsError ("Step failed: " ++ exn_message e)%string)), s')
          /\ tr_status r = Fail
          /\ tr_steps r
             = Compiled.done_steps p
               ++ [mkStepResult StepFail (action_name (step_action step))
                     (date_now (env s2) (ticks s2)
                      - date_now (env s1) (ticks s1))
                     (Some (exn_message e))])
  /\ (browser s = None ->
      automation_steps t <> [] \/ assert_performance t = true ->
      exists r s',
        Compiled.produce t s
        = (Ok (r, Some (JsError "Browser not initialized")), s')
        /\ tr_status r = Fail
        /\ tr_steps r = [])
  /\ (forall steps s1 s2 e,
        Source.run_steps (target_url t) (automation_steps t) []
                         (set_ticks (3 + ticks s) s)
        = (Ok (steps, None), s1) ->
        assert_performance t = true ->
        Source.collectMetrics (target_url t) s1 = (Throw e, s2) ->
        exists r s',
          Source.produce t s = (Ok (r, Some e), s')
          /\ tr_status r = Fail
          /\ tr_steps r = steps)
  /\ (forall s1,
        browser s1 = None ->
        Source.collectMetrics (target_url t) s1
        = (Throw (JsError "Browser not initialized"), s1)).
Proof.
  split.
  { destruct (source_produce_spec t s)
      as (r & caught & s' & Hp & _ & Hout & _).
    destruct (run_outcome_status _ r caught Hout) as ([H1 | H1] & H2 & _).
    - exists r, caught, s'. split; [exact Hp |].
      split; [congruence |]. split.
      + intro Hc. exfalso. apply Hc. apply H2. exact H1.
      + intros sr. apply (run_outcome_failed_step _ r caught sr Hout).
    - exists r, caught, s'. split; [exact Hp |].
      split; [congruence |]. split; [intros _; exact H1 |].
      intros sr. apply (run_outcome_failed_step _ r caught sr Hout). }
  split.
  { destruct (compiled_produce_spec t s)
      as (r & caught & s' & Hp & _ & Hout & _).
    destruct (run_outcome_status _ r caught Hout) as ([H1 | H1] & H2 & _).
    - exists r, caught, s'. split; [exact Hp |].
      split; [congruence |]. split.
      + intro Hc. exfalso. apply Hc. apply H2. exact H1.
      + intros sr. apply (run_outcome_failed_step _ r caught sr Hout).
    - exists r, caught, s'. split; [exact Hp |].
      split; [congruence |]. split; [intros _; exact H1 |].
      intros sr. apply (run_outcome_failed_step _ r caught sr Hout). }
  split; [intros before step rest; apply source_throwing_step |].
  split; [intros before step rest; apply compiled_throwing_step |].
  split; [apply compiled_produce_unlaunched |].
  split; [apply source_throwing_metrics |].
  intros s1. apply source_metrics_uninitialized.
Qed.

Lemma wait_passes_click_throws :
  let url := target_url wait_then_click in
  let waited := Source.run_steps url [wait_step] [] (set_ticks 3 unresponsive) in
  let clicked :=
    Source.executeStep click_login url
      (set_ticks (S (ticks (snd waited))) (snd waited)) in
  waited = (Ok ([mkStepResult StepPass "wait" 6 None], None), snd waited)
  /\ clicked = (Throw (JsError "Timeout 30000ms exceeded."), snd clicked).
Proof. vm_compute. split; reflexivity. Qed.

Lemma wait_passes_click_fails :
  let waited :=
    Compiled.run_steps wait_then_click [wait_step]
      (Compiled.mkProgress [] Compiled.empty_analysis)
      (set_ticks 2 unresponsive) in
  let clicked :=
    (pw NewContext ;; pw NewPage ;; Compiled.perform click_login ;;
     pw ContextClose)%async
      (set_ticks (S (ticks (snd waited))) (snd waited)) in
  waited
  = (Ok (Compiled.mkProgress [mkStepResult StepPass "wait" 5 None]
                             Compiled.empty_analysis, None), snd waited)
  /\ browser (snd waited) = Some Chromium
  /\ clicked = (Throw (JsError "Timeout 30000ms exceeded."), snd clicked).
Proof. vm_compute. repeat split; reflexivity. Qed.

(** A wait that passes, then a click on an element that never shows up,
    in both copies; and the compiled copy before any launch. *)
Lemma C5_thrown_errors_fail_the_run_witness :
  (exists r s',
      Source.produce wait_then_click unresponsive
      = (Ok (r, Some (JsError "Step failed: Timeout 30000ms exceeded.")), s')
      /\ tr_status r = Fail
      /\ map sr_status (tr_steps r) = [StepPass; StepFail]
      /\ map sr_error (tr_steps r) = [None; Some "Timeout 30000ms exceeded."])
  /\ (exists r s',
         Compiled.produce wait_then_click unresponsive
         = (Ok (r, Some (JsError "Step failed: Timeout 30000ms exceeded.")), s')
         /\ tr_status r = Fail
         /\ map sr_status (tr_steps r) = [StepPass; StepFail]
         /\ map sr_error (tr_steps r) = [None; Some "Timeout 30000ms exceeded."])
  /\ (exists r s',
         Compiled.produce wait_then_click fresh
         = (Ok (r, Some (JsError "Browser not initialized")), s')
         /\ tr_status r = Fail
         /\ tr_steps r = []).
Proof.
  destruct (C5_thrown_errors_fail_the_run wait_then_click unresponsive)
    as (_ & _ & Hsource & Hcompiled & _).
  destruct (C5_thrown_errors_fail_the_run wait_then_click fresh)
    as (_ & _ & _ & _ & Hunlaunched & _).
  destruct wait_passes_click_throws as [Hwait Hclick].
  destruct wait_passes_click_fails as (Hwait' & Hb' & Hclick').
  split; [| split].
  - destruct (Hsource [wait_step] click_login [] _ _ _ _ eq_refl Hwait Hclick)
      as (r & s' & Hp & Hst & Hsteps).
    exists r, s'. split; [exact Hp |]. split; [exact Hst |].
    rewrite Hsteps. split; reflexivity.
  - destruct (Hcompiled [wait_step] click_login [] _ _ _ _ _ eq_refl
                Hwait' Hb' Hclick')
      as (r & s' & Hp & Hst & Hsteps).
    exists r, s'. split; [exact Hp |]. split; [exact Hst |].
    rewrite Hsteps. split; reflexivity.
  - apply Hunlaunched; [reflexivity | left; discriminate].
Defined.

(** C5 as the specification states it fails: metrics are requested
    before any browser was launched, [collectMetrics] throws outside any
    step, and the run ends with the status ["fail"], not ["error"]. *)
Lemma C5_error_outside_steps_is_fail :
  Source.collectMetrics (target_url metrics_only_test) fresh
  = (Throw (JsError "Browser not initialized"), fresh)
  /\ exists r s',
       Source.runTest metrics_only_test fresh = (Ok r, s')
       /\ tr_steps r = []
       /\ tr_status r = Fail
       /\ tr_status r <> Error.
Proof.
  split; [reflexivity |].
  eexists _, _. split; [vm_compute; reflexivity |].
  repeat split. discriminate.
Qed.

(** ** What the two copies of [runTest] have in common *)

Lemma source_run_steps_actions (url : string) (steps : list AutomationStep) :
  forall done s out thrown s',
    Source.run_steps url steps done s = (Ok (out, thrown), s') ->
    exists new,
      out = done ++ new
      /\ map sr_action new = step_actions (firstn (List.length new) steps).
Proof.
  induction steps as [| step rest IH]; intros done s out thrown s' H.
  - simpl in H. unfold ret in H. injection H as <- _ _.
    exists []. rewrite app_nil_r. split; reflexivity.
  - simpl Source.run_steps in H. rewrite bind_now in H.
    unfold bind at 1 in H.
    destruct (attempt (Source.executeStep step url) (set_ticks (S (ticks s)) s))
      as [[[e | []] | e | w] s2]; try discriminate H.
    + rewrite bind_now in H. unfold ret in H. injection H as <- _ _.
      eexists [_]. split; reflexivity.
    + rewrite bind_now in H. apply IH in H as (new & -> & Hnew).
      eexists (_ :: new). rewrite <- app_assoc. split; [reflexivity |].
      simpl. unfold step_actions in *. simpl. rewrite Hnew. reflexivity.
Qed.

Lemma compiled_executeStep_action (step : AutomationStep) (s s' : State)
  (r : StepResult) :
  Compiled.executeStep step s = (Ok r, s') ->
  sr_action r = action_name (step_action step).
Proof.
  unfold Compiled.executeStep. unfold bind at 1, get_browser, this.
  destruct (browser s); [| discriminate].
  rewrite bind_now. unfold bind at 1.
  match goal with
  | |- context [attempt ?m ?s0] =>
      destruct (attempt m s0) as [[[e | []] | e | w] s1]; try discriminate
  end; rewrite bind_now; unfold ret; intro H; injection H as <- _; reflexivity.
Qed.

Lemma compiled_run_steps_actions (t : Test) (steps : list AutomationStep) :
  forall p s p' thrown s',
    Compiled.run_steps t steps p s = (Ok (p', thrown), s') ->
    exists new,
      Compiled.done_steps p' = Compiled.done_steps p ++ new
      /\ map sr_action new = step_actions (firstn (List.length new) steps).
Proof.
  induction steps as [| step rest IH]; intros p s p' thrown s' H.
  - simpl in H. unfold ret in H. injection H as <- _ _.
    exists []. rewrite app_nil_r. split; reflexivity.
  - simpl Compiled.run_steps in H. unfold bind at 1 in H.
    destruct (attempt (Compiled.executeStep step) s)
      as [[[e | sr] | e | w] s2] eqn:Hstep; try discriminate H.
    + unfold ret in H. injection H as <- _ _.
      exists []. rewrite app_nil_r. split; reflexivity.
    + assert (Haction : sr_action sr = action_name (step_action step)).
      { unfold attempt in Hstep.
        destruct (Compiled.executeStep step s) as [[r0 | e0 | w0] s0] eqn:Hex;
          try discriminate Hstep.
        injection Hstep as <- <-.
        apply (compiled_executeStep_action step s s0 r0 Hex). }
      assert (Hgrow : forall new,
                 map sr_action new
                 = step_actions (firstn (List.length new) rest) ->
                 map sr_action (sr :: new)
                 = step_actions (firstn (List.length (sr :: new)) (step :: rest))).
      { intros new Hnew. simpl. unfold step_actions in *. simpl.
        rewrite Haction, Hnew. reflexivity. }
      destruct (sr_status sr).
      * destruct (assert_visual t).
        -- unfold bind at 1 in H.
           match type of H with
           | context [attempt ?m s2] =>
               destruct (attempt m s2) as [[[e | a] | e | w] s3];
                 try discriminate H
           end.
           ++ unfold ret in H. injection H as <- _ _.
              exists [sr]. split; [reflexivity |]. apply (Hgrow []). reflexivity.
           ++ apply IH in H as (new & Hdone & Hnew).
              exists (sr :: new). simpl in Hdone. rewrite <- app_assoc in Hdone.
              split; [exact Hdone | apply Hgrow, Hnew].
        -- apply IH in H as (new & Hdone & Hnew).
           exists (sr :: new). simpl in Hdone. rewrite <- app_assoc in Hdone.
           split; [exact Hdone | apply Hgrow, Hnew].
      * unfold ret in H. injection H as <- _ _.
        exists [sr]. split; [reflexivity |]. apply (Hgrow []). reflexivity.
Qed.

Lemma source_produce_actions (t : Test) (s s' : State) (r : TestResult)
  (caught : option exn) :
  Source.produce t s = (Ok (r, caught), s') -> records_a_prefix t r.
Proof.
  unfold Source.produce. rewrite bind_now, bind_uuid, bind_now.
  intro H. apply bind_inv in H as ([r0 c0] & s1 & Hbody & H).
  rewrite bind_now in H. unfold ret in H. injection H as <- _ _.
  unfold Source.run_body in Hbody.
  apply bind_inv in Hbody as ([out thrown] & s2 & Hsteps & Hbody).
  apply source_run_steps_actions in Hsteps as (new & -> & Hnew).
  simpl app in Hbody.
  assert (Hr0 : tr_steps r0 = new).
  { destruct thrown as [e |].
    - unfold ret in Hbody. injection Hbody as <- _ _. reflexivity.
    - destruct (assert_performance t).
      + apply bind_inv in Hbody as ([e | m] & s3 & _ & Hbody);
          unfold ret in Hbody; injection Hbody as <- _ _; reflexivity.
      + unfold ret in Hbody. injection Hbody as <- _ _. reflexivity. }
  unfold records_a_prefix. simpl. rewrite Hr0. exact Hnew.
Qed.

Lemma compiled_produce_actions (t : Test) (s s' : State) (r : TestResult)
  (caught : option exn) :
  Compiled.produce t s = (Ok (r, caught), s') -> records_a_prefix t r.
Proof.
  unfold Compiled.produce. rewrite bind_now, bind_uuid.
  intro H. apply bind_inv in H as ([r0 c0] & s1 & Hbody & H).
  rewrite bind_now in H. unfold ret in H. injection H as <- _ _.
  unfold Compiled.run_body in Hbody.
  apply bind_inv in Hbody as ([p thrown] & s2 & Hsteps & Hbody).
  apply compiled_run_steps_actions in Hsteps as (new & Hdone & Hnew).
  simpl in Hdone.
  assert (Hr0 : tr_steps r0 = new).
  { rewrite <- Hdone. destruct thrown as [e |].
    - unfold ret in Hbody. injection Hbody as <- _ _. reflexivity.
    - destruct (assert_performance t).
      + apply bind_inv in Hbody as ([e | m] & s3 & _ & Hbody);
          unfold ret in Hbody; injection Hbody as <- _ _; reflexivity.
      + unfold ret in Hbody. injection Hbody as <- _ _. reflexivity. }
  unfold records_a_prefix. simpl. rewrite Hr0. exact Hnew.
Qed.

(** C9, as amended.  The two copies of [runTest] are two revisions of the
    method, not duplicates.  What they have in common, for every test and
    every state: each builds one result, which carries the identity of the
    test, has the status ["pass"] or ["fail"], the former exactly when its
    [catch] block caught nothing, and records the actions of the first
    steps of the test in order, of all of them when the status is
    ["pass"].  The source returns that result; the compiled copy returns
    nothing and hands the result to its [finally] block, which appends it
    to the session results, saves and calls [processQueue].  On a snapshot
    with no test pending, neither touches [pending], the session
    screenshots, the history of tests or the configuration, and each
    counts one more run. *)
Theorem C9_copies_agree_up_to_bookkeeping (t : Test) (s : State) :
  exists r_ts c_ts s1 r_js c_js s2,
    Source.produce t s = (Ok (r_ts, c_ts), s1)
    /\ Compiled.produce t s = (Ok (r_js, c_js), s2)
    /\ (exists s_ts, Source.runTest t s = (Ok r_ts, s_ts))
    /\ (forall next,
          Compiled.runTest_then next t s
          = bind saveState (fun _ => next)
                 (set_system (Compiled.runTest_finally t r_js (system s)) s2))
    /\ tr_testId r_ts = test_id t
    /\ tr_testId r_js = test_id t
    /\ (tr_status r_ts = Pass \/ tr_status r_ts = Fail)
    /\ (tr_status r_js = Pass \/ tr_status r_js = Fail)
    /\ (tr_status r_ts = Pass <-> c_ts = None)
    /\ (tr_status r_js = Pass <-> c_js = None)
    /\ records_a_prefix t r_ts
    /\ records_a_prefix t r_js
    /\ (tr_status r_ts = Pass ->
        map sr_action (tr_steps r_ts) = step_actions (automation_steps t))
    /\ (tr_status r_js = Pass ->
        map sr_action (tr_steps r_js) = step_actions (automation_steps t))
    /\ (pending (queue (system s)) = [] ->
        exists s_ts o_js s_js,
          Source.runTest t s = (Ok r_ts, s_ts)
          /\ Compiled.runTest t s = (o_js, s_js)
          /\ (o_js = Ok tt \/ exists e, o_js = Throw e)
          /\ results (current (system s_js))
             = results (current (system s)) ++ [r_js]
          /\ pending (queue (system s_ts)) = []
          /\ pending (queue (system s_js)) = []
          /\ screenshots (current (system s_ts)) = screenshots (current (system s))
          /\ screenshots (current (system s_js)) = screenshots (current (system s))
          /\ history_tests (system s_ts) = history_tests (system s)
          /\ history_tests (system s_js) = history_tests (system s)
          /\ config (system s_ts) = config (system s)
          /\ config (system s_js) = config (system s)
          /\ totalRuns (analytics (system s_ts))
             = S (totalRuns (analytics (system s)))
          /\ totalRuns (analytics (system s_js))
             = S (totalRuns (analytics (system s)))).
Proof.
  destruct (source_produce_spec t s)
    as (r_ts & c_ts & s1 & Hp_ts & Hsys_ts & Hout_ts & _ & Hid_ts).
  destruct (compiled_runTest_then_spec t s)
    as (r_js & c_js & s2 & Hp_js & Hsys_js & Hthen).
  destruct (compiled_produce_spec t s)
    as (r' & c' & s' & Hp' & _ & Hout_js & Hid_js).
  rewrite Hp_js in Hp'. injection Hp' as <- <- <-.
  destruct (run_outcome_status _ r_ts c_ts Hout_ts) as (Hst_ts & Hiff_ts & Hall_ts & _).
  destruct (run_outcome_status _ r_js c_js Hout_js) as (Hst_js & Hiff_js & Hall_js & _).
  pose proof (source_produce_actions t s s1 r_ts c_ts Hp_ts) as Hpre_ts.
  pose proof (compiled_produce_actions t s s2 r_js c_js Hp_js) as Hpre_js.
  assert (Hrun_ts : Source.runTest t s
                    = (Ok r_ts, set_system (updateAnalytics r_ts (system s)) s1)).
  { unfold Source.runTest. rewrite (bind_ok _ _ _ _ _ Hp_ts).
    unfold bind, modify_system, ret. simpl. rewrite Hsys_ts. reflexivity. }
  assert (Hfull : forall r : TestResult,
             records_a_prefix t r ->
             List.length (tr_steps r) = List.length (automation_steps t) ->
             map sr_action (tr_steps r) = step_actions (automation_steps t)).
  { intros r Hpre Hlen. unfold records_a_prefix in Hpre.
    rewrite Hlen, firstn_all in Hpre. exact Hpre. }
  exists r_ts, c_ts, s1, r_js, c_js, s2.
  split; [exact Hp_ts |]. split; [exact Hp_js |].
  split; [eexists; exact Hrun_ts |]. split; [exact Hthen |].
  split; [exact Hid_ts |]. split; [exact Hid_js |].
  split; [exact Hst_ts |]. split; [exact Hst_js |].
  split; [exact Hiff_ts |]. split; [exact Hiff_js |].
  split; [exact Hpre_ts |]. split; [exact Hpre_js |].
  split; [intro H; apply Hfull; [exact Hpre_ts | apply Hall_ts, H] |].
  split; [intro H; apply Hfull; [exact Hpre_js | apply Hall_js, H] |].
  intro Hpending.
  destruct (compiled_runTest_spec t s Hpending)
    as (r' & c' & o_js & s_js & Hp' & Hrun_js & Hsys_sjs & Ho).
  rewrite Hp_js in Hp'. injection Hp' as <- <-.
  exists (set_system (updateAnalytics r_ts (system s)) s1), o_js, s_js.
  split; [exact Hrun_ts |]. split; [exact Hrun_js |]. split; [exact Ho |].
  rewrite Hsys_sjs. simpl system.
  unfold Compiled.runTest_finally.
  destruct (Compiled.status_is_pass (tr_status r_js)); simpl;
    repeat split; assumption.
Qed.

Lemma after_one_run_idle : pending (queue (system after_one_run)) = [].
Proof. vm_compute. reflexivity. Qed.

(** A wait and a click that times out, on an orchestrator that has run
    one test before. *)
Lemma C9_copies_agree_up_to_bookkeeping_witness :
  exists r_ts s_ts r_js o_js s_js,
    Source.runTest wait_then_click after_one_run = (Ok r_ts, s_ts)
    /\ Compiled.runTest wait_then_click after_one_run = (o_js, s_js)
    /\ tr_testId r_ts = "w"
    /\ tr_testId r_js = "w"
    /\ records_a_prefix wait_then_click r_ts
    /\ records_a_prefix wait_then_click r_js
    /\ List.length (results (current (system s_js))) = 2
    /\ totalRuns (analytics (system s_ts)) = 2
    /\ totalRuns (analytics (system s_js)) = 2.
Proof.
  destruct (C9_copies_agree_up_to_bookkeeping wait_then_click after_one_run)
    as (r_ts & c_ts & s1 & r_js & c_js & s2 & _ & _ & _ & _ & Hid_ts & Hid_js
        & _ & _ & _ & _ & Hpre_ts & Hpre_js & _ & _ & Hidle).
  destruct (Hidle after_one_run_idle)
    as (s_ts & o_js & s_js & Hrun_ts & Hrun_js & _ & Hres & _ & _ & _ & _ & _
        & _ & _ & _ & Hruns_ts & Hruns_js).
  exists r_ts, s_ts, r_js, o_js, s_js.
  split; [exact Hrun_ts |]. split; [exact Hrun_js |].
  split; [exact Hid_ts |]. split; [exact Hid_js |].
  split; [exact Hpre_ts |]. split; [exact Hpre_js |].
  split; [rewrite Hres, length_app; reflexivity |].
  split; [exact Hruns_ts | exact Hruns_js].
Defined.

(** C9 as the specification states it fails.  A click without a target,
    on the same launched orchestrator: both runs fail, with different
    messages in the failed step, and the result of the source carries the
    placeholder analysis where the one of the compiled copy carries the
    empty one; the source returns its result, the compiled copy
    [undefined]. *)
Lemma C9_copies_differ :
  exists r_ts s_ts r_js c_js s2 s_js,
    Source.runTest aimless_click_test (launched fresh) = (Ok r_ts, s_ts)
    /\ Compiled.produce aimless_click_test (launched fresh) = (Ok (r_js, c_js), s2)
    /\ Compiled.runTest aimless_click_test (launched fresh) = (Ok tt, s_js)
    /\ results (current (system s_js)) = [r_js]
    /\ map sr_error (tr_steps r_ts)
       = [Some "Target selector is required for click action"]
    /\ map sr_error (tr_steps r_js) = [Some "Target required for click action"]
    /\ tr_visualAnalysis r_ts = placeholder_analysis
    /\ tr_visualAnalysis r_js = Compiled.empty_analysis
    /\ r_ts <> r_js.
Proof.
  eexists _, _, _, _, _, _.
  split; [vm_compute; reflexivity |].
  split; [vm_compute; reflexivity |].
  split; [vm_compute; reflexivity |].
  split; [reflexivity |].
  split; [reflexivity |]. split; [reflexivity |].
  split; [reflexivity |]. split; [reflexivity |].
  discriminate.
Qed.

(** ** Saving and loading *)

(** C8, as amended.  A snapshot whose doubles are all finite and none of
    them negative zero is saved; the write succeeds.  An orchestrator
    started afterwards over the same disk and the same path, whatever it
    holds in memory, and whose read of the file does not fail, holds the
    saved snapshot after [loadState]. *)
Theorem C8_save_then_load (s s1 s2 : State) :
  system_ok (system s) = true ->
  saveState s = (Ok tt, s1) ->
  disk s2 = disk s1 ->
  stateFilePath s2 = stateFilePath s ->
  fs_fault (env s2) (ticks s2) (ReadFile (stateFilePath s2)) = None ->
  exists s3, loadState s2 = (Ok tt, s3) /\ system s3 = system s.
Proof.
  intros Hok Hsave Hdisk Hpath Hread.
  apply saveState_writes in Hsave as (Hwritten & _ & _).
  unfold loadState, try_catch, fs_readFile, fs_call.
  unfold bind, this, observe, ret, throw. simpl.
  rewrite Hread. simpl. rewrite Hdisk, Hwritten, Hpath. simpl.
  rewrite String.eqb_refl. simpl.
  rewrite (dec_enc_system (system s) Hok).
  eexists. split; reflexivity.
Qed.

Lemma seasoned_snapshot :
  system_ok (system seasoned) = true
  /\ saveState seasoned = (Ok tt, snd (saveState seasoned))
  /\ map test_id (completed (queue (system seasoned))) = ["v"; "m"]
  /\ map tr_testId (results (current (system seasoned))) = ["v"; "m"]
  /\ map tr_visualAnalysis (results (current (system seasoned)))
     = [placeholder_analysis; Compiled.empty_analysis]
  /\ screenshots (current (system seasoned)) = [sample_shot]
  /\ passRate (analytics (system seasoned)) = 100%float.
Proof. vm_compute. do 6 (split; [reflexivity |]). reflexivity. Qed.

Lemma seasoned_restart :
  let s2 := restart (snd (saveState seasoned)) in
  disk s2 = disk (snd (saveState seasoned))
  /\ stateFilePath s2 = stateFilePath seasoned
  /\ fs_fault (env s2) (ticks s2) (ReadFile (stateFilePath s2)) = None.
Proof. vm_compute. do 2 (split; [reflexivity |]). reflexivity. Qed.

(** Two runs, one with a click and a visual analysis, one with metrics,
    and a screenshot in between: the snapshot holds two tests, two
    results with their step results, metrics and scores, a screenshot and
    the analytics; it is saved, the process is restarted, and [loadState]
    holds it again. *)
Lemma C8_save_then_load_witness :
  exists s1 s3,
    saveState seasoned = (Ok tt, s1)
    /\ loadState (restart s1) = (Ok tt, s3)
    /\ system s3 = system seasoned
    /\ map tr_testId (results (current (system seasoned))) = ["v"; "m"]
    /\ screenshots (current (system seasoned)) = [sample_shot].
Proof.
  destruct seasoned_snapshot as (Hok & Hsave & _ & Hresults & _ & Hshots & _).
  destruct seasoned_restart as (Hdisk & Hpath & Hread).
  destruct (C8_save_then_load seasoned (snd (saveState seasoned))
              (restart (snd (saveState seasoned)))
              Hok Hsave Hdisk Hpath Hread) as (s3 & Hload & Hsys).
  exists (snd (saveState seasoned)), s3.
  split; [exact Hsave |]. split; [exact Hload |]. split; [exact Hsys |].
  split; [exact Hresults | exact Hshots].
Defined.

(** C8 as the specification states it fails.  A test is posted whose
    tolerance is written [1e999]; the handler accepts it and the snapshot
    is saved.  The snapshot in memory holds the tolerance [Infinity];
    [JSON.stringify] prints [null] for it; what a restarted orchestrator
    reads from the file and parses, the value [loadState] assigns to the
    snapshot, holds [null] where the snapshot saved holds [Infinity]. *)
Lemma C8_infinity_is_saved_as_null :
  map screenshots_tolerance (running (queue (system after_huge_tolerance)))
  = [PrimFloat.infinity]
  /\ enc_num PrimFloat.infinity = JNull
  /\ exists s1 parsed s2 test,
       saveState after_huge_tolerance = (Ok tt, s1)
       /\ (path <- this stateFilePath ;;
           data <- fs_readFile path ;;
           JSON_parse data)%async (restart s1)
          = (Ok parsed, s2)
       /\ path ["orchestrator"; "testRunner"; "queue"; "running"] (Some parsed)
          = Some (JArr [test])
       /\ path ["visual"; "screenshots"; "tolerance"] (Some test) = Some JNull.
Proof.
  split; [vm_compute; reflexivity |].
  split; [reflexivity |].
  eexists _, _, _, _.
  split; [vm_compute; reflexivity |].
  split; [vm_compute; reflexivity |].
  split; vm_compute; reflexivity.
Qed.

(** ** First in, first out, one at a time *)

Lemma processQueue_takes_head (s : State) (t : Test) (rest : list Test) :
  phase (current (system s)) = SetupPhase ->
  pending (queue (system s)) = t :: rest ->
  Source.processQueue s
  = (saveState ;; Source.runTest t ;; ret tt)%async
      (set_system (taken t rest (system s)) s)
  /\ Compiled.processQueue s
     = (saveState ;;
        Compiled.runTest_then
          (Compiled.processQueue_fuel (S (List.length rest))) t)%async
         (set_system (taken t rest (system s)) s).
Proof.
  intros Hphase Hq. split.
  - unfold Source.processQueue. unfold bind at 1, get_system, this.
    rewrite (processQueue_head_takes _ t rest Hphase Hq). reflexivity.
  - unfold Compiled.processQueue. unfold bind at 1, get_system, this.
    rewrite Hq. simpl Compiled.processQueue_fuel.
    unfold bind at 1, get_system, this.
    rewrite (processQueue_head_takes _ t rest Hphase Hq). reflexivity.
Qed.

Lemma compiled_queueTest_fifo (t : Test) (s : State) :
  healthy_disk (env s) ->
  phase (current (system s)) = SetupPhase ->
  running (queue (system s)) = [] ->
  exists new s',
    Compiled.queueTest t s = (Ok tt, s')
    /\ pending (queue (system s')) = []
    /\ running (queue (system s')) = []
    /\ phase (current (system s')) = SetupPhase
    /\ results (current (system s')) = results (current (system s)) ++ new
    /\ map tr_testId new = map test_id (pending (queue (system s)) ++ [t])
    /\ env s' = env s.
Proof.
  intros Hdisk Hphase Hidle.
  unfold Compiled.queueTest. unfold bind at 1, modify_system.
  match goal with
  | |- context [bind saveState _ ?s0] =>
      destruct (saveState_healthy s0 Hdisk) as (s2 & Hsave & Hsys2 & Henv2);
      unfold bind at 1; rewrite Hsave
  end.
  simpl in Hsys2, Henv2.
  unfold Compiled.processQueue. unfold bind at 1, get_system, this.
  destruct (compiled_processQueue_runs_all
              (S (List.length (pending (queue (system s2))))) s2)
    as (new & s' & Hgo & Hp & Hr & Hph & Hres & Hids & _ & Henv').
  - lia.
  - rewrite Henv2. exact Hdisk.
  - rewrite Hsys2. exact Hphase.
  - rewrite Hsys2. exact Hidle.
  - exists new, s'. rewrite Hsys2 in Hres, Hids. simpl in Hres, Hids.
    split; [exact Hgo |]. split; [exact Hp |]. split; [exact Hr |].
    split; [exact Hph |]. split; [exact Hres |]. split; [exact Hids |].
    rewrite Henv', Henv2. reflexivity.
Qed.

(** In the compiled copy, tests handed to [queueTest] one after the
    other are run in the order of the calls. *)
Lemma enqueue_all_fifo (tests : list Test) :
  forall s,
    healthy_disk (env s) ->
    phase (current (system s)) = SetupPhase ->
    running (queue (system s)) = [] ->
    pending (queue (system s)) = [] ->
    exists new s',
      enqueue_all Compiled.queueTest tests s = (Ok tt, s')
      /\ results (current (system s')) = results (current (system s)) ++ new
      /\ map tr_testId new = map test_id tests
      /\ pending (queue (system s')) = []
      /\ running (queue (system s')) = []
      /\ phase (current (system s')) = SetupPhase.
Proof.
  induction tests as [| t rest IH]; intros s Hdisk Hphase Hidle Hq.
  - exists [], s. rewrite app_nil_r. simpl. auto 10.
  - destruct (compiled_queueTest_fifo t s Hdisk Hphase Hidle)
      as (first & s1 & Hrun & Hq1 & Hidle1 & Hphase1 & Hres1 & Hids1 & Henv1).
    rewrite Hq in Hids1. simpl in Hids1.
    destruct (IH s1) as (new & s' & Hgo & Hres & Hids & Hq' & Hidle' & Hphase');
      try assumption.
    { rewrite Henv1. exact Hdisk. }
    exists (first ++ new), s'. simpl enqueue_all.
    unfold bind at 1. rewrite Hrun.
    split; [exact Hgo |].
    split; [rewrite Hres, Hres1, app_assoc; reflexivity |].
    split; [rewrite map_app, Hids1, Hids; reflexivity |].
    auto.
Qed.

(** C3.  [processQueue], in both copies, does nothing unless the phase
    is ["setup"], and nothing when no test is pending; otherwise it takes
    the head of [pending], appends it to [running], sets the phase to
    ["running"] and the current test to it, changes nothing else, saves
    and runs that test.  [queueTest] appends its test at the end of
    [pending], saves and calls [processQueue].  So, under every
    interleaving of requests with the run in progress, the tests handed
    to [runTest] so far, followed by the tests still pending, are the
    tests handed to [queueTest], in the order of the calls, and at most
    one run is in flight; an awaited [queueTest] is such an interleaving.
    In the compiled copy, tests queued one after the other on an idle
    orchestrator are run in the order of the calls, one result each. *)
Theorem C3_fifo_single_flight (c : Copy) (evs : list Event) (sc : Sched) :
  sched_run c evs sched_init = Some sc ->
  (started sc ++ pending (queue (snapshot sc)) = enqueued sc
   /\ List.length (inflight sc) <= 1)
  /\ (forall s,
        phase (current (system s)) <> SetupPhase
        \/ pending (queue (system s)) = [] ->
        Source.processQueue s = (Ok tt, s)
        /\ Compiled.processQueue s = (Ok tt, s))
  /\ (forall s t rest,
        phase (current (system s)) = SetupPhase ->
        pending (queue (system s)) = t :: rest ->
        let after := taken t rest (system s) in
        Source.processQueue s
        = (saveState ;; Source.runTest t ;; ret tt)%async (set_system after s)
        /\ Compiled.processQueue s
           = (saveState ;;
              Compiled.runTest_then
                (Compiled.processQueue_fuel (S (List.length rest))) t)%async
               (set_system after s)
        /\ pending (queue after) = rest
        /\ running (queue after) = running (queue (system s)) ++ [t]
        /\ completed (queue after) = completed (queue (system s))
        /\ failed (queue after) = failed (queue (system s))
        /\ phase (current after) = RunningPhase
        /\ current_test (current after) = Some t
        /\ screenshots (current after) = screenshots (current (system s))
        /\ results (current after) = results (current (system s))
        /\ config after = config (system s)
        /\ history_tests after = history_tests (system s)
        /\ analytics after = analytics (system s))
  /\ (forall t s,
        let after := queueTest_push t (system s) in
        Source.queueTest t s
        = (saveState ;; Source.processQueue)%async (set_system after s)
        /\ Compiled.queueTest t s
           = (saveState ;; Compiled.processQueue)%async (set_system after s)
        /\ pending (queue after) = pending (queue (system s)) ++ [t]
        /\ running (queue after) = running (queue (system s))
        /\ completed (queue after) = completed (queue (system s))
        /\ failed (queue after) = failed (queue (system s))
        /\ current after = current (system s))
  /\ (forall t s,
        (exists schedule,
            forall sc0, snapshot sc0 = system s -> inflight sc0 = [] ->
            exists sc', sched_run SourceCopy schedule sc0 = Some sc'
                        /\ snapshot sc' = system (snd (Source.queueTest t s))
                        /\ enqueued sc' = enqueued sc0 ++ [t])
        /\ (exists schedule,
               forall sc0, snapshot sc0 = system s -> inflight sc0 = [] ->
               exists sc', sched_run CompiledCopy schedule sc0 = Some sc'
                           /\ snapshot sc' = system (snd (Compiled.queueTest t s))
                           /\ enqueued sc' = enqueued sc0 ++ [t]))
  /\ (forall tests s,
        healthy_disk (env s) ->
        phase (current (system s)) = SetupPhase ->
        running (queue (system s)) = [] ->
        pending (queue (system s)) = [] ->
        exists new s',
          enqueue_all Compiled.queueTest tests s = (Ok tt, s')
          /\ results (current (system s')) = results (current (system s)) ++ new
          /\ map tr_testId new = map test_id tests
          /\ pending (queue (system s')) = []
          /\ running (queue (system s')) = []
          /\ phase (current (system s')) = SetupPhase).
Proof.
  intro Hrun.
  pose proof (sched_inv_run c evs sched_init sc (sched_inv_init c) Hrun) as Hinv.
  split; [split; [apply (inv_fifo c sc Hinv) | apply (inv_single c sc Hinv)] |].
  split.
  { intros s [Hbusy | Hempty]; apply processQueue_noop;
      [apply processQueue_head_busy | apply processQueue_head_empty]; assumption. }
  split.
  { intros s t rest Hphase Hq. cbv zeta.
    destruct (processQueue_takes_head s t rest Hphase Hq) as [Hts Hjs].
    split; [exact Hts |]. split; [exact Hjs |]. repeat split. }
  split; [intros t s; cbv zeta; repeat split |].
  split.
  { intros t s. split;
      [apply source_queueTest_is_schedule | apply compiled_queueTest_is_schedule]. }
  intros tests s. apply enqueue_all_fifo.
Qed.

(** Two tests queued while nothing runs, in a schedule with a screenshot
    in between; and three tests queued and awaited one after the other on
    a launched orchestrator. *)
Lemma C3_fifo_single_flight_witness :
  map test_id (started two_tests_final) = ["a"; "b"]
  /\ started two_tests_final ++ pending (queue (snapshot two_tests_final))
     = enqueued two_tests_final
  /\ List.length (inflight two_tests_final) <= 1
  /\ exists new s',
       enqueue_all Compiled.queueTest three_tests (launched fresh) = (Ok tt, s')
       /\ results (current (system s')) = new
       /\ map tr_testId new = ["a"; "b"; "c"].
Proof.
  split; [reflexivity |].
  destruct (C3_fifo_single_flight CompiledCopy two_tests_schedule
              two_tests_final two_tests_run)
    as ((Hfifo & Hsingle) & _ & _ & _ & _ & Hrow).
  split; [exact Hfifo |]. split; [exact Hsingle |].
  destruct (Hrow three_tests (launched fresh))
    as (new & s' & Hgo & Hres & Hids & _); try reflexivity.
  - intros n call. reflexivity.
  - exists new, s'. split; [exact Hgo |]. split; [exact Hres |]. exact Hids.
Defined.

(** ** One list per identity *)











